(** * DOSBox Staging: paging-aware memory access, the 0F opcode escape
    table of the normal core, and the FPU part of the dynamic recompiler.

    A shallow embedding of
      - include/paging.h                 (Module [Paging]),
      - src/cpu/core_normal/prefix_0f.h  (Module [Prefix0F]),
      - src/cpu/core_dynrec/dyn_fpu.h    (Module [DynFpu]),
    and a model of the translated-block cache (Module [CodeCache]).

    Fixed-width integers are [Z] with the wrap-around written out, the
    globals of the C++ code are fields of explicit state records, and the
    helpers whose definitions live in other translation units are the fields
    of an environment record or section variables. *)

From Stdlib Require Import ZArith Lia Bool List.
From stdpp Require Import gmap functions.
Import ListNotations.
Local Open Scope Z_scope.

(** ** Fixed-width arithmetic *)

Definition u8 (x : Z) : Z := x mod 2 ^ 8.
Definition u16 (x : Z) : Z := x mod 2 ^ 16.
Definition u32 (x : Z) : Z := x mod 2 ^ 32.

(* ====================================================================== *)
(** ** include/paging.h *)
(* ====================================================================== *)

Module Paging.

Definition MEM_PAGE_SIZE : Z := 4096.
Definition XMS_START : Z := 0x110.
Definition TLB_SIZE : Z := 1024 * 1024.

Definition PFLAG_READABLE : Z := 0x1.
Definition PFLAG_WRITEABLE : Z := 0x2.
Definition PFLAG_HASROM : Z := 0x4.
Definition PFLAG_HASCODE32 : Z := 0x8.
Definition PFLAG_NOCODE : Z := 0x10.
Definition PFLAG_INIT : Z := 0x20.
Definition PFLAG_HASCODE16 : Z := 0x40.
Definition PFLAG_HASCODE : Z := Z.lor PFLAG_HASCODE32 PFLAG_HASCODE16.

Definition LINK_START : Z := (1024 + 64) / 4.
Definition PAGING_LINKS : Z := 128 * 1024 / 4.

(** *** X86PageEntry: a 32-bit page-table entry as bit fields
    (the little-endian layout; the big-endian branch assigns the same
    fields from the same bits). *)

Record X86PageEntry := {
  p : Z; wr : Z; us : Z; pwt : Z; pcd : Z; a : Z; d : Z; pat : Z; g : Z;
  avl : Z;
  base : Z
}.

Definition set (value : Z) : X86PageEntry :=
  {| p    := Z.land value 0x1;
     wr   := Z.land (Z.shiftr value 1) 0x1;
     us   := Z.land (Z.shiftr value 2) 0x1;
     pwt  := Z.land (Z.shiftr value 3) 0x1;
     pcd  := Z.land (Z.shiftr value 4) 0x1;
     a    := Z.land (Z.shiftr value 5) 0x1;
     d    := Z.land (Z.shiftr value 6) 0x1;
     pat  := Z.land (Z.shiftr value 7) 0x1;
     g    := Z.land (Z.shiftr value 8) 0x1;
     avl  := Z.land (Z.shiftr value 9) 0x7;
     base := Z.land (Z.shiftr value 12) 0xFFFFF |}.

Definition get (e : X86PageEntry) : Z :=
  let value := 0 in
  let value := Z.lor value (p e) in
  let value := Z.lor value (u32 (Z.shiftl (wr e) 1)) in
  let value := Z.lor value (u32 (Z.shiftl (us e) 2)) in
  let value := Z.lor value (u32 (Z.shiftl (pwt e) 3)) in
  let value := Z.lor value (u32 (Z.shiftl (pcd e) 4)) in
  let value := Z.lor value (u32 (Z.shiftl (a e) 5)) in
  let value := Z.lor value (u32 (Z.shiftl (d e) 6)) in
  let value := Z.lor value (u32 (Z.shiftl (pat e) 7)) in
  let value := Z.lor value (u32 (Z.shiftl (g e) 8)) in
  let value := Z.lor value (u32 (Z.shiftl (avl e) 9)) in
  let value := Z.lor value (u32 (Z.shiftl (base e) 12)) in
  value.

(** The fields a bit-field declaration can hold: [w] bits each. *)
Definition wf_entry (e : X86PageEntry) : Prop :=
  0 <= p e < 2 /\ 0 <= wr e < 2 /\ 0 <= us e < 2 /\ 0 <= pwt e < 2 /\
  0 <= pcd e < 2 /\ 0 <= a e < 2 /\ 0 <= d e < 2 /\ 0 <= pat e < 2 /\
  0 <= g e < 2 /\ 0 <= avl e < 8 /\ 0 <= base e < 2 ^ 20.

(** The number an entry stands for: each field at its bit position. *)
Definition entry_value (e : X86PageEntry) : Z :=
  p e + 2 * wr e + 4 * us e + 8 * pwt e + 16 * pcd e + 32 * a e + 64 * d e +
  128 * pat e + 256 * g e + 512 * avl e + 4096 * base e.

(** *** Memory access through the translation cache *)

Definition PhysPt := Z.     (* uint32_t *)
Definition HostPt := Z.     (* uint8_t*, the null pointer is 0 *)
Definition HandlerId := Z.  (* PageHandler*, by identity *)

(** The template argument of the read functions; paging.h names only
    [WithBreakpoints], the other value stands for every other mode. *)
Inductive MemOpMode := WithBreakpoints | SkipBreakpoints.

Section Machine.

(** Everything the memory functions do not own themselves: debugger and
    device state. *)
Context {X : Type}.

Record TLB := {
  read : Z -> HostPt;
  write : Z -> HostPt;
  readhandler : Z -> HandlerId;
  writehandler : Z -> HandlerId;
  phys_page : Z -> Z
}.

Record PagingBlock := {
  cr3 : Z;
  cr2 : Z;
  base_page : Z;
  base_addr : PhysPt;
  tlb : TLB;
  links_used : Z;
  links_entries : Z -> Z;
  firstmb : Z -> Z;
  enabled : bool
}.

Record Machine := {
  paging : PagingBlock;
  hostmem : Z -> Z;     (* the bytes of the host address space *)
  ext : X
}.

(** A trapping operation either returns or leaves through a trap. *)
Inductive Outcome (A : Type) :=
| Done (v : A) (m : Machine)
| Trap (m : Machine).
Arguments Done {A} v m.
Arguments Trap {A} m.

(** The virtual interface of class PageHandler.  A checked read receives
    the content of the caller's output location and returns the flag, the
    content of the location afterwards and the machine. *)
Record PageHandler := {
  readb : PhysPt -> Machine -> Outcome Z;
  readw : PhysPt -> Machine -> Outcome Z;
  readd : PhysPt -> Machine -> Outcome Z;
  readq : PhysPt -> Machine -> Outcome Z;
  writeb : PhysPt -> Z -> Machine -> Outcome unit;
  writew : PhysPt -> Z -> Machine -> Outcome unit;
  writed : PhysPt -> Z -> Machine -> Outcome unit;
  writeq : PhysPt -> Z -> Machine -> Outcome unit;
  GetHostReadPt : Z -> HostPt;
  GetHostWritePt : Z -> HostPt;
  readb_checked : PhysPt -> Z -> Machine -> bool * Z * Machine;
  readw_checked : PhysPt -> Z -> Machine -> bool * Z * Machine;
  readd_checked : PhysPt -> Z -> Machine -> bool * Z * Machine;
  readq_checked : PhysPt -> Z -> Machine -> bool * Z * Machine;
  writeb_checked : PhysPt -> Z -> Machine -> bool * Machine;
  writew_checked : PhysPt -> Z -> Machine -> bool * Machine;
  writed_checked : PhysPt -> Z -> Machine -> bool * Machine;
  writeq_checked : PhysPt -> Z -> Machine -> bool * Machine;
  flags : Z
}.

(** What paging.h only declares or includes: the host accessors of mem.h,
    the debugger hook of debug.h, the handler objects and the unaligned
    fallbacks of memory.cpp. *)
Record Env := {
  host_readb : (Z -> Z) -> HostPt -> Z;
  host_readw : (Z -> Z) -> HostPt -> Z;
  host_readd : (Z -> Z) -> HostPt -> Z;
  host_readq : (Z -> Z) -> HostPt -> Z;
  host_writeb : (Z -> Z) -> HostPt -> Z -> (Z -> Z);
  host_writew : (Z -> Z) -> HostPt -> Z -> (Z -> Z);
  host_writed : (Z -> Z) -> HostPt -> Z -> (Z -> Z);
  host_writeq : (Z -> Z) -> HostPt -> Z -> (Z -> Z);
  DEBUG_UpdateMemoryReadBreakpoints : Z -> PhysPt -> X -> X;
  handler : HandlerId -> PageHandler;
  mem_unalignedreadw : PhysPt -> Machine -> Outcome Z;
  mem_unalignedreadd : PhysPt -> Machine -> Outcome Z;
  mem_unalignedreadq : PhysPt -> Machine -> Outcome Z;
  mem_unalignedwritew : PhysPt -> Z -> Machine -> Outcome unit;
  mem_unalignedwrited : PhysPt -> Z -> Machine -> Outcome unit;
  mem_unalignedwriteq : PhysPt -> Z -> Machine -> Outcome unit;
  mem_unalignedreadw_checked : PhysPt -> Z -> Machine -> bool * Z * Machine;
  mem_unalignedreadd_checked : PhysPt -> Z -> Machine -> bool * Z * Machine;
  mem_unalignedreadq_checked : PhysPt -> Z -> Machine -> bool * Z * Machine;
  mem_unalignedwritew_checked : PhysPt -> Z -> Machine -> bool * Machine;
  mem_unalignedwrited_checked : PhysPt -> Z -> Machine -> bool * Machine;
  mem_unalignedwriteq_checked : PhysPt -> Z -> Machine -> bool * Machine
}.

Context (E : Env).

Definition set_hostmem (m : Machine) (h : Z -> Z) : Machine :=
  {| paging := paging m; hostmem := h; ext := ext m |}.

Definition set_ext (m : Machine) (x : X) : Machine :=
  {| paging := paging m; hostmem := hostmem m; ext := x |}.

(** A pointer test [if (tlb_addr)]. *)
Definition nonnull (pt : HostPt) : bool := negb (pt =? 0).

Definition get_tlb_read (m : Machine) (address : PhysPt) : HostPt :=
  read (tlb (paging m)) (Z.shiftr address 12).

Definition get_tlb_write (m : Machine) (address : PhysPt) : HostPt :=
  write (tlb (paging m)) (Z.shiftr address 12).

Definition get_tlb_readhandler (m : Machine) (address : PhysPt) : HandlerId :=
  readhandler (tlb (paging m)) (Z.shiftr address 12).

Definition get_tlb_writehandler (m : Machine) (address : PhysPt) : HandlerId :=
  writehandler (tlb (paging m)) (Z.shiftr address 12).

Definition PAGING_GetPhysicalPage (m : Machine) (linePage : PhysPt) : PhysPt :=
  u32 (Z.shiftl (phys_page (tlb (paging m)) (Z.shiftr linePage 12)) 12).

Definition PAGING_GetPhysicalAddress (m : Machine) (linAddr : PhysPt) : PhysPt :=
  Z.lor (u32 (Z.shiftl (phys_page (tlb (paging m)) (Z.shiftr linAddr 12)) 12))
        (Z.land linAddr 0xfff).

(** [if constexpr (op_mode == WithBreakpoints) DEBUG_Update...<T>(address)],
    [size] being sizeof(T). *)
Definition update_breakpoints (op_mode : MemOpMode) (size : Z)
    (address : PhysPt) (m : Machine) : Machine :=
  match op_mode with
  | WithBreakpoints =>
      set_ext m (DEBUG_UpdateMemoryReadBreakpoints E size address (ext m))
  | SkipBreakpoints => m
  end.

Definition mem_readb_inline (op_mode : MemOpMode) (address : PhysPt)
    (m : Machine) : Outcome Z :=
  let m := update_breakpoints op_mode 1 address m in
  let tlb_addr := get_tlb_read m address in
  if nonnull tlb_addr then
    Done (host_readb E (hostmem m) (tlb_addr + address)) m
  else
    readb (handler E (get_tlb_readhandler m address)) address m.

Definition mem_readw_inline (op_mode : MemOpMode) (address : PhysPt)
    (m : Machine) : Outcome Z :=
  let m := update_breakpoints op_mode 2 address m in
  if Z.land address 0xfff <? 0xfff then
    let tlb_addr := get_tlb_read m address in
    if nonnull tlb_addr then
      Done (host_readw E (hostmem m) (tlb_addr + address)) m
    else
      readw (handler E (get_tlb_readhandler m address)) address m
  else
    mem_unalignedreadw E address m.

Definition mem_readd_inline (op_mode : MemOpMode) (address : PhysPt)
    (m : Machine) : Outcome Z :=
  let m := update_breakpoints op_mode 4 address m in
  if Z.land address 0xfff <? 0xffd then
    let tlb_addr := get_tlb_read m address in
    if nonnull tlb_addr then
      Done (host_readd E (hostmem m) (tlb_addr + address)) m
    else
      readd (handler E (get_tlb_readhandler m address)) address m
  else
    mem_unalignedreadd E address m.

Definition mem_readq_inline (op_mode : MemOpMode) (address : PhysPt)
    (m : Machine) : Outcome Z :=
  let m := update_breakpoints op_mode 8 address m in
  if Z.land address 0xfff <? 0xff9 then
    let tlb_addr := get_tlb_read m address in
    if nonnull tlb_addr then
      Done (host_readq E (hostmem m) (tlb_addr + address)) m
    else
      readq (handler E (get_tlb_readhandler m address)) address m
  else
    mem_unalignedreadq E address m.

Definition mem_writeb_inline (address : PhysPt) (val : Z) (m : Machine)
    : Outcome unit :=
  let tlb_addr := get_tlb_write m address in
  if nonnull tlb_addr then
    Done tt (set_hostmem m (host_writeb E (hostmem m) (tlb_addr + address) val))
  else
    writeb (handler E (get_tlb_writehandler m address)) address val m.

Definition mem_writew_inline (address : PhysPt) (val : Z) (m : Machine)
    : Outcome unit :=
  if Z.land address 0xfff <? 0xfff then
    let tlb_addr := get_tlb_write m address in
    if nonnull tlb_addr then
      Done tt (set_hostmem m (host_writew E (hostmem m) (tlb_addr + address) val))
    else
      writew (handler E (get_tlb_writehandler m address)) address val m
  else
    mem_unalignedwritew E address val m.

Definition mem_writed_inline (address : PhysPt) (val : Z) (m : Machine)
    : Outcome unit :=
  if Z.land address 0xfff <? 0xffd then
    let tlb_addr := get_tlb_write m address in
    if nonnull tlb_addr then
      Done tt (set_hostmem m (host_writed E (hostmem m) (tlb_addr + address) val))
    else
      writed (handler E (get_tlb_writehandler m address)) address val m
  else
    mem_unalignedwrited E address val m.

Definition mem_writeq_inline (address : PhysPt) (val : Z) (m : Machine)
    : Outcome unit :=
  if Z.land address 0xfff <? 0xff9 then
    let tlb_addr := get_tlb_write m address in
    if nonnull tlb_addr then
      Done tt (set_hostmem m (host_writeq E (hostmem m) (tlb_addr + address) val))
    else
      writeq (handler E (get_tlb_writehandler m address)) address val m
  else
    mem_unalignedwriteq E address val m.

(** The checked variants: [old] is the content of [*val] at the call. *)


Definition mem_readw_checked (address : PhysPt) (old : Z) (m : Machine)
    : bool * Z * Machine :=
  if Z.land address 0xfff <? 0xfff then
    let tlb_addr := get_tlb_read m address in
    if nonnull tlb_addr then
      (false, host_readw E (hostmem m) (tlb_addr + address), m)
    else
      readw_checked (handler E (get_tlb_readhandler m address)) address old m
  else
    mem_unalignedreadw_checked E address old m.

Definition mem_readd_checked (address : PhysPt) (old : Z) (m : Machine)
    : bool * Z * Machine :=
  if Z.land address 0xfff <? 0xffd then
    let tlb_addr := get_tlb_read m address in
    if nonnull tlb_addr then
      (false, host_readd E (hostmem m) (tlb_addr + address), m)
    else
      readd_checked (handler E (get_tlb_readhandler m address)) address old m
  else
    mem_unalignedreadd_checked E address old m.

Definition mem_readq_checked (address : PhysPt) (old : Z) (m : Machine)
    : bool * Z * Machine :=
  if Z.land address 0xfff <? 0xff9 then
    let tlb_addr := get_tlb_read m address in
    if nonnull tlb_addr then
      (false, host_readq E (hostmem m) (tlb_addr + address), m)
    else
      readq_checked (handler E (get_tlb_readhandler m address)) address old m
  else
    mem_unalignedreadq_checked E address old m.


Definition mem_writew_checked (address : PhysPt) (val : Z) (m : Machine)
    : bool * Machine :=
  if Z.land address 0xfff <? 0xfff then
    let tlb_addr := get_tlb_write m address in
    if nonnull tlb_addr then
      (false, set_hostmem m (host_writew E (hostmem m) (tlb_addr + address) val))
    else
      writew_checked (handler E (get_tlb_writehandler m address)) address val m
  else
    mem_unalignedwritew_checked E address val m.

Definition mem_writed_checked (address : PhysPt) (val : Z) (m : Machine)
    : bool * Machine :=
  if Z.land address 0xfff <? 0xffd then
    let tlb_addr := get_tlb_write m address in
    if nonnull tlb_addr then
      (false, set_hostmem m (host_writed E (hostmem m) (tlb_addr + address) val))
    else
      writed_checked (handler E (get_tlb_writehandler m address)) address val m
  else
    mem_unalignedwrited_checked E address val m.

Definition mem_writeq_checked (address : PhysPt) (val : Z) (m : Machine)
    : bool * Machine :=
  if Z.land address 0xfff <? 0xff9 then
    let tlb_addr := get_tlb_write m address in
    if nonnull tlb_addr then
      (false, set_hostmem m (host_writeq E (hostmem m) (tlb_addr + address) val))
    else
      writeq_checked (handler E (get_tlb_writehandler m address)) address val m
  else
    mem_unalignedwriteq_checked E address val m.

(** *** Vocabulary of the statements about the memory functions *)

(** The page an address lies in, and whether the [n] bytes of an access at
    [address] (addresses wrap at 32 bits) lie in one page. *)
Definition page_of (address : PhysPt) : Z := Z.shiftr address 12.

Definition within_page (address : PhysPt) (n : nat) : bool :=
  forallb (fun i => page_of (u32 (address + Z.of_nat i)) =? page_of address)
          (seq 0 n).

(** The single-page dispatch of a read or write: the cached pointer when it
    is not null, else the handler. *)
Definition single_page_read
    (hostrd : (Z -> Z) -> HostPt -> Z)
    (handlerrd : PageHandler -> PhysPt -> Machine -> Outcome Z)
    (address : PhysPt) (m : Machine) : Outcome Z :=
  if nonnull (get_tlb_read m address) then
    Done (hostrd (hostmem m) (get_tlb_read m address + address)) m
  else handlerrd (handler E (get_tlb_readhandler m address)) address m.

Definition single_page_write
    (hostwr : (Z -> Z) -> HostPt -> Z -> (Z -> Z))
    (handlerwr : PageHandler -> PhysPt -> Z -> Machine -> Outcome unit)
    (address : PhysPt) (val : Z) (m : Machine) : Outcome unit :=
  if nonnull (get_tlb_write m address) then
    Done tt (set_hostmem m (hostwr (hostmem m) (get_tlb_write m address + address) val))
  else handlerwr (handler E (get_tlb_writehandler m address)) address val m.

(** The single-page dispatch of the checked variants. *)
Definition single_page_read_checked
    (hostrd : (Z -> Z) -> HostPt -> Z)
    (handlerrd : PageHandler -> PhysPt -> Z -> Machine -> bool * Z * Machine)
    (address : PhysPt) (old : Z) (m : Machine) : bool * Z * Machine :=
  if nonnull (get_tlb_read m address) then
    (false, hostrd (hostmem m) (get_tlb_read m address + address), m)
  else handlerrd (handler E (get_tlb_readhandler m address)) address old m.

Definition single_page_write_checked
    (hostwr : (Z -> Z) -> HostPt -> Z -> (Z -> Z))
    (handlerwr : PageHandler -> PhysPt -> Z -> Machine -> bool * Machine)
    (address : PhysPt) (val : Z) (m : Machine) : bool * Machine :=
  if nonnull (get_tlb_write m address) then
    (false, set_hostmem m (hostwr (hostmem m) (get_tlb_write m address + address) val))
  else handlerwr (handler E (get_tlb_writehandler m address)) address val m.



End Machine.

Arguments Machine : clear implicits.
Arguments Outcome : clear implicits.
Arguments PageHandler : clear implicits.
Arguments Env : clear implicits.
Arguments Done {X A} v m.
Arguments Trap {X A} m.

Section CheckedDelegates.

Context {X : Type}.







End CheckedDelegates.

End Paging.

(* ====================================================================== *)
(** ** The translated-block cache and self-modifying code *)
(* ====================================================================== *)

Module CodeCache.

(** Modelled from the spec: the block cache of the dynamic recompiler and
    the write path of a page that holds translated code.  Of this part the
    sources contain the page flags of paging.h (PFLAG_HASCODE16,
    PFLAG_HASCODE32, PFLAG_HASCODE); the cache and the code-tracking page
    handler are not among them.  A TranslatedBlock is
    {guest_start_address, host_executable_thunk_or_opcode_sequence,
     covered_guest_length, originating_physical_pages}; the opcode sequence
    is represented by the guest bytes it was derived from. *)
Record TranslatedBlock := {
  guest_start_address : Z;
  opcode_sequence : list Z;
  covered_guest_length : nat;
  originating_physical_pages : gset Z
}.

(** Modelled from the spec: the physical memory store (a flat byte array),
    the per-page flags and the block cache keyed by guest start address. *)
Record Engine := {
  ram : Z -> Z;
  page_flags : Z -> Z;
  cache : gmap Z TranslatedBlock
}.

Definition has_code (e : Engine) (page : Z) : bool :=
  negb (Z.land (page_flags e page) Paging.PFLAG_HASCODE =? 0).

(** The [len] guest bytes from [start] on, and the pages they lie in. *)
Definition fetch (mem : Z -> Z) (start : Z) (len : nat) : list Z :=
  map (fun i => mem (start + Z.of_nat i)) (seq 0 len).

Definition pages_covered (start : Z) (len : nat) : gset Z :=
  list_to_set (map (fun i => Paging.page_of (start + Z.of_nat i)) (seq 0 len)).

Section Recompiler.

(** Where the block that starts at an address ends (a control transfer, a
    page boundary or the maximum length): decided by the decoder. *)
Variable block_length : (Z -> Z) -> Z -> nat.

(** Modelled from the spec: "before caching a block, every physical page it
    covers is flagged has_code (16-bit or 32-bit variant)". *)
Definition translate (e : Engine) (start : Z) (big : bool) : Engine :=
  let len := block_length (ram e) start in
  let pages := pages_covered start len in
  let flag := if big then Paging.PFLAG_HASCODE32 else Paging.PFLAG_HASCODE16 in
  {| ram := ram e;
     page_flags := fun pg =>
       if bool_decide (pg ∈ pages) then Z.lor (page_flags e pg) flag
       else page_flags e pg;
     cache := <[start :=
                 {| guest_start_address := start;
                    opcode_sequence := fetch (ram e) start len;
                    covered_guest_length := len;
                    originating_physical_pages := pages |}]> (cache e) |}.

(** Modelled from the spec: eviction is per page; every block whose
    originating pages include the page goes. *)
Definition evict (e : Engine) (page : Z) : Engine :=
  {| ram := ram e;
     page_flags := page_flags e;
     cache := filter (fun kb => page ∉ originating_physical_pages (snd kb))
                     (cache e) |}.

(** Modelled from the spec: "any write landing in such a page must evict
    every block whose originating_physical_pages includes that page before
    the write is allowed to retire". *)
Definition write (e : Engine) (addr val : Z) : Engine :=
  let e := if has_code e (Paging.page_of addr)
           then evict e (Paging.page_of addr) else e in
  {| ram := <[addr := val]> (ram e);
     page_flags := page_flags e;
     cache := cache e |}.

(** Modelled from the spec: "for a guest basic block starting at address A,
    either find a valid cached translation or synthesize one, then execute
    it".  The result is the opcode sequence that runs. *)
Definition execute (e : Engine) (start : Z) (big : bool) : list Z * Engine :=
  match cache e !! start with
  | Some b => (opcode_sequence b, e)
  | None =>
      let e' := translate e start big in
      (fetch (ram e) start (block_length (ram e) start), e')
  end.

(** What a guest program does to the engine. *)
Inductive Op :=
| Write (addr val : Z)
| Execute (start : Z) (big : bool).

Definition step (e : Engine) (o : Op) : Engine :=
  match o with
  | Write addr val => write e addr val
  | Execute start big => snd (execute e start big)
  end.

Definition run (e : Engine) (ops : list Op) : Engine := fold_left step ops e.

(** Power-on: nothing translated yet. *)
Definition power_on (mem : Z -> Z) (flags : Z -> Z) : Engine :=
  {| ram := mem; page_flags := flags; cache := ∅ |}.

(** No cached block is stale: each is the translation of the bytes that are
    in memory now, lies in the pages it records, and these are flagged. *)
Definition coherent (e : Engine) : Prop :=
  forall start b, cache e !! start = Some b ->
    guest_start_address b = start /\
    opcode_sequence b = fetch (ram e) start (covered_guest_length b) /\
    originating_physical_pages b = pages_covered start (covered_guest_length b) /\
    forall pg, pg ∈ originating_physical_pages b -> has_code e pg = true.

End Recompiler.

End CodeCache.

(* ====================================================================== *)
(** ** src/cpu/core_normal/prefix_0f.h *)
(* ====================================================================== *)

Module Prefix0F.

(** Bits of reg_flags and the exception vector used by the handlers (x86
    architecture; regs.h and cpu.h define them under these names). *)
Definition FLAG_CF : Z := 0x1.
Definition FLAG_ZF : Z := 0x40.
Definition FLAG_VM : Z := 0x20000.
Definition EXCEPTION_GP : Z := 13.
Definition CR0_TASKSWITCH : Z := 0x8.

Section Core.

(** Guest memory as LoadMx/SaveMx see it, and the lazy-flags record. *)
Context {M L : Type}.

Record Cpu := {
  regs : Z -> Z;              (* cpu_regs.regs[0..7]: EAX ECX EDX EBX ESP EBP ESI EDI *)
  reg_flags : Z;
  lflags : L;
  cr : Z -> Z;                (* the control registers *)
  cpl : Z;                    (* cpu.cpl *)
  pmode : bool;               (* cpu.pmode *)
  CPU_ArchitectureType : Z;
  cseip : Z;                  (* core.cseip, the fetch pointer *)
  mem : M
}.

(** How one opcode case ends. *)
Inductive Result :=
| Next (s : Cpu)                    (* break: the instruction is done *)
| RunException (which : Z) (s : Cpu)(* EXCEPTION(which) / RUNEXCEPTION() *)
| IllegalOpcode (s : Cpu)           (* goto illegal_opcode *)
| Hang (s : Cpu)                    (* a loop that does not end *)
| NotEmbedded (s : Cpu)             (* an opcode that is not modelled here *)
| Exit (s : Cpu).                   (* E_Exit: the emulator stops *)

(** What the handlers use and prefix_0f.h does not define: the memory
    macros, the effective-address table, FillFlags and the names of the
    processor generations. *)
Record Core := {
  LoadMb : Z -> M -> Z;
  LoadMw : Z -> M -> Z;
  LoadMd : Z -> M -> Z;
  SaveMb : Z -> Z -> M -> M;
  SaveMw : Z -> Z -> M -> M;
  SaveMd : Z -> Z -> M -> M;
  (** GetEAa: the address of the memory operand of ModRM byte [rm] and the
      fetch pointer behind its displacement bytes. *)
  EALookup : Z -> Cpu -> Z * Z;
  (** FillFlags(): the lazy flags and reg_flags afterwards. *)
  FillFlags_of : L -> Z -> L * Z;
  (** lflags.type = t_UNKNOWN *)
  set_type_UNKNOWN : L -> L;
  Intel486OldSlow : Z;
  Pentium : Z;
  (** TEST_PREFIX_ADDR and FixEA16 (applied to eaa) *)
  TEST_PREFIX_ADDR : Cpu -> bool;
  FixEA16 : Z -> Cpu -> Z
}.

Context (C : Core).

Definition with_regs (s : Cpu) (r : Z -> Z) : Cpu :=
  {| regs := r; reg_flags := reg_flags s; lflags := lflags s; cr := cr s;
     cpl := cpl s; pmode := pmode s;
     CPU_ArchitectureType := CPU_ArchitectureType s;
     cseip := cseip s; mem := mem s |}.

Definition with_flags (s : Cpu) (f : Z) : Cpu :=
  {| regs := regs s; reg_flags := f; lflags := lflags s; cr := cr s;
     cpl := cpl s; pmode := pmode s;
     CPU_ArchitectureType := CPU_ArchitectureType s;
     cseip := cseip s; mem := mem s |}.

Definition with_lflags (s : Cpu) (l : L) : Cpu :=
  {| regs := regs s; reg_flags := reg_flags s; lflags := l; cr := cr s;
     cpl := cpl s; pmode := pmode s;
     CPU_ArchitectureType := CPU_ArchitectureType s;
     cseip := cseip s; mem := mem s |}.

Definition with_cr (s : Cpu) (c : Z -> Z) : Cpu :=
  {| regs := regs s; reg_flags := reg_flags s; lflags := lflags s; cr := c;
     cpl := cpl s; pmode := pmode s;
     CPU_ArchitectureType := CPU_ArchitectureType s;
     cseip := cseip s; mem := mem s |}.

Definition with_cseip (s : Cpu) (ip : Z) : Cpu :=
  {| regs := regs s; reg_flags := reg_flags s; lflags := lflags s; cr := cr s;
     cpl := cpl s; pmode := pmode s;
     CPU_ArchitectureType := CPU_ArchitectureType s;
     cseip := ip; mem := mem s |}.

Definition with_mem (s : Cpu) (m : M) : Cpu :=
  {| regs := regs s; reg_flags := reg_flags s; lflags := lflags s; cr := cr s;
     cpl := cpl s; pmode := pmode s;
     CPU_ArchitectureType := CPU_ArchitectureType s;
     cseip := cseip s; mem := m |}.

(** *** Register operands.  The lookup tables of modrm.cpp follow the x86
    encoding: the reg field (bits 3..5) selects the G operand, the rm field
    (bits 0..2) the register E operand; byte registers 0..3 are the low
    bytes of EAX ECX EDX EBX, 4..7 their second bytes. *)

Definition reg_field (rm : Z) : Z := Z.land (Z.shiftr rm 3) 7.
Definition rm_field (rm : Z) : Z := Z.land rm 7.

Definition get32 (s : Cpu) (i : Z) : Z := regs s i.
Definition set32 (s : Cpu) (i v : Z) : Cpu := with_regs s (<[i := v]> (regs s)).

Definition get16 (s : Cpu) (i : Z) : Z := Z.land (regs s i) 0xFFFF.
Definition set16 (s : Cpu) (i v : Z) : Cpu :=
  with_regs s (<[i := Z.lor (Z.land (regs s i) 0xFFFF0000) v]> (regs s)).

Definition get8 (s : Cpu) (i : Z) : Z :=
  if i <? 4 then Z.land (regs s i) 0xFF
  else Z.land (Z.shiftr (regs s (i - 4)) 8) 0xFF.
Definition set8 (s : Cpu) (i v : Z) : Cpu :=
  if i <? 4 then
    with_regs s (<[i := Z.lor (Z.land (regs s i) 0xFFFFFF00) v]> (regs s))
  else
    with_regs s (<[i - 4 := Z.lor (Z.land (regs s (i - 4)) 0xFFFF00FF)
                                  (Z.shiftl v 8)]> (regs s)).

Definition reg_al (s : Cpu) : Z := get8 s 0.
Definition reg_ax (s : Cpu) : Z := get16 s 0.
Definition reg_cl (s : Cpu) : Z := get8 s 1.

(** SETFLAGBIT(TYPE,TEST) *)
Definition SETFLAGBIT (flag : Z) (test : bool) (s : Cpu) : Cpu :=
  if test then with_flags s (Z.lor (reg_flags s) flag)
  else with_flags s (Z.land (reg_flags s) (u32 (Z.lnot flag))).

Definition get_flag (flag : Z) (s : Cpu) : bool :=
  negb (Z.land (reg_flags s) flag =? 0).

Definition FillFlags (s : Cpu) : Cpu :=
  let '(l, f) := FillFlags_of C (lflags s) (reg_flags s) in
  with_flags (with_lflags s l) f.

(** Fetchb(): the byte at the fetch pointer, which moves on. *)
Definition Fetchb (s : Cpu) : Z * Cpu :=
  (u8 (LoadMb C (cseip s) (mem s)), with_cseip s (cseip s + 1)).

(** GetEAa *)
Definition GetEAa (rm : Z) (s : Cpu) : Z * Cpu :=
  let '(eaa, ip) := EALookup C rm s in (eaa, with_cseip s ip).

(** Modelled from the spec: CPU_READ_CRX of cpu.cpp is not part of the
    sources.  A control-register read "must read the designated control
    register's value into the destination register and must fault
    (protection violation) if attempted at a non-zero privilege level";
    the check comes "before committing any state mutation".  The result is
    the fault (the function returns true) or the value for crx_value. *)
Definition CPU_READ_CRX (which : Z) (s : Cpu) : Z + Z :=
  if negb (cpl s =? 0) then inl EXCEPTION_GP else inr (cr s which).

(** CASE_0F_B(0x20)  MOV Rd,CRx *)
Definition op_0f_20 (s : Cpu) : Result :=
  let '(rm, s) := Fetchb s in
  let which := reg_field rm in
  let rm := if rm <? 0xc0 then Z.lor rm 0xc0 else rm in
  let eard := rm_field rm in
  match CPU_READ_CRX which s with
  | inl which => RunException which s
  | inr crx_value => Next (set32 s eard crx_value)
  end.

(** CASE_0F_B(0xb0)  cmpxchg Eb,Gb *)
Definition op_0f_b0 (s : Cpu) : Result :=
  if CPU_ArchitectureType s <? Intel486OldSlow C then IllegalOpcode s else
  let s := FillFlags s in
  let '(rm, s) := Fetchb s in
  let rmrb := reg_field rm in
  if 0xc0 <=? rm then
    let earb := rm_field rm in
    if reg_al s =? get8 s earb then
      let s := set8 s earb (get8 s rmrb) in
      Next (SETFLAGBIT FLAG_ZF true s)
    else
      let s := set8 s 0 (get8 s earb) in
      Next (SETFLAGBIT FLAG_ZF false s)
  else
    let '(eaa, s) := GetEAa rm s in
    let val := u8 (LoadMb C eaa (mem s)) in
    if reg_al s =? val then
      let s := with_mem s (SaveMb C eaa (get8 s rmrb) (mem s)) in
      Next (SETFLAGBIT FLAG_ZF true s)
    else
      let s := with_mem s (SaveMb C eaa val (mem s)) in
      let s := set8 s 0 val in
      Next (SETFLAGBIT FLAG_ZF false s).

(** CASE_0F_W(0xb1)  cmpxchg Ew,Gw *)
Definition op_0f_b1 (s : Cpu) : Result :=
  if CPU_ArchitectureType s <? Intel486OldSlow C then IllegalOpcode s else
  let s := FillFlags s in
  let '(rm, s) := Fetchb s in
  let rmrw := reg_field rm in
  if 0xc0 <=? rm then
    let earw := rm_field rm in
    if reg_ax s =? get16 s earw then
      let s := set16 s earw (get16 s rmrw) in
      Next (SETFLAGBIT FLAG_ZF true s)
    else
      let s := set16 s 0 (get16 s earw) in
      Next (SETFLAGBIT FLAG_ZF false s)
  else
    let '(eaa, s) := GetEAa rm s in
    let val := u16 (LoadMw C eaa (mem s)) in
    if reg_ax s =? val then
      let s := with_mem s (SaveMw C eaa (get16 s rmrw) (mem s)) in
      Next (SETFLAGBIT FLAG_ZF true s)
    else
      let s := with_mem s (SaveMw C eaa val (mem s)) in
      let s := set16 s 0 val in
      Next (SETFLAGBIT FLAG_ZF false s).

(** The source operand of the Gw,Ew forms: Ew from a register or memory. *)
Definition load_Ew (rm : Z) (s : Cpu) : Z * Cpu :=
  if 0xc0 <=? rm then (get16 s (rm_field rm), s)
  else let '(eaa, s) := GetEAa rm s in (u16 (LoadMw C eaa (mem s)), s).

(** [while ((value & 0x01)==0) { result++; value>>=1; }] on uint16_t. *)
Fixpoint bsf_loop (fuel : nat) (value result : Z) : option Z :=
  match fuel with
  | O => None
  | S fuel =>
      if Z.land value 0x01 =? 0
      then bsf_loop fuel (Z.shiftr value 1) (u16 (result + 1))
      else Some result
  end.

(** CASE_0F_W(0xbc)  BSF Gw,Ew *)
Definition op_0f_bc (fuel : nat) (s : Cpu) : Result :=
  let '(rm, s) := Fetchb s in
  let rmrw := reg_field rm in
  let '(value, s) := load_Ew rm s in
  if value =? 0 then
    let s := SETFLAGBIT FLAG_ZF true s in
    Next (with_lflags s (set_type_UNKNOWN C (lflags s)))
  else
    match bsf_loop fuel value 0 with
    | None => Hang s
    | Some result =>
        let s := SETFLAGBIT FLAG_ZF false s in
        let s := set16 s rmrw result in
        Next (with_lflags s (set_type_UNKNOWN C (lflags s)))
    end.

(** CASE_0F_B(0x06)  CLTS *)
Definition op_0f_06 (s : Cpu) : Result :=
  if pmode s && negb (cpl s =? 0) then RunException EXCEPTION_GP s
  else Next (with_cr s (<[0 := Z.land (cr s 0) (Z.lnot CR0_TASKSWITCH)]> (cr s))).

(** CASE_0F_B(0x08) INVD and CASE_0F_B(0x09) WBINVD *)
Definition op_0f_08 (s : Cpu) : Result :=
  if CPU_ArchitectureType s <? Intel486OldSlow C then IllegalOpcode s
  else if pmode s && negb (cpl s =? 0) then RunException EXCEPTION_GP s
  else Next s.

(** Casts to int16_t and int8_t. *)
Definition s16 (x : Z) : Z := if x <? 0x8000 then x else x - 0x10000.
Definition s8 (x : Z) : Z := if x <? 0x80 then x else x - 0x100.

(** The four bit instructions differ in what they do to the operand. *)
Inductive BitOp := BT | BTS | BTR | BTC.

Definition bit_result (op : BitOp) (old mask : Z) : Z :=
  match op with
  | BT => old
  | BTS => Z.lor old mask
  | BTR => Z.land old (Z.lnot mask)
  | BTC => Z.lxor old mask
  end.

(** CASE_0F_W(0xa3) BT, (0xab) BTS, (0xb3) BTR, (0xbb) BTC  Ew,Gw *)
Definition bit_Ew_Gw (op : BitOp) (s : Cpu) : Result :=
  let s := FillFlags s in
  let '(rm, s) := Fetchb s in
  let rmrw := reg_field rm in
  let mask := u16 (Z.shiftl 1 (Z.land (get16 s rmrw) 15)) in
  if 0xc0 <=? rm then
    let earw := rm_field rm in
    let old := get16 s earw in
    let s := SETFLAGBIT FLAG_CF (negb (Z.land old mask =? 0)) s in
    match op with
    | BT => Next s
    | _ => Next (set16 s earw (bit_result op old mask))
    end
  else
    let '(eaa, s) := GetEAa rm s in
    let eaa := u32 (eaa + Z.shiftr (s16 (get16 s rmrw)) 4 * 2) in
    let eaa := if negb (TEST_PREFIX_ADDR C s) then FixEA16 C eaa s else eaa in
    let old := u16 (LoadMw C eaa (mem s)) in
    let s := SETFLAGBIT FLAG_CF (negb (Z.land old mask =? 0)) s in
    match op with
    | BT => Next s
    | _ => Next (with_mem s (SaveMw C eaa (bit_result op old mask) (mem s)))
    end.

Definition op_0f_a3 : Cpu -> Result := bit_Ew_Gw BT.
Definition op_0f_ab : Cpu -> Result := bit_Ew_Gw BTS.
Definition op_0f_b3 : Cpu -> Result := bit_Ew_Gw BTR.
Definition op_0f_bb : Cpu -> Result := bit_Ew_Gw BTC.

(** [switch (rm & 0x38)] of GRP8 *)
Definition grp8_op (rm : Z) : option BitOp :=
  match Z.land rm 0x38 with
  | 0x20 => Some BT
  | 0x28 => Some BTS
  | 0x30 => Some BTR
  | 0x38 => Some BTC
  | _ => None
  end.

(** CASE_0F_W(0xba)  GRP8 Ew,Ib *)
Definition op_0f_ba (s : Cpu) : Result :=
  let s := FillFlags s in
  let '(rm, s) := Fetchb s in
  if 0xc0 <=? rm then
    let earw := rm_field rm in
    let '(ib, s) := Fetchb s in
    let mask := u16 (Z.shiftl 1 (Z.land ib 15)) in
    let old := get16 s earw in
    let s := SETFLAGBIT FLAG_CF (negb (Z.land old mask =? 0)) s in
    match grp8_op rm with
    | Some BT => Next s
    | Some op => Next (set16 s earw (bit_result op old mask))
    | None => Exit s
    end
  else
    let '(eaa, s) := GetEAa rm s in
    let old := u16 (LoadMw C eaa (mem s)) in
    let '(ib, s) := Fetchb s in
    let mask := u16 (Z.shiftl 1 (Z.land ib 15)) in
    let s := SETFLAGBIT FLAG_CF (negb (Z.land old mask =? 0)) s in
    match grp8_op rm with
    | Some BT => Next s
    | Some op => Next (with_mem s (SaveMw C eaa (bit_result op old mask) (mem s)))
    | None => Exit s
    end.

(** [while ((value & 0x8000)==0) { result--; value<<=1; }] on uint16_t. *)
Fixpoint bsr_loop (fuel : nat) (value result : Z) : option Z :=
  match fuel with
  | O => None
  | S fuel =>
      if Z.land value 0x8000 =? 0
      then bsr_loop fuel (u16 (Z.shiftl value 1)) (u16 (result - 1))
      else Some result
  end.

(** CASE_0F_W(0xbd)  BSR Gw,Ew *)
Definition op_0f_bd (fuel : nat) (s : Cpu) : Result :=
  let '(rm, s) := Fetchb s in
  let rmrw := reg_field rm in
  let '(value, s) := load_Ew rm s in
  if value =? 0 then
    let s := SETFLAGBIT FLAG_ZF true s in
    Next (with_lflags s (set_type_UNKNOWN C (lflags s)))
  else
    match bsr_loop fuel value 15 with
    | None => Hang s
    | Some result =>
        let s := SETFLAGBIT FLAG_ZF false s in
        let s := set16 s rmrw result in
        Next (with_lflags s (set_type_UNKNOWN C (lflags s)))
    end.

(** The source operand of the Gw,Eb forms: Eb from a register or memory. *)
Definition source_Eb (rm : Z) (s : Cpu) : Z :=
  if 0xc0 <=? rm then get8 s (rm_field rm)
  else u8 (LoadMb C (fst (EALookup C rm s)) (mem s)).

(** CASE_0F_W(0xb6)  MOVZX Gw,Eb *)
Definition op_0f_b6 (s : Cpu) : Result :=
  let '(rm, s) := Fetchb s in
  let rmrw := reg_field rm in
  if 0xc0 <=? rm then Next (set16 s rmrw (get8 s (rm_field rm)))
  else let '(eaa, s) := GetEAa rm s in
       Next (set16 s rmrw (u8 (LoadMb C eaa (mem s)))).

(** CASE_0F_W(0xb7) MOVZX Gw,Ew and CASE_0F_W(0xbf) MOVSX Gw,Ew *)
Definition op_0f_b7 (s : Cpu) : Result :=
  let '(rm, s) := Fetchb s in
  let rmrw := reg_field rm in
  if 0xc0 <=? rm then Next (set16 s rmrw (get16 s (rm_field rm)))
  else let '(eaa, s) := GetEAa rm s in
       Next (set16 s rmrw (u16 (LoadMw C eaa (mem s)))).

Definition op_0f_bf : Cpu -> Result := op_0f_b7.

(** CASE_0F_W(0xbe)  MOVSX Gw,Eb *)
Definition op_0f_be (s : Cpu) : Result :=
  let '(rm, s) := Fetchb s in
  let rmrw := reg_field rm in
  if 0xc0 <=? rm then Next (set16 s rmrw (u16 (s8 (get8 s (rm_field rm)))))
  else let '(eaa, s) := GetEAa rm s in
       Next (set16 s rmrw (u16 (s8 (u8 (LoadMb C eaa (mem s)))))).

(** CASE_0F_B(0xc0)  XADD Gb,Eb *)
Definition op_0f_c0 (s : Cpu) : Result :=
  if CPU_ArchitectureType s <? Intel486OldSlow C then IllegalOpcode s else
  let '(rm, s) := Fetchb s in
  let rmrb := reg_field rm in
  let oldrmrb := get8 s rmrb in
  if 0xc0 <=? rm then
    let earb := rm_field rm in
    let s := set8 s rmrb (get8 s earb) in
    Next (set8 s earb (u8 (get8 s earb + oldrmrb)))
  else
    let '(eaa, s) := GetEAa rm s in
    let s := set8 s rmrb (u8 (LoadMb C eaa (mem s))) in
    Next (with_mem s (SaveMb C eaa (u8 (u8 (LoadMb C eaa (mem s)) + oldrmrb))
                        (mem s))).

(** CASE_0F_W(0xc1)  XADD Gw,Ew *)
Definition op_0f_c1 (s : Cpu) : Result :=
  if CPU_ArchitectureType s <? Intel486OldSlow C then IllegalOpcode s else
  let '(rm, s) := Fetchb s in
  let rmrw := reg_field rm in
  let oldrmrw := get16 s rmrw in
  if 0xc0 <=? rm then
    let earw := rm_field rm in
    let s := set16 s rmrw (get16 s earw) in
    Next (set16 s earw (u16 (get16 s earw + oldrmrw)))
  else
    let '(eaa, s) := GetEAa rm s in
    let s := set16 s rmrw (u16 (LoadMw C eaa (mem s))) in
    Next (with_mem s (SaveMw C eaa (u16 (u16 (LoadMw C eaa (mem s)) + oldrmrw))
                        (mem s))).

(** Modelled from the spec: the dispatch loop of core_normal.cpp is not
    part of the sources.  "Two-level dispatch: a primary 256-entry table on
    the first opcode byte; a secondary 256-entry table reached via the 0x0F
    escape byte".  CASE_0F_B cases serve both operand sizes, CASE_0F_W cases
    the 16-bit one ([big] is false). *)
Definition prefix_0f (fuel : nat) (big : bool) (opcode : Z) (s : Cpu) : Result :=
  if opcode =? 0x20 then op_0f_20 s
  else if opcode =? 0xb0 then op_0f_b0 s
  else if (opcode =? 0xb1) && negb big then op_0f_b1 s
  else if (opcode =? 0xbc) && negb big then op_0f_bc fuel s
  else if opcode =? 0x06 then op_0f_06 s
  else if (opcode =? 0x08) || (opcode =? 0x09) then op_0f_08 s
  else if (opcode =? 0xa3) && negb big then op_0f_a3 s
  else if (opcode =? 0xab) && negb big then op_0f_ab s
  else if (opcode =? 0xb3) && negb big then op_0f_b3 s
  else if (opcode =? 0xbb) && negb big then op_0f_bb s
  else if (opcode =? 0xba) && negb big then op_0f_ba s
  else if (opcode =? 0xbd) && negb big then op_0f_bd fuel s
  else if (opcode =? 0xb6) && negb big then op_0f_b6 s
  else if (opcode =? 0xb7) && negb big then op_0f_b7 s
  else if (opcode =? 0xbf) && negb big then op_0f_bf s
  else if (opcode =? 0xbe) && negb big then op_0f_be s
  else if opcode =? 0xc0 then op_0f_c0 s
  else if (opcode =? 0xc1) && negb big then op_0f_c1 s
  else NotEmbedded s.

Definition decode (fuel : nat) (big : bool) (s : Cpu) : Result :=
  let '(opcode, s) := Fetchb s in
  if opcode =? 0x0F then
    let '(opcode, s) := Fetchb s in prefix_0f fuel big opcode s
  else NotEmbedded s.

End Core.

Arguments Cpu : clear implicits.
Arguments Result : clear implicits.
Arguments Core : clear implicits.

End Prefix0F.

(* ====================================================================== *)
(** ** src/cpu/core_dynrec/dyn_fpu.h *)
(* ====================================================================== *)

Module DynFpu.

(** The tag of a register slot (fpu.h). *)
Inductive FPU_Tag := TAG_Valid | TAG_Zero | TAG_Weird | TAG_Empty.

Section Fpu.

(** The content of a register slot. *)
Context {V : Type}.

Record FPU_rec := {
  fregs : Z -> V;
  tags : Z -> FPU_Tag;
  cw : Z;
  sw : Z;
  top : Z               (* TOP, a uint32_t *)
}.

Definition with_top (f : FPU_rec) (t : Z) : FPU_rec :=
  {| fregs := fregs f; tags := tags f; cw := cw f; sw := sw f; top := t |}.

Definition with_tags (f : FPU_rec) (t : Z -> FPU_Tag) : FPU_rec :=
  {| fregs := fregs f; tags := t; cw := cw f; sw := sw f; top := top f |}.

Definition FPU_FDECSTP (f : FPU_rec) : FPU_rec :=
  with_top f (Z.land (u32 (top f - 1)) 7).

Definition FPU_FINCSTP (f : FPU_rec) : FPU_rec :=
  with_top f (Z.land (u32 (top f + 1)) 7).

Definition FPU_FFREE (st : Z) (f : FPU_rec) : FPU_rec :=
  with_tags f (<[st := TAG_Empty]> (tags f)).

(** FPU_FNSTCW(addr): mem_writew(addr, fpu.cw), as the write it issues. *)
Definition FPU_FNSTCW (addr : Z) (f : FPU_rec) : Z * Z := (addr, cw f).

(** *** The code generator.  The gen_ functions of the host back end emit
    host instructions; here they are the instructions of a small host
    machine, and a generator function is the list it emits. *)

Inductive HostReg := FC_OP1 | FC_OP2 | FC_ADDR | FC_RETOP.

(** The helper functions a generated call can name. *)
Inductive FpuFn :=
| FN_FADD | FN_FMUL | FN_FCOM | FN_FSUB | FN_FSUBR | FN_FDIV | FN_FDIVR
| FN_FADD_EA | FN_FMUL_EA | FN_FCOM_EA | FN_FSUB_EA | FN_FSUBR_EA
| FN_FDIV_EA | FN_FDIVR_EA
| FN_FPOP | FN_PREP_PUSH | FN_FST | FN_FXCH | FN_FNOP | FN_FUCOM
| FN_FCHS | FN_FABS | FN_FTST | FN_FXAM
| FN_FLD1 | FN_FLDL2T | FN_FLDL2E | FN_FLDPI | FN_FLDLG2 | FN_FLDLN2 | FN_FLDZ
| FN_F2XM1 | FN_FYL2X | FN_FPTAN | FN_FPATAN | FN_FXTRACT | FN_FPREM1
| FN_FDECSTP | FN_FINCSTP
| FN_FPREM | FN_FYL2XP1 | FN_FSQRT | FN_FSINCOS | FN_FRNDINT | FN_FSCALE
| FN_FSIN | FN_FCOS
| FN_FCLEX | FN_FINIT | FN_FFREE | FN_SET_TOP
| FN_FLD_F32_EA | FN_FLD_F64_EA | FN_FLD_I32_EA | FN_FLD_I16_EA
| FN_FLD_F32 | FN_FLD_F64 | FN_FLD_F80 | FN_FLD_I16 | FN_FLD_I32 | FN_FLD_I64
| FN_FBLD
| FN_FST_F32 | FN_FST_F64 | FN_FST_F80 | FN_FST_I16 | FN_FST_I32 | FN_FST_I64
| FN_FBST
| FN_FLDENV | FN_FLDCW | FN_FSTENV | FN_FNSTCW | FN_FRSTOR | FN_FSAVE
| FN_mem_writew.

(** The guest register a generated store names. *)
Inductive GuestReg := DRC_REG_EAX.

(** The memory cells a generated load names. *)
Inductive HostVar := VAR_TOP | VAR_fpu_sw.

Inductive Gen :=
| gen_mov_word_to_reg (dest : HostReg) (data : HostVar) (dword : bool)
| gen_add_imm (reg : HostReg) (imm : Z)
| gen_and_imm (reg : HostReg) (imm : Z)
| gen_protect_reg (reg : HostReg)
| gen_restore_reg (reg : HostReg)
| gen_call_function_raw (fn : FpuFn)
| gen_call_function_R (fn : FpuFn) (op : HostReg)
| gen_call_function_RR (fn : FpuFn) (op1 op2 : HostReg)
| dyn_fill_ea (reg : HostReg)
| MOV_REG_WORD16_FROM_HOST_REG (reg : HostReg) (guest : GuestReg).

(** decode.modrm, as dyn_get_modrm() fills it from the ModRM byte. *)
Record ModRM := { val : Z; mod_ : Z; reg : Z; rm : Z }.

Definition dyn_get_modrm (byte : Z) : ModRM :=
  {| val := byte;
     mod_ := Z.land (Z.shiftr byte 6) 3;
     reg := Z.land (Z.shiftr byte 3) 7;
     rm := Z.land byte 7 |}.

Definition dyn_fpu_top (m : ModRM) : list Gen :=
  [ gen_mov_word_to_reg FC_OP2 VAR_TOP true;
    gen_add_imm FC_OP2 (rm m);
    gen_and_imm FC_OP2 7;
    gen_mov_word_to_reg FC_OP1 VAR_TOP true ].

Definition dyn_fpu_top_swapped (m : ModRM) : list Gen :=
  [ gen_mov_word_to_reg FC_OP1 VAR_TOP true;
    gen_add_imm FC_OP1 (rm m);
    gen_and_imm FC_OP1 7;
    gen_mov_word_to_reg FC_OP2 VAR_TOP true ].

Definition dyn_eatree (m : ModRM) : list Gen :=
  match Z.land (reg m) 7 with
  | 0 => [gen_call_function_R FN_FADD_EA FC_OP1]
  | 1 => [gen_call_function_R FN_FMUL_EA FC_OP1]
  | 2 => [gen_call_function_R FN_FCOM_EA FC_OP1]
  | 3 => [gen_call_function_R FN_FCOM_EA FC_OP1; gen_call_function_raw FN_FPOP]
  | 4 => [gen_call_function_R FN_FSUB_EA FC_OP1]
  | 5 => [gen_call_function_R FN_FSUBR_EA FC_OP1]
  | 6 => [gen_call_function_R FN_FDIV_EA FC_OP1]
  | 7 => [gen_call_function_R FN_FDIVR_EA FC_OP1]
  | _ => []
  end.

(** A generator function ends normally with the code it emitted, or the
    program leaves through E_Exit. *)
Inductive Emitted := Code (c : list Gen) | E_Exit.

Definition dyn_fpu_esc0 (m : ModRM) : Emitted :=
  if mod_ m =? 3 then
    Code (dyn_fpu_top m ++
      match reg m with
      | 0 => [gen_call_function_RR FN_FADD FC_OP1 FC_OP2]
      | 1 => [gen_call_function_RR FN_FMUL FC_OP1 FC_OP2]
      | 2 => [gen_call_function_RR FN_FCOM FC_OP1 FC_OP2]
      | 3 => [gen_call_function_RR FN_FCOM FC_OP1 FC_OP2;
              gen_call_function_raw FN_FPOP]
      | 4 => [gen_call_function_RR FN_FSUB FC_OP1 FC_OP2]
      | 5 => [gen_call_function_RR FN_FSUBR FC_OP1 FC_OP2]
      | 6 => [gen_call_function_RR FN_FDIV FC_OP1 FC_OP2]
      | 7 => [gen_call_function_RR FN_FDIVR FC_OP1 FC_OP2]
      | _ => []
      end)
  else
    Code ([ dyn_fill_ea FC_ADDR;
            gen_call_function_R FN_FLD_F32_EA FC_ADDR;
            gen_mov_word_to_reg FC_OP1 VAR_TOP true ] ++ dyn_eatree m).

Definition dyn_fpu_esc1 (m : ModRM) : Emitted :=
  if mod_ m =? 3 then
    Code match reg m with
    | 0 => [ gen_mov_word_to_reg FC_OP1 VAR_TOP true;
             gen_add_imm FC_OP1 (rm m);
             gen_and_imm FC_OP1 7;
             gen_protect_reg FC_OP1;
             gen_call_function_raw FN_PREP_PUSH;
             gen_mov_word_to_reg FC_OP2 VAR_TOP true;
             gen_restore_reg FC_OP1;
             gen_call_function_RR FN_FST FC_OP1 FC_OP2 ]
    | 1 => dyn_fpu_top m ++ [gen_call_function_RR FN_FXCH FC_OP1 FC_OP2]
    | 2 => [gen_call_function_raw FN_FNOP]
    | 3 => dyn_fpu_top m ++ [ gen_call_function_RR FN_FST FC_OP1 FC_OP2;
                              gen_call_function_raw FN_FPOP ]
    | 4 => match rm m with
           | 0 => [gen_call_function_raw FN_FCHS]
           | 1 => [gen_call_function_raw FN_FABS]
           | 4 => [gen_call_function_raw FN_FTST]
           | 5 => [gen_call_function_raw FN_FXAM]
           | _ => []
           end
    | 5 => match rm m with
           | 0 => [gen_call_function_raw FN_FLD1]
           | 1 => [gen_call_function_raw FN_FLDL2T]
           | 2 => [gen_call_function_raw FN_FLDL2E]
           | 3 => [gen_call_function_raw FN_FLDPI]
           | 4 => [gen_call_function_raw FN_FLDLG2]
           | 5 => [gen_call_function_raw FN_FLDLN2]
           | 6 => [gen_call_function_raw FN_FLDZ]
           | _ => []
           end
    | 6 => match rm m with
           | 0 => [gen_call_function_raw FN_F2XM1]
           | 1 => [gen_call_function_raw FN_FYL2X]
           | 2 => [gen_call_function_raw FN_FPTAN]
           | 3 => [gen_call_function_raw FN_FPATAN]
           | 4 => [gen_call_function_raw FN_FXTRACT]
           | 5 => [gen_call_function_raw FN_FPREM1]
           | 6 => [gen_call_function_raw FN_FDECSTP]
           | 7 => [gen_call_function_raw FN_FINCSTP]
           | _ => []
           end
    | 7 => match rm m with
           | 0 => [gen_call_function_raw FN_FPREM]
           | 1 => [gen_call_function_raw FN_FYL2XP1]
           | 2 => [gen_call_function_raw FN_FSQRT]
           | 3 => [gen_call_function_raw FN_FSINCOS]
           | 4 => [gen_call_function_raw FN_FRNDINT]
           | 5 => [gen_call_function_raw FN_FSCALE]
           | 6 => [gen_call_function_raw FN_FSIN]
           | 7 => [gen_call_function_raw FN_FCOS]
           | _ => []
           end
    | _ => []
    end
  else
    Code match reg m with
    | 0 => [ gen_call_function_raw FN_PREP_PUSH;
             dyn_fill_ea FC_OP1;
             gen_mov_word_to_reg FC_OP2 VAR_TOP true;
             gen_call_function_RR FN_FLD_F32 FC_OP1 FC_OP2 ]
    | 2 => [ dyn_fill_ea FC_ADDR; gen_call_function_R FN_FST_F32 FC_ADDR ]
    | 3 => [ dyn_fill_ea FC_ADDR; gen_call_function_R FN_FST_F32 FC_ADDR;
             gen_call_function_raw FN_FPOP ]
    | 4 => [ dyn_fill_ea FC_ADDR; gen_call_function_R FN_FLDENV FC_ADDR ]
    | 5 => [ dyn_fill_ea FC_ADDR; gen_call_function_R FN_FLDCW FC_ADDR ]
    | 6 => [ dyn_fill_ea FC_ADDR; gen_call_function_R FN_FSTENV FC_ADDR ]
    | 7 => [ dyn_fill_ea FC_ADDR; gen_call_function_R FN_FNSTCW FC_ADDR ]
    | _ => []
    end.

Definition dyn_fpu_esc2 (m : ModRM) : Emitted :=
  if mod_ m =? 3 then
    Code match reg m with
    | 5 => match rm m with
           | 1 => [ gen_mov_word_to_reg FC_OP2 VAR_TOP true;
                    gen_add_imm FC_OP2 1;
                    gen_and_imm FC_OP2 7;
                    gen_mov_word_to_reg FC_OP1 VAR_TOP true;
                    gen_call_function_RR FN_FUCOM FC_OP1 FC_OP2;
                    gen_call_function_raw FN_FPOP;
                    gen_call_function_raw FN_FPOP ]
           | _ => []
           end
    | _ => []
    end
  else
    Code ([ dyn_fill_ea FC_ADDR;
            gen_call_function_R FN_FLD_I32_EA FC_ADDR;
            gen_mov_word_to_reg FC_OP1 VAR_TOP true ] ++ dyn_eatree m).

Definition dyn_fpu_esc3 (m : ModRM) : Emitted :=
  if mod_ m =? 3 then
    match reg m with
    | 4 => match rm m with
           | 0 | 1 => Code []
           | 2 => Code [gen_call_function_raw FN_FCLEX]
           | 3 => Code [gen_call_function_raw FN_FINIT]
           | 4 | 5 => Code []
           | _ => E_Exit
           end
    | _ => Code []
    end
  else
    Code match reg m with
    | 0 => [ gen_call_function_raw FN_PREP_PUSH;
             dyn_fill_ea FC_OP1;
             gen_mov_word_to_reg FC_OP2 VAR_TOP true;
             gen_call_function_RR FN_FLD_I32 FC_OP1 FC_OP2 ]
    | 2 => [ dyn_fill_ea FC_ADDR; gen_call_function_R FN_FST_I32 FC_ADDR ]
    | 3 => [ dyn_fill_ea FC_ADDR; gen_call_function_R FN_FST_I32 FC_ADDR;
             gen_call_function_raw FN_FPOP ]
    | 5 => [ gen_call_function_raw FN_PREP_PUSH;
             dyn_fill_ea FC_ADDR;
             gen_call_function_R FN_FLD_F80 FC_ADDR ]
    | 7 => [ dyn_fill_ea FC_ADDR; gen_call_function_R FN_FST_F80 FC_ADDR;
             gen_call_function_raw FN_FPOP ]
    | _ => []
    end.

Definition dyn_fpu_esc4 (m : ModRM) : Emitted :=
  if mod_ m =? 3 then
    Code match reg m with
    | 0 => dyn_fpu_top_swapped m ++ [gen_call_function_RR FN_FADD FC_OP1 FC_OP2]
    | 1 => dyn_fpu_top_swapped m ++ [gen_call_function_RR FN_FMUL FC_OP1 FC_OP2]
    | 2 => dyn_fpu_top m ++ [gen_call_function_RR FN_FCOM FC_OP1 FC_OP2]
    | 3 => dyn_fpu_top m ++ [ gen_call_function_RR FN_FCOM FC_OP1 FC_OP2;
                              gen_call_function_raw FN_FPOP ]
    | 4 => dyn_fpu_top_swapped m ++ [gen_call_function_RR FN_FSUBR FC_OP1 FC_OP2]
    | 5 => dyn_fpu_top_swapped m ++ [gen_call_function_RR FN_FSUB FC_OP1 FC_OP2]
    | 6 => dyn_fpu_top_swapped m ++ [gen_call_function_RR FN_FDIVR FC_OP1 FC_OP2]
    | 7 => dyn_fpu_top_swapped m ++ [gen_call_function_RR FN_FDIV FC_OP1 FC_OP2]
    | _ => []
    end
  else
    Code ([ dyn_fill_ea FC_ADDR;
            gen_call_function_R FN_FLD_F64_EA FC_ADDR;
            gen_mov_word_to_reg FC_OP1 VAR_TOP true ] ++ dyn_eatree m).

Definition dyn_fpu_esc5 (m : ModRM) : Emitted :=
  if mod_ m =? 3 then
    Code (dyn_fpu_top m ++
      match reg m with
      | 0 => [gen_call_function_R FN_FFREE FC_OP2]
      | 1 => [gen_call_function_RR FN_FXCH FC_OP1 FC_OP2]
      | 2 => [gen_call_function_RR FN_FST FC_OP1 FC_OP2]
      | 3 => [ gen_call_function_RR FN_FST FC_OP1 FC_OP2;
               gen_call_function_raw FN_FPOP ]
      | 4 => [gen_call_function_RR FN_FUCOM FC_OP1 FC_OP2]
      | 5 => [ gen_call_function_RR FN_FUCOM FC_OP1 FC_OP2;
               gen_call_function_raw FN_FPOP ]
      | _ => []
      end)
  else
    Code match reg m with
    | 0 => [ gen_call_function_raw FN_PREP_PUSH;
             dyn_fill_ea FC_OP1;
             gen_mov_word_to_reg FC_OP2 VAR_TOP true;
             gen_call_function_RR FN_FLD_F64 FC_OP1 FC_OP2 ]
    | 2 => [ dyn_fill_ea FC_ADDR; gen_call_function_R FN_FST_F64 FC_ADDR ]
    | 3 => [ dyn_fill_ea FC_ADDR; gen_call_function_R FN_FST_F64 FC_ADDR;
             gen_call_function_raw FN_FPOP ]
    | 4 => [ dyn_fill_ea FC_ADDR; gen_call_function_R FN_FRSTOR FC_ADDR ]
    | 6 => [ dyn_fill_ea FC_ADDR; gen_call_function_R FN_FSAVE FC_ADDR ]
    | 7 => [ gen_mov_word_to_reg FC_OP1 VAR_TOP true;
             gen_call_function_R FN_SET_TOP FC_OP1;
             dyn_fill_ea FC_OP1;
             gen_mov_word_to_reg FC_OP2 VAR_fpu_sw false;
             gen_call_function_RR FN_mem_writew FC_OP1 FC_OP2 ]
    | _ => []
    end.

Definition dyn_fpu_esc6 (m : ModRM) : Emitted :=
  if mod_ m =? 3 then
    let pop := [gen_call_function_raw FN_FPOP] in
    Code match reg m with
    | 0 => dyn_fpu_top_swapped m ++ [gen_call_function_RR FN_FADD FC_OP1 FC_OP2] ++ pop
    | 1 => dyn_fpu_top_swapped m ++ [gen_call_function_RR FN_FMUL FC_OP1 FC_OP2] ++ pop
    | 2 => dyn_fpu_top m ++ [gen_call_function_RR FN_FCOM FC_OP1 FC_OP2] ++ pop
    | 3 => if negb (rm m =? 1) then []
           else [ gen_mov_word_to_reg FC_OP2 VAR_TOP true;
                  gen_add_imm FC_OP2 1;
                  gen_and_imm FC_OP2 7;
                  gen_mov_word_to_reg FC_OP1 VAR_TOP true;
                  gen_call_function_RR FN_FCOM FC_OP1 FC_OP2;
                  gen_call_function_raw FN_FPOP ] ++ pop
    | 4 => dyn_fpu_top_swapped m ++ [gen_call_function_RR FN_FSUBR FC_OP1 FC_OP2] ++ pop
    | 5 => dyn_fpu_top_swapped m ++ [gen_call_function_RR FN_FSUB FC_OP1 FC_OP2] ++ pop
    | 6 => dyn_fpu_top_swapped m ++ [gen_call_function_RR FN_FDIVR FC_OP1 FC_OP2] ++ pop
    | 7 => dyn_fpu_top_swapped m ++ [gen_call_function_RR FN_FDIV FC_OP1 FC_OP2] ++ pop
    | _ => pop
    end
  else
    Code ([ dyn_fill_ea FC_ADDR;
            gen_call_function_R FN_FLD_I16_EA FC_ADDR;
            gen_mov_word_to_reg FC_OP1 VAR_TOP true ] ++ dyn_eatree m).

Definition dyn_fpu_esc7 (m : ModRM) : Emitted :=
  if mod_ m =? 3 then
    Code match reg m with
    | 0 => dyn_fpu_top m ++ [ gen_call_function_R FN_FFREE FC_OP2;
                              gen_call_function_raw FN_FPOP ]
    | 1 => dyn_fpu_top m ++ [gen_call_function_RR FN_FXCH FC_OP1 FC_OP2]
    | 2 | 3 => dyn_fpu_top m ++ [ gen_call_function_RR FN_FST FC_OP1 FC_OP2;
                                  gen_call_function_raw FN_FPOP ]
    | 4 => match rm m with
           | 0 => [ gen_mov_word_to_reg FC_OP1 VAR_TOP true;
                    gen_call_function_R FN_SET_TOP FC_OP1;
                    gen_mov_word_to_reg FC_OP1 VAR_fpu_sw false;
                    MOV_REG_WORD16_FROM_HOST_REG FC_OP1 DRC_REG_EAX ]
           | _ => []
           end
    | _ => []
    end
  else
    Code match reg m with
    | 0 => [ gen_call_function_raw FN_PREP_PUSH;
             dyn_fill_ea FC_OP1;
             gen_mov_word_to_reg FC_OP2 VAR_TOP true;
             gen_call_function_RR FN_FLD_I16 FC_OP1 FC_OP2 ]
    | 2 => [ dyn_fill_ea FC_ADDR; gen_call_function_R FN_FST_I16 FC_ADDR ]
    | 3 => [ dyn_fill_ea FC_ADDR; gen_call_function_R FN_FST_I16 FC_ADDR;
             gen_call_function_raw FN_FPOP ]
    | 4 => [ gen_call_function_raw FN_PREP_PUSH;
             dyn_fill_ea FC_OP1;
             gen_mov_word_to_reg FC_OP2 VAR_TOP true;
             gen_call_function_RR FN_FBLD FC_OP1 FC_OP2 ]
    | 5 => [ gen_call_function_raw FN_PREP_PUSH;
             dyn_fill_ea FC_OP1;
             gen_mov_word_to_reg FC_OP2 VAR_TOP true;
             gen_call_function_RR FN_FLD_I64 FC_OP1 FC_OP2 ]
    | 6 => [ dyn_fill_ea FC_ADDR; gen_call_function_R FN_FBST FC_ADDR;
             gen_call_function_raw FN_FPOP ]
    | 7 => [ dyn_fill_ea FC_ADDR; gen_call_function_R FN_FST_I64 FC_ADDR;
             gen_call_function_raw FN_FPOP ]
    | _ => []
    end.

Definition dyn_fpu_esc (n : Z) (m : ModRM) : Emitted :=
  match n with
  | 0 => dyn_fpu_esc0 m
  | 1 => dyn_fpu_esc1 m
  | 2 => dyn_fpu_esc2 m
  | 3 => dyn_fpu_esc3 m
  | 4 => dyn_fpu_esc4 m
  | 5 => dyn_fpu_esc5 m
  | 6 => dyn_fpu_esc6 m
  | _ => dyn_fpu_esc7 m
  end.

Global Instance FpuFn_eq_dec : EqDecision FpuFn.
Proof. solve_decision. Defined.

(** *** Running generated code.  The host machine has the four registers
    the generator uses, a stack for protected registers, the FPU record the
    helpers work on and the guest's AX; it records the helper calls with
    the values of their register arguments. *)

Global Instance HostReg_eq_dec : EqDecision HostReg.
Proof. solve_decision. Defined.

Record Host := {
  hreg : HostReg -> Z;
  saved : list Z;
  fpu : FPU_rec;
  ea : Z;                        (* the address dyn_fill_ea computes *)
  guest_ax : Z;
  calls : list (FpuFn * list Z)  (* the latest call first *)
}.

(** The helpers defined in other files, and what a call leaves in the host
    registers (they are not preserved across a call). *)
Variable call_fpu : FpuFn -> list Z -> FPU_rec -> FPU_rec.
Variable clobber : FpuFn -> list Z -> (HostReg -> Z) -> HostReg -> Z.

Definition call_effect (fn : FpuFn) (args : list Z) (f : FPU_rec) : FPU_rec :=
  match fn, args with
  | FN_FDECSTP, [] => FPU_FDECSTP f
  | FN_FINCSTP, [] => FPU_FINCSTP f
  | FN_FFREE, [st] => FPU_FFREE st f
  | _, _ => call_fpu fn args f
  end.

Definition do_call (fn : FpuFn) (args : list Z) (h : Host) : Host :=
  {| hreg := clobber fn args (hreg h);
     saved := saved h;
     fpu := call_effect fn args (fpu h);
     ea := ea h;
     guest_ax := guest_ax h;
     calls := (fn, args) :: calls h |}.

Definition set_hreg (h : Host) (r : HostReg) (v : Z) : Host :=
  {| hreg := <[r := v]> (hreg h); saved := saved h; fpu := fpu h;
     ea := ea h; guest_ax := guest_ax h; calls := calls h |}.

Definition load_var (data : HostVar) (dword : bool) (h : Host) : Z :=
  let v := match data with VAR_TOP => top (fpu h) | VAR_fpu_sw => sw (fpu h) end in
  if dword then u32 v else u16 v.

Definition exec_gen (g : Gen) (h : Host) : Host :=
  match g with
  | gen_mov_word_to_reg dest data dword => set_hreg h dest (load_var data dword h)
  | gen_add_imm r imm => set_hreg h r (u32 (hreg h r + imm))
  | gen_and_imm r imm => set_hreg h r (Z.land (hreg h r) imm)
  | gen_protect_reg r =>
      {| hreg := hreg h; saved := hreg h r :: saved h; fpu := fpu h;
         ea := ea h; guest_ax := guest_ax h; calls := calls h |}
  | gen_restore_reg r =>
      match saved h with
      | v :: rest =>
          {| hreg := <[r := v]> (hreg h); saved := rest; fpu := fpu h;
             ea := ea h; guest_ax := guest_ax h; calls := calls h |}
      | [] => h
      end
  | gen_call_function_raw fn => do_call fn [] h
  | gen_call_function_R fn op => do_call fn [hreg h op] h
  | gen_call_function_RR fn op1 op2 => do_call fn [hreg h op1; hreg h op2] h
  | dyn_fill_ea r => set_hreg h r (ea h)
  | MOV_REG_WORD16_FROM_HOST_REG r DRC_REG_EAX =>
      {| hreg := hreg h; saved := saved h; fpu := fpu h; ea := ea h;
         guest_ax := u16 (hreg h r); calls := calls h |}
  end.

Definition exec (code : list Gen) (h : Host) : Host :=
  fold_left (fun h g => exec_gen g h) code h.

(** The first helper call of a run that takes register arguments. *)
Definition first_register_call (h : Host) : option (FpuFn * list Z) :=
  head (List.filter (fun c => negb (Nat.eqb (length (snd c)) 0))
                    (rev (calls h))).

(** The register-direct opcodes that name a stack register ST(i) with their
    rm field: escape group, reg field, rm field. *)
Definition names_sti (n rg r : Z) : bool :=
  match n with
  | 0 | 4 => true
  | 1 => (rg =? 0) || (rg =? 1) || (rg =? 3)
  | 2 => (rg =? 5) && (r =? 1)
  | 5 => rg <=? 5
  | 6 => negb (rg =? 3) || (r =? 1)
  | 7 => rg <=? 3
  | _ => false
  end.

(** *** Vocabulary of the statements about the stack and the generator *)

(** A run of stack-pointer moves. *)
Inductive StackMove := Dec | Inc.

Definition move (f : FPU_rec) (mv : StackMove) : FPU_rec :=
  match mv with Dec => FPU_FDECSTP f | Inc => FPU_FINCSTP f end.

Definition moves (f : FPU_rec) (l : list StackMove) : FPU_rec :=
  fold_left move l f.

Definition net_moves (l : list StackMove) : Z :=
  fold_left (fun z mv => match mv with Dec => z - 1 | Inc => z + 1 end) l 0.

(** Counting in emitted code: effective-address computations, calls of one
    helper, and uses of the protected-register stack. *)
Definition is_fill_ea (g : Gen) : bool :=
  match g with dyn_fill_ea _ => true | _ => false end.

Definition FpuFn_eqb (f1 f2 : FpuFn) : bool :=
  if decide (f1 = f2) then true else false.

Definition calls_fn (fn : FpuFn) (g : Gen) : bool :=
  match g with
  | gen_call_function_raw f | gen_call_function_R f _
  | gen_call_function_RR f _ _ => FpuFn_eqb f fn
  | _ => false
  end.

Definition uses_protect (g : Gen) : bool :=
  match g with gen_protect_reg _ | gen_restore_reg _ => true | _ => false end.

Definition count (f : Gen -> bool) (code : list Gen) : nat :=
  length (List.filter f code).

Definition emitted_code (e : Emitted) : list Gen :=
  match e with Code c => c | E_Exit => [] end.

End Fpu.

Arguments FPU_rec : clear implicits.
Arguments Host : clear implicits.

End DynFpu.

(* ====================================================================== *)
(** ** Concrete machines, used to run the definitions *)
(* ====================================================================== *)

Module Samples.

Import Paging.

(** Little-endian host accessors over a byte-addressed host memory. *)
Fixpoint le_read (n : nat) (h : Z -> Z) (pt : Z) : Z :=
  match n with
  | O => 0
  | S n => h pt + 256 * le_read n h (pt + 1)
  end.

Fixpoint le_write (n : nat) (h : Z -> Z) (pt v : Z) : Z -> Z :=
  match n with
  | O => h
  | S n => le_write n (<[pt := v mod 256]> h) (pt + 1) (v / 256)
  end.

(** A handler for pages that are not mapped: reads give 0xFF, writes are
    dropped, the checked variants report a fault and leave the output. *)
Definition unmapped_handler : PageHandler unit :=
  {| readb := fun _ m => Done 0xFF m;
     readw := fun _ m => Done 0xFFFF m;
     readd := fun _ m => Done 0xFFFFFFFF m;
     readq := fun _ m => Done 0xFFFFFFFFFFFFFFFF m;
     writeb := fun _ _ m => Done tt m;
     writew := fun _ _ m => Done tt m;
     writed := fun _ _ m => Done tt m;
     writeq := fun _ _ m => Done tt m;
     GetHostReadPt := fun _ => 0;
     GetHostWritePt := fun _ => 0;
     readb_checked := fun _ old m => (true, old, m);
     readw_checked := fun _ old m => (true, old, m);
     readd_checked := fun _ old m => (true, old, m);
     readq_checked := fun _ old m => (true, old, m);
     writeb_checked := fun _ _ m => (true, m);
     writew_checked := fun _ _ m => (true, m);
     writed_checked := fun _ _ m => (true, m);
     writeq_checked := fun _ _ m => (true, m);
     flags := 0 |}.

Definition sample_env : Env unit :=
  {| host_readb := le_read 1;
     host_readw := le_read 2;
     host_readd := le_read 4;
     host_readq := le_read 8;
     host_writeb := le_write 1;
     host_writew := le_write 2;
     host_writed := le_write 4;
     host_writeq := le_write 8;
     DEBUG_UpdateMemoryReadBreakpoints := fun _ _ x => x;
     handler := fun _ => unmapped_handler;
     mem_unalignedreadw := fun _ m => Done 0xFFFF m;
     mem_unalignedreadd := fun _ m => Done 0xFFFFFFFF m;
     mem_unalignedreadq := fun _ m => Done 0xFFFFFFFFFFFFFFFF m;
     mem_unalignedwritew := fun _ _ m => Done tt m;
     mem_unalignedwrited := fun _ _ m => Done tt m;
     mem_unalignedwriteq := fun _ _ m => Done tt m;
     mem_unalignedreadw_checked := fun _ old m => (true, old, m);
     mem_unalignedreadd_checked := fun _ old m => (true, old, m);
     mem_unalignedreadq_checked := fun _ old m => (true, old, m);
     mem_unalignedwritew_checked := fun _ _ m => (true, m);
     mem_unalignedwrited_checked := fun _ _ m => (true, m);
     mem_unalignedwriteq_checked := fun _ _ m => (true, m) |}.



(** Linear page 0 is mapped to host memory at 0x10000, the rest is not. *)
Definition sample_tlb : @TLB :=
  {| read := fun pg => if pg =? 0 then 0x10000 else 0;
     write := fun pg => if pg =? 0 then 0x10000 else 0;
     readhandler := fun _ => 0;
     writehandler := fun _ => 0;
     phys_page := fun pg => pg |}.

Definition sample_machine : Machine unit :=
  {| paging := {| cr3 := 0; cr2 := 0; base_page := 0; base_addr := 0;
                  tlb := sample_tlb; links_used := 0;
                  links_entries := fun _ => 0; firstmb := fun _ => 0;
                  enabled := false |};
     hostmem := fun pt => pt mod 256;
     ext := tt |}.

Import Prefix0F.

Definition sample_core : Core (Z -> Z) unit :=
  {| LoadMb := fun a m => m a;
     LoadMw := fun a m => le_read 2 m a;
     LoadMd := fun a m => le_read 4 m a;
     SaveMb := fun a v m => le_write 1 m a v;
     SaveMw := fun a v m => le_write 2 m a v;
     SaveMd := fun a v m => le_write 4 m a v;
     EALookup := fun _ s => (0x2000, cseip s);
     FillFlags_of := fun l f => (l, f);
     set_type_UNKNOWN := fun l => l;
     Intel486OldSlow := 0x40;
     Pentium := 0x50;
     TEST_PREFIX_ADDR := fun _ => false;
     FixEA16 := fun eaa _ => Z.land eaa 0xFFFF |}.

(** Code at 0x100: 0F 20 C0 (MOV EAX,CR0); data at 0x2000: the word 0x0028. *)
Definition sample_mem : Z -> Z :=
  fun a => if a =? 0x100 then 0x0F else if a =? 0x101 then 0x20
           else if a =? 0x102 then 0xC0 else if a =? 0x2000 then 0x28 else 0.

Definition sample_cpu (level : Z) : Cpu (Z -> Z) unit :=
  {| regs := fun i => 0x1000 + i;
     reg_flags := 0x2;
     lflags := tt;
     cr := fun i => if i =? 0 then 0x60000011 else 0;
     cpl := level;
     pmode := true;
     CPU_ArchitectureType := 0x50;
     cseip := 0x100;
     mem := sample_mem |}.

(** A processor about to fetch the ModRM byte [byte] and then the immediate
    [ib]; every other byte of memory is 0x28. *)
Definition sample_cpu_modrm (byte ib : Z) : Cpu (Z -> Z) unit :=
  {| regs := fun i => 0xF0A5 + 0x1111 * i;
     reg_flags := 0x2;
     lflags := tt;
     cr := fun i => if i =? 0 then 0x6000001B else 0;
     cpl := 0;
     pmode := true;
     CPU_ArchitectureType := 0x50;
     cseip := 0x100;
     mem := fun a => if a =? 0x100 then byte else if a =? 0x101 then ib
                     else 0x28 |}.

Import DynFpu.

Definition sample_fpu : FPU_rec unit :=
  {| fregs := fun _ => tt; tags := fun _ => TAG_Empty; cw := 0x37F; sw := 0;
     top := 6 |}.

Definition sample_host : Host unit :=
  {| hreg := fun _ => 0; saved := []; fpu := sample_fpu; ea := 0x2000;
     guest_ax := 0; calls := [] |}.

(** Helpers of other files, for running generated code: the pop and the
    push move TOP, the rest leave it; a call zeroes the host registers. *)
Definition sample_call (fn : FpuFn) (args : list Z) (f : FPU_rec unit)
    : FPU_rec unit :=
  match fn with
  | FN_FPOP => FPU_FINCSTP f
  | FN_PREP_PUSH => FPU_FDECSTP f
  | _ => f
  end.

Definition sample_clobber (fn : FpuFn) (args : list Z) (r : HostReg -> Z)
    : HostReg -> Z := fun _ => 0.

End Samples.
Lemma u32_range x : 0 <= u32 x < 2 ^ 32.
Proof. unfold u32. apply Z.mod_pos_bound. lia. Qed.

Lemma u16_range x : 0 <= u16 x < 2 ^ 16.
Proof. unfold u16. apply Z.mod_pos_bound. lia. Qed.

Lemma u8_range x : 0 <= u8 x < 2 ^ 8.
Proof. unfold u8. apply Z.mod_pos_bound. lia. Qed.

Lemma u32_small x : 0 <= x < 2 ^ 32 -> u32 x = x.
Proof. intros. unfold u32. now apply Z.mod_small. Qed.

Lemma u16_small x : 0 <= x < 2 ^ 16 -> u16 x = x.
Proof. intros. unfold u16. now apply Z.mod_small. Qed.

Lemma u8_small x : 0 <= x < 2 ^ 8 -> u8 x = x.
Proof. intros. unfold u8. now apply Z.mod_small. Qed.

Lemma testbit_high (w v n : Z) :
  0 <= w -> 0 <= v < 2 ^ w -> w <= n -> Z.testbit v n = false.
Proof.
  intros Hw Hv Hn.
  rewrite <- (Z.mod_small v (2 ^ w)) by lia.
  rewrite Z.testbit_mod_pow2 by lia.
  destruct (Z.ltb_spec n w); [lia | reflexivity].
Qed.

(** Decide the comparisons of a goal from the arithmetic context. *)
Ltac decide_cmp :=
  repeat match goal with
  | |- context [?a <? ?b] =>
      first [ rewrite (proj2 (Z.ltb_lt a b)) by lia
            | rewrite (proj2 (Z.ltb_ge a b)) by lia ]
  | |- context [?a <=? ?b] =>
      first [ rewrite (proj2 (Z.leb_le a b)) by lia
            | rewrite (proj2 (Z.leb_gt a b)) by lia ]
  | |- context [?a =? ?b] =>
      first [ rewrite (proj2 (Z.eqb_eq a b)) by lia
            | rewrite (proj2 (Z.eqb_neq a b)) by lia ]
  end.


(* ====================================================================== *)
(** * Properties *)
(* ====================================================================== *)

(** ** Page-table entries *)

Section PageEntry.

Import Paging.

Lemma testbit_land_1 v n :
  0 <= n -> Z.testbit (Z.land v 1) n = (n =? 0) && Z.testbit v n.
Proof.
  intros Hn. rewrite Z.land_spec.
  destruct (Z.eqb_spec n 0) as [-> | Hne].
  - simpl. now rewrite andb_true_r.
  - change 1 with (Z.ones 1). rewrite Z.testbit_ones_nonneg by lia.
    destruct (Z.ltb_spec n 1); [lia |]. now rewrite andb_false_r.
Qed.

(** Bit [n] of the field of [w] bits at position [k], put back in place. *)
Lemma testbit_field v k w mask n :
  mask = Z.ones w -> 0 <= k -> 0 <= w -> 0 <= n ->
  Z.testbit (u32 (Z.shiftl (Z.land (Z.shiftr v k) mask) k)) n
  = (n <? 32) && ((k <=? n) && (n <? k + w) && Z.testbit v n).
Proof.
  intros -> Hk Hw Hn. unfold u32.
  rewrite Z.testbit_mod_pow2 by lia. f_equal.
  rewrite Z.shiftl_spec by lia.
  destruct (Z.leb_spec k n) as [Hkn | Hkn]; simpl.
  - rewrite Z.land_spec, Z.shiftr_spec, Z.testbit_ones_nonneg by lia.
    replace (n - k + k) with n by lia.
    replace (n - k <? w) with (n <? k + w); [apply andb_comm |].
    destruct (Z.ltb_spec n (k + w)), (Z.ltb_spec (n - k) w); auto; lia.
  - apply Z.testbit_neg_r. lia.
Qed.

Lemma get_set_bits v n :
  0 <= v < 2 ^ 32 -> 0 <= n -> Z.testbit (get (set v)) n = Z.testbit v n.
Proof.
  intros Hv Hn. unfold get, set. cbn [p wr us pwt pcd a d pat g avl base].
  rewrite !Z.lor_spec, testbit_land_1 by lia.
  rewrite (testbit_field v 1 1 0x1), (testbit_field v 2 1 0x1),
    (testbit_field v 3 1 0x1), (testbit_field v 4 1 0x1),
    (testbit_field v 5 1 0x1), (testbit_field v 6 1 0x1),
    (testbit_field v 7 1 0x1), (testbit_field v 8 1 0x1),
    (testbit_field v 9 3 0x7), (testbit_field v 12 20 0xFFFFF)
    by (reflexivity || lia).
  rewrite Z.bits_0. simpl orb.
  destruct (Z.testbit v n) eqn:Hb.
  - assert (n < 32).
    { destruct (Z.lt_ge_cases n 32); [assumption |].
      rewrite (testbit_high 32 v n) in Hb by lia. discriminate. }
    rewrite !andb_true_r.
    assert (Hcase : n = 0 \/ n = 1 \/ n = 2 \/ n = 3 \/ n = 4 \/ n = 5 \/
                    n = 6 \/ n = 7 \/ n = 8 \/ 9 <= n < 12 \/ 12 <= n) by lia.
    repeat (destruct Hcase as [Hcase | Hcase]); try subst n;
      try reflexivity; decide_cmp; reflexivity.
  - rewrite !andb_false_r. reflexivity.
Qed.

End PageEntry.

(** C10. For every 32-bit value [v], [set v] followed by [get] returns
    exactly [v]: the bit fields p, wr, us, pwt, pcd, a, d, pat, g, avl and
    base cover all 32 bits without loss. *)
Theorem X86PageEntry_get_set (v : Z) :
  0 <= v < 2 ^ 32 -> Paging.get (Paging.set v) = v.
Proof.
  intros Hv. apply Z.bits_inj'. intros n Hn. now apply get_set_bits.
Qed.

Lemma X86PageEntry_get_set_witness :
  0 <= 0x00ABC067 < 2 ^ 32 /\ Paging.get (Paging.set 0x00ABC067) = 0x00ABC067.
Proof. split; [lia | apply (X86PageEntry_get_set 0x00ABC067); lia]. Defined.

(** ** Memory access through the translation cache *)

Section MemoryAccess.

Import Paging.

Context {X : Type} (E : Env X).

Lemma nonnull_true pt : nonnull pt = true <-> pt <> 0.
Proof. unfold nonnull. destruct (Z.eqb_spec pt 0); simpl; split; congruence. Qed.

Lemma nonnull_false pt : nonnull pt = false <-> pt = 0.
Proof. unfold nonnull. destruct (Z.eqb_spec pt 0); simpl; split; congruence. Qed.

(** The debugger hook does not touch the translation cache or host memory. *)
Lemma update_breakpoints_paging op_mode size address (m : Machine X) :
  paging (update_breakpoints E op_mode size address m) = paging m /\
  hostmem (update_breakpoints E op_mode size address m) = hostmem m.
Proof. destruct op_mode; split; reflexivity. Qed.

Lemma land_fff address : Z.land address 0xfff = address mod 4096.
Proof. change 0xfff with (Z.ones 12). now rewrite Z.land_ones by lia. Qed.

Lemma page_of_div address : page_of address = address / 4096.
Proof. unfold page_of. now rewrite Z.shiftr_div_pow2 by lia. Qed.

(** Byte [i] of an access stays in the page of its first byte exactly when
    the page offset plus [i] does not reach the page size. *)
Lemma same_page_offset address i :
  0 <= address < 2 ^ 32 -> 0 <= i < 4096 ->
  (page_of (u32 (address + i)) =? page_of address)
  = (address mod 4096 + i <? 4096).
Proof.
  intros Ha Hi. rewrite !page_of_div. unfold u32.
  destruct (Z.ltb_spec (address mod 4096 + i) 4096) as [Hlt | Hge].
  - apply Z.eqb_eq. Z.div_mod_to_equations. lia.
  - apply Z.eqb_neq. Z.div_mod_to_equations. lia.
Qed.

Lemma within_page_2 address :
  0 <= address < 2 ^ 32 ->
  within_page address 2 = (Z.land address 0xfff <? 0xfff).
Proof.
  intros Ha. unfold within_page. cbn [seq forallb Z.of_nat Pos.of_succ_nat Pos.succ].
  rewrite !same_page_offset by lia. rewrite land_fff.
  pose proof (Z.mod_pos_bound address 4096 ltac:(lia)).
  apply Bool.eq_iff_eq_true.
  rewrite !andb_true_iff, !Z.ltb_lt. lia.
Qed.

Lemma within_page_4 address :
  0 <= address < 2 ^ 32 ->
  within_page address 4 = (Z.land address 0xfff <? 0xffd).
Proof.
  intros Ha. unfold within_page. cbn [seq forallb Z.of_nat Pos.of_succ_nat Pos.succ].
  rewrite !same_page_offset by lia. rewrite land_fff.
  pose proof (Z.mod_pos_bound address 4096 ltac:(lia)).
  apply Bool.eq_iff_eq_true.
  rewrite !andb_true_iff, !Z.ltb_lt. lia.
Qed.

Lemma within_page_8 address :
  0 <= address < 2 ^ 32 ->
  within_page address 8 = (Z.land address 0xfff <? 0xff9).
Proof.
  intros Ha. unfold within_page. cbn [seq forallb Z.of_nat Pos.of_succ_nat Pos.succ].
  rewrite !same_page_offset by lia. rewrite land_fff.
  pose proof (Z.mod_pos_bound address 4096 ltac:(lia)).
  apply Bool.eq_iff_eq_true.
  rewrite !andb_true_iff, !Z.ltb_lt. lia.
Qed.

End MemoryAccess.

(** C2. For every address, [mem_readb_inline] returns the byte behind the
    cached host read pointer when that pointer is not null, and otherwise
    what the page's read handler returns; [mem_writeb_inline] stores through
    the cached host write pointer when it is not null and calls the write
    handler otherwise.  The machine of the result is given by what can be
    observed of it: on the read fast path the translation cache and the
    host memory are those of the start and only the debugger hook (in
    WithBreakpoints mode) has acted; on the write fast path the host memory
    is the one [host_writeb] produced from the pointer plus the address and
    nothing else differs; the handlers are called on the machine of the
    start (after the hook, for a read). *)
Theorem mem_byte_access_dispatch {X : Type} (E : Paging.Env X)
    (op_mode : Paging.MemOpMode) (address val : Z) (m : Paging.Machine X) :
  let rd := Paging.get_tlb_read m address in
  let wt := Paging.get_tlb_write m address in
  let hooked :=
    match op_mode with
    | Paging.WithBreakpoints =>
        Paging.DEBUG_UpdateMemoryReadBreakpoints E 1 address (Paging.ext m)
    | Paging.SkipBreakpoints => Paging.ext m
    end in
  (exists m',
     Paging.paging m' = Paging.paging m /\
     Paging.hostmem m' = Paging.hostmem m /\
     Paging.ext m' = hooked /\
     ((rd <> 0 /\
       Paging.mem_readb_inline E op_mode address m
       = Paging.Done (Paging.host_readb E (Paging.hostmem m) (rd + address)) m')
      \/
      (rd = 0 /\
       Paging.mem_readb_inline E op_mode address m
       = Paging.readb (Paging.handler E (Paging.get_tlb_readhandler m address))
           address m')))
  /\
  ((wt <> 0 /\
     exists m',
       Paging.mem_writeb_inline E address val m = Paging.Done tt m' /\
       Paging.hostmem m'
       = Paging.host_writeb E (Paging.hostmem m) (wt + address) val /\
       Paging.paging m' = Paging.paging m /\
       Paging.ext m' = Paging.ext m)
   \/
   (wt = 0 /\
     Paging.mem_writeb_inline E address val m
     = Paging.writeb (Paging.handler E (Paging.get_tlb_writehandler m address))
         address val m)).
Proof.
  intros rd wt hooked. split.
  - exists (Paging.update_breakpoints E op_mode 1 address m).
    split; [now destruct op_mode |]. split; [now destruct op_mode |].
    split; [now destruct op_mode |].
    unfold Paging.mem_readb_inline.
    set (m' := Paging.update_breakpoints E op_mode 1 address m).
    replace (Paging.get_tlb_read m' address) with rd
      by (subst m' rd; now destruct op_mode).
    replace (Paging.get_tlb_readhandler m' address)
      with (Paging.get_tlb_readhandler m address)
      by (subst m'; now destruct op_mode).
    replace (Paging.hostmem m') with (Paging.hostmem m)
      by (subst m'; now destruct op_mode).
    destruct (Paging.nonnull rd) eqn:Hn.
    + left. split; [now apply nonnull_true | reflexivity].
    + right. split; [now apply nonnull_false | reflexivity].
  - unfold Paging.mem_writeb_inline. fold wt.
    destruct (Paging.nonnull wt) eqn:Hn.
    + left. split; [now apply nonnull_true |].
      eexists. split; [reflexivity |]. repeat split.
    + right. split; [now apply nonnull_false | reflexivity].
Qed.

(** C3. A word, dword or quadword read or write whose bytes all lie within
    one 4096-byte page is serviced by the single-page dispatch (cached
    pointer or handler); one that straddles a page boundary never is: it
    goes to the unaligned fallback of its width. *)
Theorem mem_wide_access_routing {X : Type} (E : Paging.Env X)
    (op_mode : Paging.MemOpMode) (address val : Z) (m : Paging.Machine X) :
  0 <= address < 2 ^ 32 ->
  let upd := fun size => Paging.update_breakpoints E op_mode size address m in
  Paging.mem_readw_inline E op_mode address m
    = (if Paging.within_page address 2
       then Paging.single_page_read E (Paging.host_readw E) Paging.readw address (upd 2)
       else Paging.mem_unalignedreadw E address (upd 2)) /\
  Paging.mem_readd_inline E op_mode address m
    = (if Paging.within_page address 4
       then Paging.single_page_read E (Paging.host_readd E) Paging.readd address (upd 4)
       else Paging.mem_unalignedreadd E address (upd 4)) /\
  Paging.mem_readq_inline E op_mode address m
    = (if Paging.within_page address 8
       then Paging.single_page_read E (Paging.host_readq E) Paging.readq address (upd 8)
       else Paging.mem_unalignedreadq E address (upd 8)) /\
  Paging.mem_writew_inline E address val m
    = (if Paging.within_page address 2
       then Paging.single_page_write E (Paging.host_writew E) Paging.writew address val m
       else Paging.mem_unalignedwritew E address val m) /\
  Paging.mem_writed_inline E address val m
    = (if Paging.within_page address 4
       then Paging.single_page_write E (Paging.host_writed E) Paging.writed address val m
       else Paging.mem_unalignedwrited E address val m) /\
  Paging.mem_writeq_inline E address val m
    = (if Paging.within_page address 8
       then Paging.single_page_write E (Paging.host_writeq E) Paging.writeq address val m
       else Paging.mem_unalignedwriteq E address val m).
Proof.
  intros Ha upd.
  rewrite within_page_2, within_page_4, within_page_8 by assumption.
  repeat split; reflexivity.
Qed.

Lemma mem_wide_access_routing_witness :
  0 <= 0xFFF < 2 ^ 32 /\
  Paging.mem_readw_inline Samples.sample_env Paging.WithBreakpoints 0xFFF
    Samples.sample_machine
  = Paging.mem_unalignedreadw Samples.sample_env 0xFFF Samples.sample_machine.
Proof.
  split; [lia |].
  exact (proj1 (mem_wide_access_routing Samples.sample_env
                  Paging.WithBreakpoints 0xFFF 0 Samples.sample_machine
                  ltac:(lia))).
Defined.

Section CheckedAccess.

Import Paging.

Context {X : Type} (E : Env X).












End CheckedAccess.




(** ** Self-modifying code *)

Section SelfModifyingCode.

Import CodeCache.

Variable block_length : (Z -> Z) -> Z -> nat.

Lemma hascode_after_flag (f : Z) (big : bool) :
  negb (Z.land (Z.lor f (if big then Paging.PFLAG_HASCODE32
                         else Paging.PFLAG_HASCODE16))
               Paging.PFLAG_HASCODE =? 0) = true.
Proof.
  apply negb_true_iff, Z.eqb_neq. intros H0.
  destruct big.
  - assert (Hb : Z.testbit (Z.land (Z.lor f Paging.PFLAG_HASCODE32)
                              Paging.PFLAG_HASCODE) 3 = true).
    { rewrite Z.land_spec, Z.lor_spec. simpl. now rewrite orb_true_r. }
    rewrite H0 in Hb. discriminate.
  - assert (Hb : Z.testbit (Z.land (Z.lor f Paging.PFLAG_HASCODE16)
                              Paging.PFLAG_HASCODE) 6 = true).
    { rewrite Z.land_spec, Z.lor_spec. simpl. now rewrite orb_true_r. }
    rewrite H0 in Hb. discriminate.
Qed.

(** Flagging is monotone: an or keeps the has_code bits that were set. *)
Lemma hascode_lor f flag :
  negb (Z.land f Paging.PFLAG_HASCODE =? 0) = true ->
  negb (Z.land (Z.lor f flag) Paging.PFLAG_HASCODE =? 0) = true.
Proof.
  rewrite !negb_true_iff, !Z.eqb_neq. intros Hne H0. apply Hne.
  apply Z.bits_inj'. intros n Hn.
  assert (Hb := f_equal (fun z => Z.testbit z n) H0). simpl in Hb.
  rewrite Z.land_spec, Z.lor_spec, Z.bits_0 in Hb.
  rewrite Z.land_spec, Z.bits_0.
  destruct (Z.testbit f n), (Z.testbit Paging.PFLAG_HASCODE n); auto.
Qed.

Lemma page_in_pages_covered start len i :
  (i < len)%nat ->
  Paging.page_of (start + Z.of_nat i) ∈ pages_covered start len.
Proof.
  intros Hi. unfold pages_covered.
  apply elem_of_list_to_set, list_elem_of_fmap.
  exists i. split; [reflexivity |]. apply elem_of_seq. lia.
Qed.

(** A store outside the bytes of a block does not change what is fetched. *)
Lemma fetch_insert_outside mem start len addr val :
  (forall i, (i < len)%nat -> start + Z.of_nat i <> addr) ->
  fetch (<[addr := val]> mem) start len = fetch mem start len.
Proof.
  intros Hout. unfold fetch. apply map_ext_in. intros i Hi.
  apply in_seq in Hi. apply fn_lookup_insert_ne.
  intros ->. apply (Hout i); lia.
Qed.

Lemma fetch_length mem start len : length (fetch mem start len) = len.
Proof. unfold fetch. now rewrite length_map, length_seq. Qed.

Lemma coherent_power_on mem flags : coherent (power_on mem flags).
Proof. intros start b Hb. simpl in Hb. rewrite lookup_empty in Hb. discriminate. Qed.

(** After a write no cached block records the written page. *)
Lemma write_evicts e addr val :
  coherent e ->
  forall start b, cache (write e addr val) !! start = Some b ->
    Paging.page_of addr ∉ originating_physical_pages b.
Proof.
  intros Hc start b. unfold write.
  destruct (has_code e (Paging.page_of addr)) eqn:Hcode; simpl.
  - intros Hb. apply map_lookup_filter_Some in Hb. apply Hb.
  - intros Hb Hin. destruct (Hc start b Hb) as (_ & _ & _ & Hflag).
    rewrite (Hflag _ Hin) in Hcode. discriminate.
Qed.

Lemma write_cache_subset e addr val start b :
  cache (write e addr val) !! start = Some b -> cache e !! start = Some b.
Proof.
  unfold write. destruct (has_code e (Paging.page_of addr)); simpl; [| auto].
  intros Hb. now apply map_lookup_filter_Some in Hb.
Qed.

Lemma write_page_flags e addr val :
  page_flags (write e addr val) = page_flags e.
Proof. unfold write. now destruct (has_code e (Paging.page_of addr)). Qed.

Lemma write_ram e addr val : ram (write e addr val) = <[addr := val]> (ram e).
Proof. unfold write. now destruct (has_code e (Paging.page_of addr)). Qed.

Lemma coherent_write e addr val : coherent e -> coherent (write e addr val).
Proof.
  intros Hc start b Hb.
  pose proof (write_evicts e addr val Hc start b Hb) as Hev.
  apply write_cache_subset in Hb.
  destruct (Hc start b Hb) as (Hs & Hseq & Hpg & Hflag).
  split; [assumption |]. split; [| split; [assumption |]].
  - rewrite write_ram, fetch_insert_outside; [assumption |].
    intros i Hi Heq. apply Hev. rewrite Hpg, <- Heq.
    now apply page_in_pages_covered.
  - intros pg Hin. unfold has_code. rewrite write_page_flags. now apply Hflag.
Qed.

Lemma coherent_translate e start big :
  coherent e -> coherent (translate block_length e start big).
Proof.
  intros Hc a b. unfold translate. simpl. intros Hb.
  destruct (decide (start = a)) as [-> | Hne].
  - rewrite lookup_insert_eq in Hb. injection Hb as <-. simpl.
    repeat split. intros pg Hin. unfold has_code. simpl.
    rewrite bool_decide_eq_true_2 by assumption. apply hascode_after_flag.
  - rewrite lookup_insert_ne in Hb by assumption.
    destruct (Hc a b Hb) as (Hs & Hseq & Hpg & Hflag).
    repeat split; try assumption.
    intros pg Hin. unfold has_code. simpl.
    specialize (Hflag pg Hin). unfold has_code in Hflag.
    destruct (bool_decide _); [now apply hascode_lor | assumption].
Qed.

Lemma coherent_step e o : coherent e -> coherent (step block_length e o).
Proof.
  intros Hc. destruct o as [addr val | start big]; simpl.
  - now apply coherent_write.
  - unfold execute. destruct (cache e !! start); simpl; [assumption |].
    now apply coherent_translate.
Qed.

Lemma coherent_run ops : forall e, coherent e -> coherent (run block_length e ops).
Proof.
  induction ops as [| o ops IH]; intros e Hc; simpl; [assumption |].
  apply IH. now apply coherent_step.
Qed.

(** In a coherent engine what runs is what memory holds. *)
Lemma execute_current e start big :
  coherent e ->
  let code := fst (execute block_length e start big) in
  code = fetch (ram e) start (length code).
Proof.
  intros Hc. unfold execute.
  destruct (cache e !! start) as [b |] eqn:Hb; simpl.
  - destruct (Hc start b Hb) as (_ & Hseq & _).
    rewrite Hseq at 2. rewrite fetch_length. exact Hseq.
  - now rewrite fetch_length.
Qed.

End SelfModifyingCode.

(** C1. Self-modifying-code safety.  Whatever the guest did since power-on
    (writes and block executions, in any order), a write to an address
    leaves no cached block whose originating pages include the written
    page, and the opcode sequence that the next execution runs, at any
    start address, is the one memory holds after the write: the new byte at
    the written address, never a stale translation. *)
Theorem self_modifying_code_safety
    (block_length : (Z -> Z) -> Z -> nat)
    (mem flags : Z -> Z) (ops : list CodeCache.Op) (addr val : Z) :
  let e := CodeCache.run block_length (CodeCache.power_on mem flags) ops in
  let e' := CodeCache.write e addr val in
  (forall start b, CodeCache.cache e' !! start = Some b ->
     Paging.page_of addr ∉ CodeCache.originating_physical_pages b) /\
  CodeCache.ram e' addr = val /\
  (forall start big,
     let code := fst (CodeCache.execute block_length e' start big) in
     code = CodeCache.fetch (CodeCache.ram e') start (length code)) /\
  (forall ops' start big,
     let e'' := CodeCache.run block_length e' ops' in
     let code := fst (CodeCache.execute block_length e'' start big) in
     code = CodeCache.fetch (CodeCache.ram e'') start (length code)).
Proof.
  intros e e'.
  assert (Hc : CodeCache.coherent e)
    by (apply coherent_run, coherent_power_on).
  assert (Hc' : CodeCache.coherent e') by now apply coherent_write.
  split; [| split; [| split]].
  - now apply write_evicts.
  - subst e'. rewrite write_ram. apply fn_lookup_insert.
  - intros start big. now apply execute_current.
  - intros ops' start big. apply execute_current. now apply coherent_run.
Qed.

Lemma self_modifying_code_safety_witness :
  let bl := fun (_ : Z -> Z) (_ : Z) => 2%nat in
  let mem0 := fun a : Z => if a =? 0x1000 then 0xB8 else 0x90 in
  let e := CodeCache.run bl (CodeCache.power_on mem0 (fun _ => 0))
             [CodeCache.Execute 0x1000 false] in
  let e' := CodeCache.write e 0x1000 0xC3 in
  (forall start b, CodeCache.cache e' !! start = Some b ->
     Paging.page_of 0x1000 ∉ CodeCache.originating_physical_pages b) /\
  CodeCache.ram e' 0x1000 = 0xC3.
Proof.
  intros bl mem0 e e'.
  pose proof (self_modifying_code_safety bl mem0 (fun _ => 0)
                [CodeCache.Execute 0x1000 false] 0x1000 0xC3) as H.
  exact (conj (proj1 H) (proj1 (proj2 H))).
Defined.

(** ** The 0F escape table of the normal core *)

Section Prefix0FLemmas.

Import Prefix0F.

Context {M L : Type} (C : Core M L).

Lemma testbit_ff n : 0 <= n -> Z.testbit 0xFF n = (n <? 8).
Proof. intros. change 0xFF with (Z.ones 8). now apply Z.testbit_ones_nonneg. Qed.

Lemma testbit_ffff n : 0 <= n -> Z.testbit 0xFFFF n = (n <? 16).
Proof. intros. change 0xFFFF with (Z.ones 16). now apply Z.testbit_ones_nonneg. Qed.

Lemma testbit_ffffff00 n :
  0 <= n -> Z.testbit 0xFFFFFF00 n = (8 <=? n) && (n <? 32).
Proof.
  intros Hn. change 0xFFFFFF00 with (Z.shiftl (Z.ones 24) 8).
  rewrite Z.shiftl_spec by lia.
  destruct (Z.leb_spec 8 n); simpl.
  - rewrite Z.testbit_ones_nonneg by lia.
    destruct (Z.ltb_spec (n - 8) 24), (Z.ltb_spec n 32); auto; lia.
  - apply Z.testbit_neg_r. lia.
Qed.

Lemma testbit_ffff0000 n :
  0 <= n -> Z.testbit 0xFFFF0000 n = (16 <=? n) && (n <? 32).
Proof.
  intros Hn. change 0xFFFF0000 with (Z.shiftl (Z.ones 16) 16).
  rewrite Z.shiftl_spec by lia.
  destruct (Z.leb_spec 16 n); simpl.
  - rewrite Z.testbit_ones_nonneg by lia.
    destruct (Z.ltb_spec (n - 16) 16), (Z.ltb_spec n 32); auto; lia.
  - apply Z.testbit_neg_r. lia.
Qed.

Lemma testbit_ffff00ff n :
  0 <= n -> Z.testbit 0xFFFF00FF n = (n <? 8) || ((16 <=? n) && (n <? 32)).
Proof.
  intros Hn. change 0xFFFF00FF with (Z.lor 0xFF 0xFFFF0000).
  now rewrite Z.lor_spec, testbit_ff, testbit_ffff0000.
Qed.

(** Writing the low byte, the second byte or the low word of a register
    and reading it back; the other parts of the register stay. *)
Lemma low_byte_written r v :
  0 <= v < 256 -> Z.land (Z.lor (Z.land r 0xFFFFFF00) v) 0xFF = v.
Proof.
  intros Hv. apply Z.bits_inj'. intros n Hn.
  rewrite Z.land_spec, Z.lor_spec, Z.land_spec, testbit_ff, testbit_ffffff00 by lia.
  destruct (Z.ltb_spec n 8).
  - decide_cmp. simpl. now rewrite andb_false_r, andb_true_r.
  - rewrite (testbit_high 8 v n) by lia. now rewrite !andb_false_r.
Qed.

Lemma second_byte_written r v :
  0 <= v < 256 ->
  Z.land (Z.shiftr (Z.lor (Z.land r 0xFFFF00FF) (Z.shiftl v 8)) 8) 0xFF = v.
Proof.
  intros Hv. apply Z.bits_inj'. intros n Hn.
  rewrite Z.land_spec, Z.shiftr_spec, Z.lor_spec, Z.land_spec, Z.shiftl_spec,
    testbit_ff, testbit_ffff00ff by lia.
  replace (n + 8 - 8) with n by lia.
  destruct (Z.ltb_spec n 8).
  - decide_cmp. simpl. now rewrite andb_false_r, andb_true_r.
  - rewrite (testbit_high 8 v n) by lia. now rewrite !andb_false_r.
Qed.

Lemma second_byte_kept r v :
  0 <= v < 256 ->
  Z.land (Z.shiftr (Z.lor (Z.land r 0xFFFFFF00) v) 8) 0xFF
  = Z.land (Z.shiftr r 8) 0xFF.
Proof.
  intros Hv. apply Z.bits_inj'. intros n Hn.
  rewrite !Z.land_spec, !Z.shiftr_spec, Z.lor_spec, Z.land_spec,
    testbit_ff, testbit_ffffff00 by lia.
  rewrite (testbit_high 8 v (n + 8)) by lia.
  destruct (Z.ltb_spec n 8).
  - decide_cmp. simpl. now rewrite orb_false_r, !andb_true_r.
  - now rewrite !andb_false_r.
Qed.

Lemma low_byte_kept r v :
  Z.land (Z.lor (Z.land r 0xFFFF00FF) (Z.shiftl v 8)) 0xFF = Z.land r 0xFF.
Proof.
  apply Z.bits_inj'. intros n Hn.
  rewrite !Z.land_spec, Z.lor_spec, Z.land_spec, Z.shiftl_spec,
    testbit_ff, testbit_ffff00ff by lia.
  destruct (Z.ltb_spec n 8).
  - rewrite (Z.testbit_neg_r v (n - 8)) by lia.
    simpl. now rewrite orb_false_r, !andb_true_r.
  - now rewrite !andb_false_r.
Qed.

Lemma low_word_written r v :
  0 <= v < 2 ^ 16 -> Z.land (Z.lor (Z.land r 0xFFFF0000) v) 0xFFFF = v.
Proof.
  intros Hv. apply Z.bits_inj'. intros n Hn.
  rewrite Z.land_spec, Z.lor_spec, Z.land_spec, testbit_ffff, testbit_ffff0000 by lia.
  destruct (Z.ltb_spec n 16).
  - decide_cmp. simpl. now rewrite andb_false_r, andb_true_r.
  - rewrite (testbit_high 16 v n) by lia. now rewrite !andb_false_r.
Qed.

Lemma land_ff_range r : 0 <= Z.land r 0xFF < 256.
Proof.
  change 0xFF with (Z.ones 8). rewrite Z.land_ones by lia.
  apply Z.mod_pos_bound. lia.
Qed.

Lemma land_ffff_range r : 0 <= Z.land r 0xFFFF < 2 ^ 16.
Proof.
  change 0xFFFF with (Z.ones 16). rewrite Z.land_ones by lia.
  apply Z.mod_pos_bound. lia.
Qed.

Lemma get8_range (s : Cpu M L) i : 0 <= get8 s i < 256.
Proof. unfold get8. destruct (i <? 4); apply land_ff_range. Qed.

Lemma get16_range (s : Cpu M L) i : 0 <= get16 s i < 2 ^ 16.
Proof. apply land_ffff_range. Qed.

Lemma get8_set8_same (s : Cpu M L) i v :
  0 <= v < 256 -> get8 (set8 s i v) i = v.
Proof.
  intros Hv. unfold get8, set8. destruct (i <? 4) eqn:Hi; simpl.
  - rewrite fn_lookup_insert. now apply low_byte_written.
  - rewrite fn_lookup_insert. now apply second_byte_written.
Qed.

(** A byte register other than the written one keeps its value, also when
    it is the other byte of the same 32-bit register. *)
Lemma get8_set8_other (s : Cpu M L) i j v :
  0 <= v < 256 -> i <> j -> get8 (set8 s i v) j = get8 s j.
Proof.
  intros Hv Hne. unfold get8, set8.
  destruct (Z.ltb_spec i 4), (Z.ltb_spec j 4); simpl.
  - now rewrite fn_lookup_insert_ne.
  - destruct (Z.eq_dec i (j - 4)) as [-> | Hd].
    + rewrite fn_lookup_insert. now apply second_byte_kept.
    + now rewrite fn_lookup_insert_ne.
  - destruct (Z.eq_dec (i - 4) j) as [<- | Hd].
    + rewrite fn_lookup_insert. apply low_byte_kept.
    + now rewrite fn_lookup_insert_ne.
  - rewrite fn_lookup_insert_ne; [reflexivity | lia].
Qed.

Lemma get16_set16_same (s : Cpu M L) i v :
  0 <= v < 2 ^ 16 -> get16 (set16 s i v) i = v.
Proof.
  intros Hv. unfold get16, set16. simpl.
  rewrite fn_lookup_insert. now apply low_word_written.
Qed.

Lemma get16_set16_other (s : Cpu M L) i j v :
  i <> j -> get16 (set16 s i v) j = get16 s j.
Proof.
  intros Hne. unfold get16, set16. simpl. now rewrite fn_lookup_insert_ne.
Qed.

(** SETFLAGBIT sets the flag to the test. *)
Lemma get_flag_SETFLAGBIT_ZF (b : bool) (s : Cpu M L) :
  get_flag FLAG_ZF (SETFLAGBIT FLAG_ZF b s) = b.
Proof.
  unfold get_flag, SETFLAGBIT. destruct b; simpl.
  - apply negb_true_iff, Z.eqb_neq. intros H0.
    assert (Hb : Z.testbit (Z.land (Z.lor (reg_flags s) FLAG_ZF) FLAG_ZF) 6 = true).
    { rewrite Z.land_spec, Z.lor_spec. simpl. now rewrite orb_true_r. }
    rewrite H0 in Hb. discriminate.
  - apply negb_false_iff, Z.eqb_eq. apply Z.bits_inj'. intros n Hn.
    rewrite !Z.land_spec, Z.bits_0.
    change FLAG_ZF with (2 ^ 6). rewrite Z.pow2_bits_eqb by lia.
    destruct (Z.eqb_spec 6 n) as [<- | Hne].
    + simpl. now rewrite andb_false_r.
    + now rewrite andb_false_r.
Qed.

Lemma SETFLAGBIT_regs flag b (s : Cpu M L) :
  regs (SETFLAGBIT flag b s) = regs s /\ mem (SETFLAGBIT flag b s) = mem s.
Proof. unfold SETFLAGBIT. now destruct b. Qed.

Lemma FillFlags_keeps (s : Cpu M L) :
  regs (FillFlags C s) = regs s /\ mem (FillFlags C s) = mem s /\
  cseip (FillFlags C s) = cseip s /\ cr (FillFlags C s) = cr s /\
  CPU_ArchitectureType (FillFlags C s) = CPU_ArchitectureType s.
Proof. unfold FillFlags. destruct (FillFlags_of C _ _). now simpl. Qed.

Lemma GetEAa_keeps rm (s : Cpu M L) :
  fst (GetEAa C rm s) = fst (EALookup C rm s) /\
  regs (snd (GetEAa C rm s)) = regs s /\
  mem (snd (GetEAa C rm s)) = mem s /\
  reg_flags (snd (GetEAa C rm s)) = reg_flags s.
Proof. unfold GetEAa. destruct (EALookup C rm s). now simpl. Qed.

Lemma load_Ew_keeps rm (s : Cpu M L) :
  regs (snd (load_Ew C rm s)) = regs s /\ mem (snd (load_Ew C rm s)) = mem s /\
  0 <= fst (load_Ew C rm s) < 2 ^ 16.
Proof.
  unfold load_Ew. destruct (0xc0 <=? rm); simpl.
  - repeat split; apply get16_range.
  - unfold GetEAa. destruct (EALookup C rm s). simpl.
    repeat split; apply u16_range.
Qed.

(** The bit-scan loop finds the lowest set bit within the fuel it has. *)
Lemma bsf_loop_spec (fuel : nat) :
  forall b value result,
    0 <= b <= Z.of_nat fuel -> 0 < value < 2 ^ b ->
    0 <= result -> result + b <= 2 ^ 16 ->
    exists k, bsf_loop fuel value result = Some (result + k) /\
      0 <= k < b /\ Z.testbit value k = true /\
      forall j, 0 <= j < k -> Z.testbit value j = false.
Proof.
  induction fuel as [| fuel IH]; intros b value result Hb Hv Hr Hrb.
  - assert (b = 0) by lia. subst b. simpl in Hv. lia.
  - assert (Hb1 : 1 <= b).
    { destruct (Z.eq_dec b 0) as [-> | ?]; [simpl in Hv; lia | lia]. }
    cbn [bsf_loop].
    assert (Hbit0 : Z.land value 1 = if Z.testbit value 0 then 1 else 0).
    { change 1 with (Z.ones 1). rewrite Z.land_ones by lia.
      change (2 ^ 1) with 2. rewrite <- Z.bit0_mod.
      now destruct (Z.testbit value 0). }
    destruct (Z.testbit value 0) eqn:Hodd.
    + rewrite Hbit0. simpl. exists 0. rewrite Z.add_0_r.
      repeat split; try lia. assumption.
    + rewrite Hbit0. simpl.
      assert (Hhalf : 0 < Z.shiftr value 1 < 2 ^ (b - 1)).
      { rewrite Z.shiftr_div_pow2 by lia. change (2 ^ 1) with 2.
        rewrite Z.bit0_odd in Hodd.
        pose proof (Z.div_mod value 2 ltac:(lia)) as Hdm.
        rewrite Zmod_odd, Hodd in Hdm.
        assert (Hpow : 2 ^ b = 2 * 2 ^ (b - 1)).
        { rewrite <- Z.pow_succ_r by lia. f_equal. lia. }
        lia. }
      assert (Hb2 : 2 <= b).
      { destruct (Z.eq_dec b 1) as [-> | ?]; [simpl in Hhalf; lia | lia]. }
      rewrite (u16_small (result + 1)) by lia.
      destruct (IH (b - 1) (Z.shiftr value 1) (result + 1))
        as (k & Hk & Hkb & Hset & Hlow).
      * lia.
      * assumption.
      * lia.
      * lia.
      * exists (k + 1). replace (result + (k + 1)) with (result + 1 + k) by lia.
        split; [assumption |]. split; [lia |]. split.
        -- rewrite Z.shiftr_spec in Hset by lia. assumption.
        -- intros j Hj. destruct (Z.eq_dec j 0) as [-> | Hj0]; [assumption |].
           specialize (Hlow (j - 1) ltac:(lia)).
           rewrite Z.shiftr_spec in Hlow by lia.
           now replace (j - 1 + 1) with j in Hlow by lia.
Qed.

End Prefix0FLemmas.

(** C5. Decoding the bytes 0F 20 /r: the case 0x20 asks CPU_READ_CRX for
    the control register named by the reg field of the ModRM byte; when a
    value comes back, the register named by the rm field holds it
    afterwards and every other register is as before; when a fault comes
    back, that exception is raised.  In both cases flags, control
    registers, privilege level, mode and memory are those of the start and
    the fetch pointer stands behind the three bytes; on a fault the
    registers are those of the start too, so nothing of the engine state
    has changed for the faulting instruction.  For the bytes 0F 20 C0: at
    privilege level 0 EAX holds CR0 afterwards, at any other privilege
    level the protection fault is raised. *)
Theorem mov_from_cr_privilege {M L : Type} (C : Prefix0F.Core M L)
    (fuel : nat) (big : bool) (s : Prefix0F.Cpu M L) (b : Z) :
  u8 (Prefix0F.LoadMb C (Prefix0F.cseip s) (Prefix0F.mem s)) = 0x0F ->
  u8 (Prefix0F.LoadMb C (Prefix0F.cseip s + 1) (Prefix0F.mem s)) = 0x20 ->
  u8 (Prefix0F.LoadMb C (Prefix0F.cseip s + 2) (Prefix0F.mem s)) = b ->
  let untouched (s' : Prefix0F.Cpu M L) :=
    Prefix0F.reg_flags s' = Prefix0F.reg_flags s /\
    Prefix0F.lflags s' = Prefix0F.lflags s /\
    Prefix0F.cr s' = Prefix0F.cr s /\
    Prefix0F.cpl s' = Prefix0F.cpl s /\
    Prefix0F.pmode s' = Prefix0F.pmode s /\
    Prefix0F.CPU_ArchitectureType s' = Prefix0F.CPU_ArchitectureType s /\
    Prefix0F.mem s' = Prefix0F.mem s /\
    Prefix0F.cseip s' = Prefix0F.cseip s + 3 in
  (forall v,
     Prefix0F.CPU_READ_CRX (Prefix0F.reg_field b) s = inr v ->
     exists s',
       Prefix0F.decode C fuel big s = Prefix0F.Next s' /\
       Prefix0F.regs s' (Prefix0F.rm_field b) = v /\
       (forall i, i <> Prefix0F.rm_field b ->
                  Prefix0F.regs s' i = Prefix0F.regs s i) /\
       untouched s') /\
  (forall w,
     Prefix0F.CPU_READ_CRX (Prefix0F.reg_field b) s = inl w ->
     exists s',
       Prefix0F.decode C fuel big s = Prefix0F.RunException w s' /\
       Prefix0F.regs s' = Prefix0F.regs s /\
       untouched s') /\
  (b = 0xC0 ->
   (Prefix0F.cpl s = 0 ->
    exists s',
      Prefix0F.decode C fuel big s = Prefix0F.Next s' /\
      Prefix0F.regs s' 0 = Prefix0F.cr s 0 /\
      (forall i, i <> 0 -> Prefix0F.regs s' i = Prefix0F.regs s i) /\
      untouched s') /\
   (Prefix0F.cpl s <> 0 ->
    exists s',
      Prefix0F.decode C fuel big s
      = Prefix0F.RunException Prefix0F.EXCEPTION_GP s' /\
      Prefix0F.regs s' = Prefix0F.regs s /\
      untouched s')).
Proof.
  intros H0 H1 H2 untouched.
  set (fetched := Prefix0F.with_cseip s (Prefix0F.cseip s + 3)).
  assert (Hb : 0 <= b < 256) by (subst b; apply Z.mod_pos_bound; lia).
  assert (Hrm : Prefix0F.rm_field (if b <? 0xc0 then Z.lor b 0xc0 else b)
                = Prefix0F.rm_field b).
  { destruct (b <? 0xc0); [| reflexivity]. unfold Prefix0F.rm_field.
    rewrite Z.land_lor_distr_l. change (Z.land 0xc0 7) with 0.
    apply Z.lor_0_r. }
  assert (Hdec : Prefix0F.decode C fuel big s
    = match Prefix0F.CPU_READ_CRX (Prefix0F.reg_field b) s with
      | inl which => Prefix0F.RunException which fetched
      | inr crx =>
          Prefix0F.Next (Prefix0F.set32 fetched (Prefix0F.rm_field b) crx)
      end).
  { unfold Prefix0F.decode, Prefix0F.Fetchb. rewrite H0. simpl.
    replace (Prefix0F.cseip s + 1 + 1) with (Prefix0F.cseip s + 2) by lia.
    rewrite H1. simpl. unfold Prefix0F.prefix_0f. change (32 =? 32) with true.
    cbv iota. unfold Prefix0F.op_0f_20, Prefix0F.Fetchb. simpl.
    rewrite H2. rewrite Hrm. unfold fetched, Prefix0F.with_cseip. simpl.
    replace (Prefix0F.cseip s + 2 + 1) with (Prefix0F.cseip s + 3) by lia.
    reflexivity. }
  assert (Hu : untouched fetched) by (unfold untouched; repeat split).
  assert (Hval : forall v,
    Prefix0F.CPU_READ_CRX (Prefix0F.reg_field b) s = inr v ->
    exists s',
      Prefix0F.decode C fuel big s = Prefix0F.Next s' /\
      Prefix0F.regs s' (Prefix0F.rm_field b) = v /\
      (forall i, i <> Prefix0F.rm_field b ->
                 Prefix0F.regs s' i = Prefix0F.regs s i) /\
      untouched s').
  { intros v Hv. rewrite Hdec, Hv. eexists. split; [reflexivity |].
    split; [| split; [| exact Hu]].
    - simpl. apply fn_lookup_insert.
    - intros i Hi. simpl. now apply fn_lookup_insert_ne. }
  assert (Hfault : forall w,
    Prefix0F.CPU_READ_CRX (Prefix0F.reg_field b) s = inl w ->
    exists s',
      Prefix0F.decode C fuel big s = Prefix0F.RunException w s' /\
      Prefix0F.regs s' = Prefix0F.regs s /\
      untouched s').
  { intros w Hw. rewrite Hdec, Hw. exists fetched.
    split; [reflexivity |]. split; [reflexivity | exact Hu]. }
  split; [exact Hval |]. split; [exact Hfault |].
  intros ->. change (Prefix0F.rm_field 0xC0) with 0 in *.
  change (Prefix0F.reg_field 0xC0) with 0 in *.
  split; intros Hcpl.
  - apply Hval. unfold Prefix0F.CPU_READ_CRX. now rewrite Hcpl.
  - apply Hfault. unfold Prefix0F.CPU_READ_CRX.
    now destruct (Z.eqb_spec (Prefix0F.cpl s) 0).
Qed.

(** The sample processor fetches 0F 20 C0 at 0x100 with CR0 = 0x60000011:
    at level 0 EAX holds that value afterwards and ECX is as before; at
    level 3 the protection fault is raised with the registers as before. *)
Lemma mov_from_cr_privilege_witness :
  (exists s',
     Prefix0F.decode Samples.sample_core 16 false (Samples.sample_cpu 0)
     = Prefix0F.Next s' /\
     Prefix0F.regs s' 0 = 0x60000011 /\
     Prefix0F.regs s' 1 = 0x1001) /\
  (exists s',
     Prefix0F.decode Samples.sample_core 16 false (Samples.sample_cpu 3)
     = Prefix0F.RunException Prefix0F.EXCEPTION_GP s' /\
     Prefix0F.regs s' = Prefix0F.regs (Samples.sample_cpu 3) /\
     Prefix0F.cseip s' = 0x103).
Proof.
  split.
  - destruct (proj1 (proj2 (proj2
               (mov_from_cr_privilege Samples.sample_core 16 false
                  (Samples.sample_cpu 0) 0xC0 eq_refl eq_refl eq_refl))
               eq_refl) eq_refl) as (s' & Hd & Hax & Hoth & _).
    exists s'. split; [exact Hd |]. split; [exact Hax |].
    exact (Hoth 1 ltac:(discriminate)).
  - destruct (proj2 (proj2 (proj2
               (mov_from_cr_privilege Samples.sample_core 16 false
                  (Samples.sample_cpu 3) 0xC0 eq_refl eq_refl eq_refl))
               eq_refl) ltac:(discriminate)) as (s' & Hd & Hr & Hu).
    exists s'. split; [exact Hd |]. split; [exact Hr |].
    exact (proj2 (proj2 (proj2 (proj2 (proj2 (proj2 (proj2 Hu))))))).
Defined.

(** C8. CMPXCHG (0F B0 on bytes, 0F B1 on words), on a processor that has
    it.  With a memory operand a write to the operand's address is issued
    in either case: the source register when the accumulator equals the
    operand, else the value just read, which also goes to the accumulator.
    With a register operand the destination takes the source when the
    comparison succeeds and keeps its value when it fails (the accumulator
    then takes the destination's value); memory is not written.  ZF is set
    exactly when the comparison succeeds. *)
Theorem cmpxchg_semantics {M L : Type} (C : Prefix0F.Core M L)
    (s0 : Prefix0F.Cpu M L) :
  Prefix0F.Intel486OldSlow C <= Prefix0F.CPU_ArchitectureType s0 ->
  let rm := u8 (Prefix0F.LoadMb C (Prefix0F.cseip s0) (Prefix0F.mem s0)) in
  let s2 := Prefix0F.with_cseip (Prefix0F.FillFlags C s0) (Prefix0F.cseip s0 + 1) in
  let eaa := fst (Prefix0F.EALookup C rm s2) in
  let G := Prefix0F.reg_field rm in
  let E := Prefix0F.rm_field rm in
  (* 0F B0, memory operand *)
  (rm < 0xc0 ->
   let val := u8 (Prefix0F.LoadMb C eaa (Prefix0F.mem s0)) in
   let equal := Prefix0F.reg_al s0 =? val in
   exists s', Prefix0F.op_0f_b0 C s0 = Prefix0F.Next s' /\
     Prefix0F.mem s'
     = Prefix0F.SaveMb C eaa (if equal then Prefix0F.get8 s0 G else val)
         (Prefix0F.mem s0) /\
     (equal = false -> Prefix0F.reg_al s' = val) /\
     Prefix0F.get_flag Prefix0F.FLAG_ZF s' = equal) /\
  (* 0F B0, register operand *)
  (0xc0 <= rm ->
   let equal := Prefix0F.reg_al s0 =? Prefix0F.get8 s0 E in
   exists s', Prefix0F.op_0f_b0 C s0 = Prefix0F.Next s' /\
     Prefix0F.mem s' = Prefix0F.mem s0 /\
     Prefix0F.get8 s' E
     = (if equal then Prefix0F.get8 s0 G else Prefix0F.get8 s0 E) /\
     (equal = false -> Prefix0F.reg_al s' = Prefix0F.get8 s0 E) /\
     Prefix0F.get_flag Prefix0F.FLAG_ZF s' = equal) /\
  (* 0F B1, memory operand *)
  (rm < 0xc0 ->
   let val := u16 (Prefix0F.LoadMw C eaa (Prefix0F.mem s0)) in
   let equal := Prefix0F.reg_ax s0 =? val in
   exists s', Prefix0F.op_0f_b1 C s0 = Prefix0F.Next s' /\
     Prefix0F.mem s'
     = Prefix0F.SaveMw C eaa (if equal then Prefix0F.get16 s0 G else val)
         (Prefix0F.mem s0) /\
     (equal = false -> Prefix0F.reg_ax s' = val) /\
     Prefix0F.get_flag Prefix0F.FLAG_ZF s' = equal) /\
  (* 0F B1, register operand *)
  (0xc0 <= rm ->
   let equal := Prefix0F.reg_ax s0 =? Prefix0F.get16 s0 E in
   exists s', Prefix0F.op_0f_b1 C s0 = Prefix0F.Next s' /\
     Prefix0F.mem s' = Prefix0F.mem s0 /\
     Prefix0F.get16 s' E
     = (if equal then Prefix0F.get16 s0 G else Prefix0F.get16 s0 E) /\
     (equal = false -> Prefix0F.reg_ax s' = Prefix0F.get16 s0 E) /\
     Prefix0F.get_flag Prefix0F.FLAG_ZF s' = equal).
Proof.
  intros Harch rm s2 eaa G E.
  destruct (FillFlags_keeps C s0) as (Hfr & Hfm & Hfip & _ & Hfa).
  assert (Hrm : Prefix0F.Fetchb C (Prefix0F.FillFlags C s0) = (rm, s2)).
  { unfold Prefix0F.Fetchb. now rewrite Hfip, Hfm. }
  assert (Hs2r : Prefix0F.regs s2 = Prefix0F.regs s0) by exact Hfr.
  assert (Hs2m : Prefix0F.mem s2 = Prefix0F.mem s0) by exact Hfm.
  destruct (GetEAa_keeps C rm s2) as (Hea & Hear & Heam & _).
  fold eaa in Hea. rewrite Hs2r in Hear. rewrite Hs2m in Heam.
  assert (Hg8 : forall (s : Prefix0F.Cpu M L) i,
    Prefix0F.regs s = Prefix0F.regs s0 -> Prefix0F.get8 s i = Prefix0F.get8 s0 i).
  { intros s i Hs. unfold Prefix0F.get8. now rewrite Hs. }
  assert (Hg16 : forall (s : Prefix0F.Cpu M L) i,
    Prefix0F.regs s = Prefix0F.regs s0 -> Prefix0F.get16 s i = Prefix0F.get16 s0 i).
  { intros s i Hs. unfold Prefix0F.get16. now rewrite Hs. }
  assert (Harchb : (Prefix0F.CPU_ArchitectureType s0 <? Prefix0F.Intel486OldSlow C) = false)
    by (apply Z.ltb_ge; lia).
  repeat split.
  - (* byte, memory *)
    intros Hlt val equal. unfold Prefix0F.op_0f_b0.
    rewrite Harchb, Hrm. fold G.
    replace (0xc0 <=? rm) with false by (symmetry; apply Z.leb_gt; lia).
    destruct (Prefix0F.GetEAa C rm s2) as [ea s3] eqn:Hg. simpl in Hea, Hear, Heam.
    subst ea. rewrite Heam. fold val.
    unfold Prefix0F.reg_al. rewrite (Hg8 s3 0 Hear), (Hg8 s3 G Hear).
    fold (Prefix0F.reg_al s0). fold equal.
    destruct equal eqn:Heq; eexists; (split; [reflexivity |]).
    + split; [| split; [discriminate |]].
      * now rewrite (proj2 (SETFLAGBIT_regs _ _ _)).
      * apply get_flag_SETFLAGBIT_ZF.
    + split; [| split].
      * rewrite (proj2 (SETFLAGBIT_regs _ _ _)). unfold Prefix0F.set8. reflexivity.
      * intros _. unfold Prefix0F.reg_al, Prefix0F.get8 at 1.
        rewrite (proj1 (SETFLAGBIT_regs _ _ _)).
        change (Prefix0F.get8 (Prefix0F.set8 (Prefix0F.with_mem s3
          (Prefix0F.SaveMb C eaa val (Prefix0F.mem s0))) 0 val) 0 = val).
        apply get8_set8_same, u8_range.
      * apply get_flag_SETFLAGBIT_ZF.
  - (* byte, register *)
    intros Hge equal. unfold Prefix0F.op_0f_b0.
    rewrite Harchb, Hrm. fold G E.
    replace (0xc0 <=? rm) with true by (symmetry; apply Z.leb_le; lia).
    unfold Prefix0F.reg_al. rewrite (Hg8 s2 0 Hs2r), (Hg8 s2 E Hs2r), (Hg8 s2 G Hs2r).
    fold (Prefix0F.reg_al s0). fold equal.
    assert (Hget : forall b (s : Prefix0F.Cpu M L) i,
      Prefix0F.get8 (Prefix0F.SETFLAGBIT Prefix0F.FLAG_ZF b s) i = Prefix0F.get8 s i).
    { intros b s i. unfold Prefix0F.get8.
      now rewrite (proj1 (SETFLAGBIT_regs _ _ _)). }
    destruct equal eqn:Heq; eexists; (split; [reflexivity |]).
    + split; [| split; [| split; [discriminate |]]].
      * rewrite (proj2 (SETFLAGBIT_regs _ _ _)).
        unfold Prefix0F.set8. now destruct (E <? 4).
      * rewrite Hget. apply get8_set8_same, get8_range.
      * apply get_flag_SETFLAGBIT_ZF.
    + assert (HE : 0 <> E).
      { intros <-. subst equal. unfold Prefix0F.reg_al in Heq.
        rewrite Z.eqb_refl in Heq. discriminate. }
      split; [| split; [| split]].
      * now rewrite (proj2 (SETFLAGBIT_regs _ _ _)).
      * rewrite Hget, get8_set8_other by (apply get8_range || assumption).
        now apply Hg8.
      * intros _. unfold Prefix0F.reg_al. rewrite Hget.
        apply get8_set8_same, get8_range.
      * apply get_flag_SETFLAGBIT_ZF.
  - (* word, memory *)
    intros Hlt val equal. unfold Prefix0F.op_0f_b1.
    rewrite Harchb, Hrm. fold G.
    replace (0xc0 <=? rm) with false by (symmetry; apply Z.leb_gt; lia).
    destruct (Prefix0F.GetEAa C rm s2) as [ea s3] eqn:Hg. simpl in Hea, Hear, Heam.
    subst ea. rewrite Heam. fold val.
    unfold Prefix0F.reg_ax. rewrite (Hg16 s3 0 Hear), (Hg16 s3 G Hear).
    fold (Prefix0F.reg_ax s0). fold equal.
    destruct equal eqn:Heq; eexists; (split; [reflexivity |]).
    + split; [| split; [discriminate |]].
      * now rewrite (proj2 (SETFLAGBIT_regs _ _ _)).
      * apply get_flag_SETFLAGBIT_ZF.
    + split; [| split].
      * now rewrite (proj2 (SETFLAGBIT_regs _ _ _)).
      * intros _. unfold Prefix0F.reg_ax, Prefix0F.get16 at 1.
        rewrite (proj1 (SETFLAGBIT_regs _ _ _)).
        change (Prefix0F.get16 (Prefix0F.set16 (Prefix0F.with_mem s3
          (Prefix0F.SaveMw C eaa val (Prefix0F.mem s0))) 0 val) 0 = val).
        apply get16_set16_same, u16_range.
      * apply get_flag_SETFLAGBIT_ZF.
  - (* word, register *)
    intros Hge equal. unfold Prefix0F.op_0f_b1.
    rewrite Harchb, Hrm. fold G E.
    replace (0xc0 <=? rm) with true by (symmetry; apply Z.leb_le; lia).
    unfold Prefix0F.reg_ax. rewrite (Hg16 s2 0 Hs2r), (Hg16 s2 E Hs2r), (Hg16 s2 G Hs2r).
    fold (Prefix0F.reg_ax s0). fold equal.
    assert (Hget : forall b (s : Prefix0F.Cpu M L) i,
      Prefix0F.get16 (Prefix0F.SETFLAGBIT Prefix0F.FLAG_ZF b s) i = Prefix0F.get16 s i).
    { intros b s i. unfold Prefix0F.get16.
      now rewrite (proj1 (SETFLAGBIT_regs _ _ _)). }
    destruct equal eqn:Heq; eexists; (split; [reflexivity |]).
    + split; [| split; [| split; [discriminate |]]].
      * now rewrite (proj2 (SETFLAGBIT_regs _ _ _)).
      * rewrite Hget. apply get16_set16_same, get16_range.
      * apply get_flag_SETFLAGBIT_ZF.
    + assert (HE : 0 <> E).
      { intros <-. subst equal. unfold Prefix0F.reg_ax in Heq.
        rewrite Z.eqb_refl in Heq. discriminate. }
      split; [| split; [| split]].
      * now rewrite (proj2 (SETFLAGBIT_regs _ _ _)).
      * rewrite Hget, get16_set16_other by assumption. now apply Hg16.
      * intros _. unfold Prefix0F.reg_ax. rewrite Hget.
        apply get16_set16_same, get16_range.
      * apply get_flag_SETFLAGBIT_ZF.
Qed.

Lemma cmpxchg_semantics_witness :
  Prefix0F.Intel486OldSlow Samples.sample_core
    <= Prefix0F.CPU_ArchitectureType (Samples.sample_cpu 0) /\
  exists s', Prefix0F.op_0f_b0 Samples.sample_core (Samples.sample_cpu 0)
             = Prefix0F.Next s' /\
    Prefix0F.mem s' 0x2000 = 0x28 /\
    Prefix0F.get_flag Prefix0F.FLAG_ZF s' = false.
Proof.
  assert (Harch : Prefix0F.Intel486OldSlow Samples.sample_core
                  <= Prefix0F.CPU_ArchitectureType (Samples.sample_cpu 0))
    by (simpl; lia).
  split; [exact Harch |].
  destruct (proj1 (cmpxchg_semantics Samples.sample_core
                     (Samples.sample_cpu 0) Harch))
    as (s' & Hrun & Hmem & _ & Hzf); [vm_compute; reflexivity |].
  exists s'. split; [exact Hrun |]. split.
  - rewrite Hmem. reflexivity.
  - exact Hzf.
Defined.

(** C9. BSF Gw,Ew.  When the source is zero, ZF is set and the destination
    register (every register, in fact) keeps its value; when it is not, the
    loop ends, ZF is cleared and the destination receives the index of the
    lowest set bit of the source. *)
Theorem bsf_semantics {M L : Type} (C : Prefix0F.Core M L) (fuel : nat)
    (s0 : Prefix0F.Cpu M L) :
  (16 <= fuel)%nat ->
  let rm := u8 (Prefix0F.LoadMb C (Prefix0F.cseip s0) (Prefix0F.mem s0)) in
  let s1 := Prefix0F.with_cseip s0 (Prefix0F.cseip s0 + 1) in
  let value := fst (Prefix0F.load_Ew C rm s1) in
  (value = 0 ->
   exists s', Prefix0F.op_0f_bc C fuel s0 = Prefix0F.Next s' /\
     Prefix0F.get_flag Prefix0F.FLAG_ZF s' = true /\
     Prefix0F.regs s' = Prefix0F.regs s0) /\
  (value <> 0 ->
   exists s' index, Prefix0F.op_0f_bc C fuel s0 = Prefix0F.Next s' /\
     Prefix0F.get_flag Prefix0F.FLAG_ZF s' = false /\
     Prefix0F.get16 s' (Prefix0F.reg_field rm) = index /\
     0 <= index < 16 /\
     Z.testbit value index = true /\
     (forall j, 0 <= j < index -> Z.testbit value j = false)).
Proof.
  intros Hfuel rm s1 value.
  destruct (load_Ew_keeps C rm s1) as (Hr & Hm & Hrange). fold value in Hrange.
  assert (Hrun : Prefix0F.op_0f_bc C fuel s0
    = let s := snd (Prefix0F.load_Ew C rm s1) in
      if value =? 0 then
        let s := Prefix0F.SETFLAGBIT Prefix0F.FLAG_ZF true s in
        Prefix0F.Next (Prefix0F.with_lflags s
                         (Prefix0F.set_type_UNKNOWN C (Prefix0F.lflags s)))
      else
        match Prefix0F.bsf_loop fuel value 0 with
        | None => Prefix0F.Hang s
        | Some result =>
            let s := Prefix0F.SETFLAGBIT Prefix0F.FLAG_ZF false s in
            let s := Prefix0F.set16 s (Prefix0F.reg_field rm) result in
            Prefix0F.Next (Prefix0F.with_lflags s
                             (Prefix0F.set_type_UNKNOWN C (Prefix0F.lflags s)))
        end).
  { unfold Prefix0F.op_0f_bc, Prefix0F.Fetchb. fold rm s1.
    subst value. now destruct (Prefix0F.load_Ew C rm s1). }
  rewrite Hrun. clear Hrun. cbv zeta. split.
  - intros Hz. rewrite Hz. simpl. eexists. split; [reflexivity |]. split.
    + apply (get_flag_SETFLAGBIT_ZF true).
    + simpl. exact Hr.
  - intros Hnz. destruct (Z.eqb_spec value 0); [contradiction |].
    destruct (bsf_loop_spec fuel 16 value 0) as (k & Hk & Hkr & Hset & Hlow);
      try lia.
    rewrite Hk. simpl. eexists. exists k. split; [reflexivity |].
    split; [| split; [| split; [assumption | split; assumption]]].
    + apply (get_flag_SETFLAGBIT_ZF false).
    + match goal with
      | |- Prefix0F.get16 (Prefix0F.with_lflags ?s ?l) ?i = _ =>
          change (Prefix0F.get16 (Prefix0F.with_lflags s l) i)
            with (Prefix0F.get16 s i)
      end.
      apply get16_set16_same. lia.
Qed.

Lemma bsf_semantics_witness :
  (16 <= 16)%nat /\
  exists s' index,
    Prefix0F.op_0f_bc Samples.sample_core 16 (Samples.sample_cpu 0)
    = Prefix0F.Next s' /\
    Prefix0F.get16 s' 1 = index /\ Z.testbit 0x28 index = true.
Proof.
  split; [lia |].
  destruct (proj2 (bsf_semantics Samples.sample_core 16
                     (Samples.sample_cpu 0) ltac:(lia)))
    as (s' & index & Hrun & _ & Hdest & _ & Hbit & _);
    [vm_compute; discriminate |].
  exists s', index. split; [exact Hrun |]. split; [exact Hdest | exact Hbit].
Defined.

(** ** The FPU register stack and the code generated for FPU opcodes *)

Section FpuStack.

Import DynFpu.

Context {V : Type}.

Lemma land_7_mod8 x : Z.land x 7 = x mod 8.
Proof. change 7 with (Z.ones 3). now rewrite Z.land_ones by lia. Qed.

(** Masking a 32-bit wrapped value to 3 bits is reduction modulo 8. *)
Lemma land7_u32 x : Z.land (u32 x) 7 = x mod 8.
Proof.
  rewrite land_7_mod8. unfold u32.
  change (2 ^ 32) with 4294967296. Z.div_mod_to_equations. lia.
Qed.

Lemma FDECSTP_top (f : FPU_rec V) : top (FPU_FDECSTP f) = (top f - 1) mod 8.
Proof. apply land7_u32. Qed.

Lemma FINCSTP_top (f : FPU_rec V) : top (FPU_FINCSTP f) = (top f + 1) mod 8.
Proof. apply land7_u32. Qed.

End FpuStack.

(** C7. For every FPU state FPU_FDECSTP sets top to (top - 1) mod 8 and
    FPU_FINCSTP sets it to (top + 1) mod 8; top is in 0..7 afterwards, and
    on a top in 0..7 each operation undoes the other. *)
Theorem fpu_top_rotation {V : Type} (f : DynFpu.FPU_rec V) :
  DynFpu.top (DynFpu.FPU_FDECSTP f) = (DynFpu.top f - 1) mod 8 /\
  DynFpu.top (DynFpu.FPU_FINCSTP f) = (DynFpu.top f + 1) mod 8 /\
  0 <= DynFpu.top (DynFpu.FPU_FDECSTP f) < 8 /\
  0 <= DynFpu.top (DynFpu.FPU_FINCSTP f) < 8 /\
  (0 <= DynFpu.top f < 8 ->
   DynFpu.FPU_FINCSTP (DynFpu.FPU_FDECSTP f) = f /\
   DynFpu.FPU_FDECSTP (DynFpu.FPU_FINCSTP f) = f).
Proof.
  rewrite FDECSTP_top, FINCSTP_top.
  split; [reflexivity |]. split; [reflexivity |].
  split; [apply Z.mod_pos_bound; lia |].
  split; [apply Z.mod_pos_bound; lia |].
  intros Ht. destruct f as [fr tg c s t]. simpl in Ht.
  unfold DynFpu.FPU_FINCSTP, DynFpu.FPU_FDECSTP, DynFpu.with_top. simpl.
  rewrite !land7_u32.
  split; f_equal.
  - rewrite Zplus_mod_idemp_l. replace (t - 1 + 1) with t by lia.
    apply Z.mod_small. lia.
  - rewrite Zminus_mod_idemp_l. replace (t + 1 - 1) with t by lia.
    apply Z.mod_small. lia.
Qed.

Section GeneratedCode.

Import DynFpu.

Context {V : Type}.
Variable call_fpu : FpuFn -> list Z -> FPU_rec V -> FPU_rec V.
Variable clobber : FpuFn -> list Z -> (HostReg -> Z) -> HostReg -> Z.

(** The operand setup: FC_OP1 holds TOP and FC_OP2 the slot of ST(rm), or
    the other way round. *)
Lemma dyn_fpu_top_regs (m : ModRM) (h : Host V) :
  let h' := exec call_fpu clobber (dyn_fpu_top m) h in
  hreg h' FC_OP1 = u32 (top (fpu h)) /\
  hreg h' FC_OP2 = (top (fpu h) + rm m) mod 8 /\
  fpu h' = fpu h /\ calls h' = calls h /\ saved h' = saved h.
Proof.
  simpl. rewrite !fn_lookup_insert.
  rewrite fn_lookup_insert_ne by discriminate. rewrite fn_lookup_insert.
  rewrite land7_u32. repeat split.
  unfold u32. change (2 ^ 32) with 4294967296.
  Z.div_mod_to_equations. lia.
Qed.

End GeneratedCode.

Section StackOperand.

Import DynFpu.

Context {V : Type}.
Variable call_fpu : FpuFn -> list Z -> FPU_rec V -> FPU_rec V.
Variable clobber : FpuFn -> list Z -> (HostReg -> Z) -> HostReg -> Z.

Lemma sti_value t r : Z.land (u32 (u32 t + r)) 7 = (t + r) mod 8.
Proof.
  rewrite land7_u32. unfold u32. change (2 ^ 32) with 4294967296.
  Z.div_mod_to_equations. lia.
Qed.

(** What the first register-taking call of a register-direct opcode that
    names ST(rm) receives: the slot of ST(rm), alone or beside TOP. *)
Lemma sti_operand_cases (n rg r : Z) (h : Host V) :
  0 <= n < 8 -> 0 <= rg < 8 -> names_sti n rg r = true -> calls h = [] ->
  let m := {| val := 0xc0 + 8 * rg + r; mod_ := 3; reg := rg; rm := r |} in
  let sti := (top (fpu h) + r) mod 8 in
  exists code fn args,
    dyn_fpu_esc n m = Code code /\
    first_register_call (exec call_fpu clobber code h) = Some (fn, args) /\
    (args = [sti] \/
     args = [u32 (top (fpu h)); sti] \/
     args = [sti; u32 (top (fpu h))] \/
     args = [sti; u32 (top (call_fpu FN_PREP_PUSH [] (fpu h)))]).
Proof.
  intros Hn Hrg Hnames Hc m sti. subst m sti.
  assert (Hn' : n = 0 \/ n = 1 \/ n = 2 \/ n = 3 \/ n = 4 \/ n = 5 \/
                n = 6 \/ n = 7) by lia.
  assert (Hrg' : rg = 0 \/ rg = 1 \/ rg = 2 \/ rg = 3 \/ rg = 4 \/ rg = 5 \/
                 rg = 6 \/ rg = 7) by lia.
  repeat (destruct Hn' as [Hn' | Hn']); subst n;
  repeat (destruct Hrg' as [Hrg' | Hrg']); subst rg;
  try discriminate Hnames;
  simpl in Hnames; try (apply Z.eqb_eq in Hnames; subst r);
  (eexists _, _, _; split; [reflexivity |];
   unfold first_register_call; simpl; rewrite Hc; simpl;
   repeat (rewrite fn_lookup_insert
           || rewrite fn_lookup_insert_ne by discriminate);
   rewrite ?sti_value;
   split; [reflexivity |];
   first [ left; reflexivity
         | right; left; reflexivity
         | right; right; left; reflexivity
         | right; right; right; reflexivity ]).
Qed.

End StackOperand.

(** C6. Every register-direct FPU opcode of the dynamic recompiler that
    names a stack register ST(i) by its rm field passes physical slot
    (TOP + i) mod 8 to its helper, which is (TOP + rm) masked to 3 bits:
    the first helper call with register arguments receives that slot,
    alone (FFREE) or together with TOP. *)
Theorem dyn_fpu_stack_operand {V : Type}
    (call_fpu : DynFpu.FpuFn -> list Z -> DynFpu.FPU_rec V -> DynFpu.FPU_rec V)
    (clobber : DynFpu.FpuFn -> list Z -> (DynFpu.HostReg -> Z) ->
               DynFpu.HostReg -> Z)
    (n byte : Z) (h : DynFpu.Host V) :
  0 <= n < 8 -> 0xc0 <= byte < 0x100 ->
  let m := DynFpu.dyn_get_modrm byte in
  DynFpu.names_sti n (DynFpu.reg m) (DynFpu.rm m) = true ->
  DynFpu.calls h = [] ->
  let TOP := DynFpu.top (DynFpu.fpu h) in
  let sti := (TOP + DynFpu.rm m) mod 8 in
  DynFpu.mod_ m = 3 /\
  sti = Z.land (TOP + DynFpu.rm m) 7 /\
  exists code fn args,
    DynFpu.dyn_fpu_esc n m = DynFpu.Code code /\
    DynFpu.first_register_call (DynFpu.exec call_fpu clobber code h)
    = Some (fn, args) /\
    (args = [sti] \/
     args = [u32 TOP; sti] \/
     args = [sti; u32 TOP] \/
     args = [sti; u32 (DynFpu.top (call_fpu DynFpu.FN_PREP_PUSH [] (DynFpu.fpu h)))]).
Proof.
  intros Hn Hbyte m Hnames Hc TOP sti.
  assert (Hmod : DynFpu.mod_ m = 3).
  { subst m. unfold DynFpu.dyn_get_modrm. simpl.
    rewrite Z.shiftr_div_pow2 by lia. change 3 with (Z.ones 2) at 1.
    rewrite Z.land_ones by lia. change (2 ^ 6) with 64. change (2 ^ 2) with 4.
    Z.div_mod_to_equations. lia. }
  split; [exact Hmod |]. split; [subst sti; symmetry; apply land_7_mod8 |].
  assert (Hrg : 0 <= DynFpu.reg m < 8).
  { subst m. simpl. rewrite land_7_mod8. apply Z.mod_pos_bound. lia. }
  destruct (sti_operand_cases call_fpu clobber n (DynFpu.reg m) (DynFpu.rm m) h
              Hn Hrg Hnames Hc) as (code & fn & args & Hcode & Hcall & Hargs).
  exists code, fn, args. split; [| split; assumption].
  rewrite <- Hcode. unfold DynFpu.dyn_fpu_esc.
  assert (Hesc : forall m1 m2 : DynFpu.ModRM,
    DynFpu.mod_ m1 = DynFpu.mod_ m2 -> DynFpu.reg m1 = DynFpu.reg m2 ->
    DynFpu.rm m1 = DynFpu.rm m2 ->
    DynFpu.dyn_fpu_esc0 m1 = DynFpu.dyn_fpu_esc0 m2 /\
    DynFpu.dyn_fpu_esc1 m1 = DynFpu.dyn_fpu_esc1 m2 /\
    DynFpu.dyn_fpu_esc2 m1 = DynFpu.dyn_fpu_esc2 m2 /\
    DynFpu.dyn_fpu_esc3 m1 = DynFpu.dyn_fpu_esc3 m2 /\
    DynFpu.dyn_fpu_esc4 m1 = DynFpu.dyn_fpu_esc4 m2 /\
    DynFpu.dyn_fpu_esc5 m1 = DynFpu.dyn_fpu_esc5 m2 /\
    DynFpu.dyn_fpu_esc6 m1 = DynFpu.dyn_fpu_esc6 m2 /\
    DynFpu.dyn_fpu_esc7 m1 = DynFpu.dyn_fpu_esc7 m2).
  { intros m1 m2 H1 H2 H3.
    unfold DynFpu.dyn_fpu_esc0, DynFpu.dyn_fpu_esc1, DynFpu.dyn_fpu_esc2,
      DynFpu.dyn_fpu_esc3, DynFpu.dyn_fpu_esc4, DynFpu.dyn_fpu_esc5,
      DynFpu.dyn_fpu_esc6, DynFpu.dyn_fpu_esc7, DynFpu.dyn_eatree,
      DynFpu.dyn_fpu_top, DynFpu.dyn_fpu_top_swapped.
    rewrite H1, H2, H3. repeat split. }
  destruct (Hesc m {| DynFpu.val := 192 + 8 * DynFpu.reg m + DynFpu.rm m;
                      DynFpu.mod_ := 3; DynFpu.reg := DynFpu.reg m;
                      DynFpu.rm := DynFpu.rm m |} Hmod eq_refl eq_refl)
    as (E0 & E1 & E2 & E3 & E4 & E5 & E6 & E7).
  rewrite E0, E1, E2, E3, E4, E5, E6, E7. reflexivity.
Qed.

Lemma dyn_fpu_stack_operand_witness :
  0 <= 0 < 8 /\ 0xc0 <= 0xc3 < 0x100 /\
  exists code fn args,
    DynFpu.dyn_fpu_esc 0 (DynFpu.dyn_get_modrm 0xc3) = DynFpu.Code code /\
    DynFpu.first_register_call
      (DynFpu.exec Samples.sample_call Samples.sample_clobber code
         Samples.sample_host) = Some (fn, args) /\
    In 1 args.
Proof.
  split; [lia |]. split; [lia |].
  destruct (dyn_fpu_stack_operand Samples.sample_call Samples.sample_clobber
              0 0xc3 Samples.sample_host ltac:(lia) ltac:(lia)
              eq_refl eq_refl)
    as (_ & _ & code & fn & args & Hcode & Hcall & Hargs).
  exists code, fn, args. split; [exact Hcode |]. split; [exact Hcall |].
  destruct Hargs as [-> | [-> | [-> | ->]]]; simpl; auto.
Defined.

Lemma fpu_top_rotation_witness :
  0 <= DynFpu.top Samples.sample_fpu < 8 /\
  DynFpu.FPU_FINCSTP (DynFpu.FPU_FDECSTP Samples.sample_fpu) = Samples.sample_fpu.
Proof.
  split; [simpl; lia |].
  apply (proj2 (proj2 (proj2 (proj2 (fpu_top_rotation Samples.sample_fpu))))).
  simpl; lia.
Defined.

(* ====================================================================== *)
(** * Further properties of the embedded code *)
(* ====================================================================== *)

(** ** include/paging.h *)

Section PagingMore.

Import Paging.

Context {X : Type} (E : Env X).

(** The value of [get (set v)], as an equation on numbers. *)
Lemma get_set_eq v : 0 <= v < 2 ^ 32 -> get (set v) = v.
Proof. intros Hv. apply Z.bits_inj'. intros n Hn. now apply get_set_bits. Qed.

Lemma entry_value_range e : wf_entry e -> 0 <= entry_value e < 2 ^ 32.
Proof. unfold wf_entry, entry_value. change (2 ^ 20) with 1048576. lia. Qed.

(** A field of [w] bits at position [k], as a quotient and a remainder. *)
Lemma field_extract v k w mask dk dw :
  mask = Z.ones w -> dk = 2 ^ k -> dw = 2 ^ w -> 0 <= k -> 0 <= w ->
  Z.land (Z.shiftr v k) mask = (v / dk) mod dw.
Proof.
  intros -> -> -> Hk Hw. now rewrite Z.land_ones, Z.shiftr_div_pow2 by lia.
Qed.

Lemma land_1_mod2 v : Z.land v 0x1 = v mod 2.
Proof. change 0x1 with (Z.ones 1). now rewrite Z.land_ones by lia. Qed.

Lemma set_fields v :
  set v = {| p := v mod 2; wr := (v / 2) mod 2; us := (v / 4) mod 2;
             pwt := (v / 8) mod 2; pcd := (v / 16) mod 2;
             a := (v / 32) mod 2; d := (v / 64) mod 2;
             pat := (v / 128) mod 2; g := (v / 256) mod 2;
             avl := (v / 512) mod 8; base := (v / 4096) mod 1048576 |}.
Proof.
  unfold set.
  rewrite land_1_mod2,
    (field_extract v 1 1 0x1 2 2), (field_extract v 2 1 0x1 4 2),
    (field_extract v 3 1 0x1 8 2), (field_extract v 4 1 0x1 16 2),
    (field_extract v 5 1 0x1 32 2), (field_extract v 6 1 0x1 64 2),
    (field_extract v 7 1 0x1 128 2), (field_extract v 8 1 0x1 256 2),
    (field_extract v 9 3 0x7 512 8), (field_extract v 12 20 0xFFFFF 4096 1048576)
    by (reflexivity || lia).
  reflexivity.
Qed.

Lemma set_entry_value e : wf_entry e -> set (entry_value e) = e.
Proof.
  intros Hwf. unfold wf_entry in Hwf. change (2 ^ 20) with 1048576 in Hwf.
  rewrite set_fields.
  destruct e as [e0 e1 e2 e3 e4 e5 e6 e7 e8 e9 e12].
  unfold entry_value in *. cbn [p wr us pwt pcd a d pat g avl base] in *.
  f_equal; Z.div_mod_to_equations; lia.
Qed.

End PagingMore.

(** X1. A well-formed entry (every field within its bit width) reads back
    as the number its fields stand for, and storing that number gives the
    entry back: get is injective on entries and set undoes it. *)
Theorem X86PageEntry_set_get (e : Paging.X86PageEntry) :
  Paging.wf_entry e ->
  Paging.get e = Paging.entry_value e /\
  Paging.set (Paging.get e) = e /\
  0 <= Paging.get e < 2 ^ 32.
Proof.
  intros Hwf.
  assert (Hget : Paging.get e = Paging.entry_value e).
  { rewrite <- (set_entry_value e Hwf) at 1.
    apply get_set_eq. now apply entry_value_range. }
  rewrite Hget. split; [reflexivity |].
  split; [now apply set_entry_value | now apply entry_value_range].
Qed.

Lemma X86PageEntry_set_get_witness :
  Paging.wf_entry (Paging.set 0x00ABC067) /\
  Paging.set (Paging.get (Paging.set 0x00ABC067)) = Paging.set 0x00ABC067.
Proof.
  assert (Hwf : Paging.wf_entry (Paging.set 0x00ABC067))
    by (vm_compute; intuition discriminate).
  split; [exact Hwf |].
  exact (proj1 (proj2 (X86PageEntry_set_get _ Hwf))).
Defined.

(** X2. Whatever number is stored, the fields [set] produces are within
    their bit widths, the present bit is the parity of the value and the
    base field is the page frame number, the value divided by the page
    size. *)
Theorem X86PageEntry_set_fields (v : Z) :
  Paging.wf_entry (Paging.set v) /\
  Paging.p (Paging.set v) = v mod 2 /\
  (0 <= v < 2 ^ 32 -> Paging.base (Paging.set v) = v / Paging.MEM_PAGE_SIZE).
Proof.
  rewrite set_fields. unfold Paging.wf_entry, Paging.MEM_PAGE_SIZE.
  cbn [Paging.p Paging.wr Paging.us Paging.pwt Paging.pcd Paging.a Paging.d
       Paging.pat Paging.g Paging.avl Paging.base].
  change (2 ^ 20) with 1048576.
  repeat split; try (apply Z.mod_pos_bound; lia).
  intros Hv. apply Z.mod_small. change (2 ^ 32) with 4294967296 in Hv.
  Z.div_mod_to_equations. lia.
Qed.

Lemma X86PageEntry_set_fields_witness :
  0 <= 0x00ABC067 < 2 ^ 32 /\
  Paging.base (Paging.set 0x00ABC067) = 0x00ABC067 / Paging.MEM_PAGE_SIZE.
Proof.
  split; [lia |].
  apply (proj2 (proj2 (X86PageEntry_set_fields 0x00ABC067))). lia.
Defined.

(** X3. Every 32-bit address indexes the translation tables inside their
    TLB_SIZE entries, and the five accessors use that one index. *)
Theorem tlb_index_in_bounds {X : Type} (m : Paging.Machine X) (address : Z) :
  0 <= address < 2 ^ 32 ->
  let i := Paging.page_of address in
  0 <= i < Paging.TLB_SIZE /\
  Paging.get_tlb_read m address = Paging.read (Paging.tlb (Paging.paging m)) i /\
  Paging.get_tlb_write m address = Paging.write (Paging.tlb (Paging.paging m)) i /\
  Paging.get_tlb_readhandler m address
  = Paging.readhandler (Paging.tlb (Paging.paging m)) i /\
  Paging.get_tlb_writehandler m address
  = Paging.writehandler (Paging.tlb (Paging.paging m)) i /\
  Paging.PAGING_GetPhysicalPage m address
  = u32 (Z.shiftl (Paging.phys_page (Paging.tlb (Paging.paging m)) i) 12).
Proof.
  intros Ha i. split; [| repeat split].
  subst i. rewrite page_of_div. unfold Paging.TLB_SIZE.
  change (2 ^ 32) with 4294967296 in Ha. Z.div_mod_to_equations. lia.
Qed.

Lemma tlb_index_in_bounds_witness :
  0 <= 0xFFFFFFFF < 2 ^ 32 /\
  0 <= Paging.page_of 0xFFFFFFFF < Paging.TLB_SIZE.
Proof.
  split; [lia |].
  exact (proj1 (tlb_index_in_bounds Samples.sample_machine 0xFFFFFFFF
                  ltac:(lia))).
Defined.

(** X4. The physical address of a linear address is the physical page
    base plus the unchanged page offset; the page base is page aligned and
    both are 32-bit values. *)
Theorem physical_address_split {X : Type} (m : Paging.Machine X) (linAddr : Z) :
  0 <= linAddr < 2 ^ 32 ->
  Paging.PAGING_GetPhysicalAddress m linAddr
  = Paging.PAGING_GetPhysicalPage m linAddr + linAddr mod Paging.MEM_PAGE_SIZE /\
  Paging.PAGING_GetPhysicalPage m linAddr mod Paging.MEM_PAGE_SIZE = 0 /\
  Paging.PAGING_GetPhysicalAddress m linAddr mod Paging.MEM_PAGE_SIZE
  = linAddr mod Paging.MEM_PAGE_SIZE /\
  0 <= Paging.PAGING_GetPhysicalAddress m linAddr < 2 ^ 32.
Proof.
  intros Ha. unfold Paging.PAGING_GetPhysicalAddress, Paging.PAGING_GetPhysicalPage,
    Paging.MEM_PAGE_SIZE.
  set (pp := Paging.phys_page (Paging.tlb (Paging.paging m)) (Z.shiftr linAddr 12)).
  rewrite land_fff.
  assert (Hpage : u32 (Z.shiftl pp 12) mod 4096 = 0).
  { unfold u32. rewrite Z.shiftl_mul_pow2 by lia.
    change (2 ^ 12) with 4096. change (2 ^ 32) with 4294967296.
    Z.div_mod_to_equations. lia. }
  assert (Hdisj : Z.land (u32 (Z.shiftl pp 12)) (linAddr mod 4096) = 0).
  { apply Z.bits_inj'. intros n Hn. rewrite Z.land_spec, Z.bits_0.
    destruct (Z.lt_ge_cases n 12).
    - replace (Z.testbit (u32 (Z.shiftl pp 12)) n) with false; [reflexivity |].
      symmetry. unfold u32. rewrite Z.testbit_mod_pow2, Z.shiftl_spec by lia.
      rewrite (Z.testbit_neg_r pp (n - 12)) by lia. apply andb_false_r.
    - change 4096 with (2 ^ 12). rewrite Z.testbit_mod_pow2 by lia.
      destruct (Z.ltb_spec n 12); [lia |]. simpl. apply andb_false_r. }
  assert (Hsum : Z.lor (u32 (Z.shiftl pp 12)) (linAddr mod 4096)
                 = u32 (Z.shiftl pp 12) + linAddr mod 4096).
  { pose proof (Z.add_lor_land (u32 (Z.shiftl pp 12)) (linAddr mod 4096)) as H.
    rewrite Hdisj in H. lia. }
  rewrite Hsum. split; [reflexivity |]. split; [exact Hpage |].
  pose proof (u32_range (Z.shiftl pp 12)) as Hr.
  change (2 ^ 32) with 4294967296 in *.
  pose proof (Z.mod_pos_bound linAddr 4096 ltac:(lia)).
  split.
  - rewrite Z.add_mod, Hpage by lia. simpl. rewrite Z.mod_mod by lia.
    apply Z.mod_mod. lia.
  - Z.div_mod_to_equations. lia.
Qed.

Lemma physical_address_split_witness :
  0 <= 0x123 < 2 ^ 32 /\
  Paging.PAGING_GetPhysicalAddress Samples.sample_machine 0x123
  = Paging.PAGING_GetPhysicalPage Samples.sample_machine 0x123
    + 0x123 mod Paging.MEM_PAGE_SIZE.
Proof.
  split; [lia |].
  exact (proj1 (physical_address_split Samples.sample_machine 0x123 ltac:(lia))).
Defined.

(** X5. A naturally aligned word, dword or quadword access never takes the
    unaligned fallback: it is always served by the single-page dispatch. *)
Theorem aligned_access_single_page {X : Type} (E : Paging.Env X)
    (op_mode : Paging.MemOpMode) (address val : Z) (m : Paging.Machine X) :
  0 <= address < 2 ^ 32 ->
  let upd := fun size => Paging.update_breakpoints E op_mode size address m in
  (address mod 2 = 0 ->
   Paging.mem_readw_inline E op_mode address m
   = Paging.single_page_read E (Paging.host_readw E) Paging.readw address (upd 2) /\
   Paging.mem_writew_inline E address val m
   = Paging.single_page_write E (Paging.host_writew E) Paging.writew address val m) /\
  (address mod 4 = 0 ->
   Paging.mem_readd_inline E op_mode address m
   = Paging.single_page_read E (Paging.host_readd E) Paging.readd address (upd 4) /\
   Paging.mem_writed_inline E address val m
   = Paging.single_page_write E (Paging.host_writed E) Paging.writed address val m) /\
  (address mod 8 = 0 ->
   Paging.mem_readq_inline E op_mode address m
   = Paging.single_page_read E (Paging.host_readq E) Paging.readq address (upd 8) /\
   Paging.mem_writeq_inline E address val m
   = Paging.single_page_write E (Paging.host_writeq E) Paging.writeq address val m).
Proof.
  intros Ha upd.
  pose proof (land_fff address) as Hl.
  split; [| split]; intros Hal.
  - assert (Hin : (Z.land address 0xfff <? 0xfff) = true).
    { apply Z.ltb_lt. rewrite Hl. Z.div_mod_to_equations. lia. }
    unfold Paging.mem_readw_inline, Paging.mem_writew_inline. fold (upd 2).
    rewrite Hin. split; reflexivity.
  - assert (Hin : (Z.land address 0xfff <? 0xffd) = true).
    { apply Z.ltb_lt. rewrite Hl. Z.div_mod_to_equations. lia. }
    unfold Paging.mem_readd_inline, Paging.mem_writed_inline. fold (upd 4).
    rewrite Hin. split; reflexivity.
  - assert (Hin : (Z.land address 0xfff <? 0xff9) = true).
    { apply Z.ltb_lt. rewrite Hl. Z.div_mod_to_equations. lia. }
    unfold Paging.mem_readq_inline, Paging.mem_writeq_inline. fold (upd 8).
    rewrite Hin. split; reflexivity.
Qed.

Lemma aligned_access_single_page_witness :
  0 <= 0xFFC < 2 ^ 32 /\ 0xFFC mod 4 = 0 /\
  Paging.mem_readd_inline Samples.sample_env Paging.SkipBreakpoints 0xFFC
    Samples.sample_machine
  = Paging.single_page_read Samples.sample_env
      (Paging.host_readd Samples.sample_env) Paging.readd 0xFFC
      Samples.sample_machine.
Proof.
  split; [lia |]. split; [reflexivity |].
  exact (proj1 (proj1 (proj2 (aligned_access_single_page Samples.sample_env
           Paging.SkipBreakpoints 0xFFC 0 Samples.sample_machine ltac:(lia)))
           eq_refl)).
Defined.

(** X6. The checked word, dword and quadword variants split like the
    trapping ones: an access whose bytes lie in one page takes the checked
    single-page dispatch, one that straddles a page boundary the checked
    unaligned fallback of its width. *)
Theorem checked_wide_access_routing {X : Type} (E : Paging.Env X)
    (address old val : Z) (m : Paging.Machine X) :
  0 <= address < 2 ^ 32 ->
  Paging.mem_readw_checked E address old m
    = (if Paging.within_page address 2
       then Paging.single_page_read_checked E (Paging.host_readw E)
              Paging.readw_checked address old m
       else Paging.mem_unalignedreadw_checked E address old m) /\
  Paging.mem_readd_checked E address old m
    = (if Paging.within_page address 4
       then Paging.single_page_read_checked E (Paging.host_readd E)
              Paging.readd_checked address old m
       else Paging.mem_unalignedreadd_checked E address old m) /\
  Paging.mem_readq_checked E address old m
    = (if Paging.within_page address 8
       then Paging.single_page_read_checked E (Paging.host_readq E)
              Paging.readq_checked address old m
       else Paging.mem_unalignedreadq_checked E address old m) /\
  Paging.mem_writew_checked E address val m
    = (if Paging.within_page address 2
       then Paging.single_page_write_checked E (Paging.host_writew E)
              Paging.writew_checked address val m
       else Paging.mem_unalignedwritew_checked E address val m) /\
  Paging.mem_writed_checked E address val m
    = (if Paging.within_page address 4
       then Paging.single_page_write_checked E (Paging.host_writed E)
              Paging.writed_checked address val m
       else Paging.mem_unalignedwrited_checked E address val m) /\
  Paging.mem_writeq_checked E address val m
    = (if Paging.within_page address 8
       then Paging.single_page_write_checked E (Paging.host_writeq E)
              Paging.writeq_checked address val m
       else Paging.mem_unalignedwriteq_checked E address val m).
Proof.
  intros Ha.
  rewrite within_page_2, within_page_4, within_page_8 by assumption.
  repeat split; reflexivity.
Qed.

Lemma checked_wide_access_routing_witness :
  0 <= 0x1FFD < 2 ^ 32 /\
  Paging.mem_readd_checked Samples.sample_env 0x1FFD 7 Samples.sample_machine
  = Paging.mem_unalignedreadd_checked Samples.sample_env 0x1FFD 7
      Samples.sample_machine.
Proof.
  split; [lia |].
  exact (proj1 (proj2 (checked_wide_access_routing Samples.sample_env
                         0x1FFD 7 0 Samples.sample_machine ltac:(lia)))).
Defined.

(** X7. The test [flags & PFLAG_HASCODE] detects a page with 16-bit or with
    32-bit translated code and nothing else: it is non-zero exactly when bit
    3 (PFLAG_HASCODE32) or bit 6 (PFLAG_HASCODE16) is set, so none of
    PFLAG_READABLE, PFLAG_WRITEABLE, PFLAG_HASROM, PFLAG_NOCODE and
    PFLAG_INIT makes a page count as holding code. *)
Theorem PFLAG_HASCODE_test (flags : Z) :
  (Z.land flags Paging.PFLAG_HASCODE <> 0 <->
   Z.testbit flags 3 = true \/ Z.testbit flags 6 = true) /\
  Z.land (Z.lor Paging.PFLAG_READABLE (Z.lor Paging.PFLAG_WRITEABLE
           (Z.lor Paging.PFLAG_HASROM (Z.lor Paging.PFLAG_NOCODE
              Paging.PFLAG_INIT)))) Paging.PFLAG_HASCODE = 0.
Proof.
  split; [| reflexivity].
  assert (Hmask : forall n, 0 <= n ->
    Z.testbit Paging.PFLAG_HASCODE n = (n =? 3) || (n =? 6)).
  { intros n Hn. change Paging.PFLAG_HASCODE with (Z.lor (2 ^ 3) (2 ^ 6)).
    rewrite Z.lor_spec, !Z.pow2_bits_eqb by lia.
    now rewrite (Z.eqb_sym 3 n), (Z.eqb_sym 6 n). }
  split.
  - intros Hne.
    destruct (Z.testbit flags 3) eqn:H3; [now left |].
    destruct (Z.testbit flags 6) eqn:H6; [now right |].
    exfalso. apply Hne. apply Z.bits_inj'. intros n Hn.
    rewrite Z.land_spec, Z.bits_0, Hmask by assumption.
    destruct (Z.eqb_spec n 3) as [-> | ?]; [now rewrite H3 |].
    destruct (Z.eqb_spec n 6) as [-> | ?]; [now rewrite H6 |].
    apply andb_false_r.
  - intros [H3 | H6] H0.
    + assert (Hb := f_equal (fun z => Z.testbit z 3) H0). cbv beta in Hb.
      rewrite Z.land_spec, H3, Z.bits_0 in Hb. discriminate.
    + assert (Hb := f_equal (fun z => Z.testbit z 6) H0). cbv beta in Hb.
      rewrite Z.land_spec, H6, Z.bits_0 in Hb. discriminate.
Qed.

(** ** src/cpu/core_dynrec/dyn_fpu.h *)

Section FpuMore.

Import DynFpu.

Context {V : Type}.
Variable call_fpu : FpuFn -> list Z -> FPU_rec V -> FPU_rec V.
Variable clobber : FpuFn -> list Z -> (HostReg -> Z) -> HostReg -> Z.

Lemma move_keeps (f : FPU_rec V) mv :
  fregs (move f mv) = fregs f /\ tags (move f mv) = tags f /\
  cw (move f mv) = cw f /\ sw (move f mv) = sw f.
Proof. now destruct mv. Qed.

Lemma move_top (f : FPU_rec V) mv :
  top (move f mv) = (top f + match mv with Dec => -1 | Inc => 1 end) mod 8.
Proof. destruct mv; [apply FDECSTP_top | apply FINCSTP_top]. Qed.

Lemma net_moves_shift l : forall z,
  fold_left (fun z mv => match mv with Dec => z - 1 | Inc => z + 1 end) l z
  = z + net_moves l.
Proof.
  unfold net_moves. induction l as [| mv l IH]; intros z; simpl; [lia |].
  rewrite IH, (IH (match mv with Dec => 0 - 1 | Inc => 0 + 1 end)).
  destruct mv; lia.
Qed.

Lemma net_moves_cons mv l :
  net_moves (mv :: l) = match mv with Dec => -1 | Inc => 1 end + net_moves l.
Proof.
  unfold net_moves at 1. simpl. rewrite net_moves_shift. now destruct mv.
Qed.

Lemma moves_top l : forall f : FPU_rec V,
  top (moves f l) mod 8 = (top f + net_moves l) mod 8 /\
  fregs (moves f l) = fregs f /\ tags (moves f l) = tags f /\
  cw (moves f l) = cw f /\ sw (moves f l) = sw f.
Proof.
  induction l as [| mv l IH]; intros f.
  - simpl. rewrite Z.add_0_r. repeat split.
  - unfold moves. simpl. fold (moves (move f mv) l).
    destruct (IH (move f mv)) as (Ht & Hr & Htg & Hc & Hs).
    destruct (move_keeps f mv) as (Hr' & Htg' & Hc' & Hs').
    rewrite Hr, Htg, Hc, Hs. repeat split; try assumption.
    rewrite Ht, move_top, net_moves_cons, Zplus_mod_idemp_l.
    f_equal. lia.
Qed.

Lemma moves_top_range l (f : FPU_rec V) :
  0 <= top f < 8 -> 0 <= top (moves f l) < 8.
Proof.
  revert f. induction l as [| mv l IH]; intros f Hf; [assumption |].
  unfold moves. simpl. apply IH. rewrite move_top. apply Z.mod_pos_bound. lia.
Qed.

(** Checking a property of the generator on all eight groups and all 256
    ModRM bytes. *)
Lemma for_all_opcodes (P : Z -> Z -> bool) :
  forallb (fun n => forallb (fun b => P (Z.of_nat n) (Z.of_nat b)) (seq 0 256))
          (seq 0 8) = true ->
  forall n byte, 0 <= n < 8 -> 0 <= byte < 256 -> P n byte = true.
Proof.
  intros Hall n byte Hn Hb.
  rewrite forallb_forall in Hall.
  specialize (Hall (Z.to_nat n)). rewrite forallb_forall in Hall.
  specialize (Hall ltac:(apply in_seq; lia) (Z.to_nat byte)
                   ltac:(apply in_seq; lia)).
  now rewrite !Z2Nat.id in Hall by lia.
Qed.

Lemma exec_app c1 c2 (h : Host V) :
  exec call_fpu clobber (c1 ++ c2) h
  = exec call_fpu clobber c2 (exec call_fpu clobber c1 h).
Proof. unfold exec. apply fold_left_app. Qed.

(** Code without protect and restore leaves the stack of protected
    registers alone. *)
Lemma exec_saved_no_protect code : forall h : Host V,
  count uses_protect code = O ->
  saved (exec call_fpu clobber code h) = saved h.
Proof.
  unfold count. induction code as [| g code IH]; intros h Hc; [reflexivity |].
  simpl in Hc. destruct (uses_protect g) eqn:Hg; [discriminate |].
  change (saved (exec call_fpu clobber code (exec_gen call_fpu clobber g h))
          = saved h).
  rewrite IH by assumption.
  destruct g as [? ? ? | ? ? | ? ? | ? | ? | ? | ? ? | ? ? ? | ? | ? []];
    try discriminate; reflexivity.
Qed.

End FpuMore.

(** X8. Any run of FPU_FDECSTP and FPU_FINCSTP calls moves TOP by the net
    number of increments modulo 8 and touches nothing else of the FPU
    record; from a TOP in 0..7 it stays in 0..7. *)
Theorem fpu_top_moves {V : Type} (f : DynFpu.FPU_rec V)
    (l : list DynFpu.StackMove) :
  0 <= DynFpu.top f < 8 ->
  DynFpu.top (DynFpu.moves f l) = (DynFpu.top f + DynFpu.net_moves l) mod 8 /\
  0 <= DynFpu.top (DynFpu.moves f l) < 8 /\
  DynFpu.fregs (DynFpu.moves f l) = DynFpu.fregs f /\
  DynFpu.tags (DynFpu.moves f l) = DynFpu.tags f /\
  DynFpu.cw (DynFpu.moves f l) = DynFpu.cw f /\
  DynFpu.sw (DynFpu.moves f l) = DynFpu.sw f.
Proof.
  intros Hf. destruct (moves_top l f) as (Ht & Hrest).
  pose proof (moves_top_range l f Hf) as Hr.
  split; [| split; assumption].
  rewrite <- Ht. symmetry. apply Z.mod_small. assumption.
Qed.

Lemma fpu_top_moves_witness :
  0 <= DynFpu.top Samples.sample_fpu < 8 /\
  DynFpu.top (DynFpu.moves Samples.sample_fpu
                [DynFpu.Inc; DynFpu.Inc; DynFpu.Inc; DynFpu.Dec]) = 0.
Proof.
  split; [simpl; lia |].
  exact (proj1 (fpu_top_moves Samples.sample_fpu
                  [DynFpu.Inc; DynFpu.Inc; DynFpu.Inc; DynFpu.Dec]
                  ltac:(simpl; lia))).
Defined.

(** X9. The generator leaves through E_Exit for exactly two opcodes: escape
    group 3 with the register-direct ModRM bytes E6 and E7 (group 4,
    subfunctions 6 and 7).  Every other byte of every group, handled or
    only logged, returns normally. *)
Theorem dyn_fpu_exit_opcodes (n byte : Z) :
  0 <= n < 8 -> 0 <= byte < 256 ->
  (DynFpu.dyn_fpu_esc n (DynFpu.dyn_get_modrm byte) = DynFpu.E_Exit <->
   n = 3 /\ (byte = 0xE6 \/ byte = 0xE7)).
Proof.
  intros Hn Hb.
  pose proof (for_all_opcodes
    (fun n byte =>
       Bool.eqb
         match DynFpu.dyn_fpu_esc n (DynFpu.dyn_get_modrm byte) with
         | DynFpu.E_Exit => true | DynFpu.Code _ => false end
         ((n =? 3) && ((byte =? 0xE6) || (byte =? 0xE7))))
    ltac:(vm_compute; reflexivity) n byte Hn Hb) as Hall.
  cbv beta in Hall. apply Bool.eqb_prop in Hall.
  split.
  - intros He. rewrite He in Hall. symmetry in Hall.
    apply andb_true_iff in Hall. destruct Hall as [H3 Hor].
    apply orb_true_iff in Hor. rewrite !Z.eqb_eq in *. tauto.
  - intros [-> Hor].
    destruct (DynFpu.dyn_fpu_esc 3 (DynFpu.dyn_get_modrm byte)); [| reflexivity].
    exfalso. symmetry in Hall. rewrite andb_false_iff, orb_false_iff in Hall.
    rewrite !Z.eqb_neq in Hall. destruct Hor; subst; destruct Hall as [? | [? ?]];
      congruence.
Qed.

Lemma dyn_fpu_exit_opcodes_witness :
  0 <= 3 < 8 /\ 0 <= 0xE6 < 256 /\
  DynFpu.dyn_fpu_esc 3 (DynFpu.dyn_get_modrm 0xE6) = DynFpu.E_Exit.
Proof.
  split; [lia |]. split; [lia |].
  apply (proj2 (dyn_fpu_exit_opcodes 3 0xE6 ltac:(lia) ltac:(lia))).
  split; [reflexivity | left; reflexivity].
Defined.

(** X10. Code generated for a register-direct opcode never computes an
    effective address; code generated for a memory opcode computes it
    exactly once, unless the opcode is one of the unhandled ones, for which
    nothing at all is emitted. *)
Theorem dyn_fpu_effective_address_use (n byte : Z) :
  0 <= n < 8 -> 0 <= byte < 256 ->
  let code := DynFpu.emitted_code
                (DynFpu.dyn_fpu_esc n (DynFpu.dyn_get_modrm byte)) in
  (0xc0 <= byte -> DynFpu.count DynFpu.is_fill_ea code = O) /\
  (byte < 0xc0 ->
   DynFpu.count DynFpu.is_fill_ea code = 1%nat \/ code = []).
Proof.
  intros Hn Hb code.
  pose proof (for_all_opcodes
    (fun n byte =>
       let code := DynFpu.emitted_code
                     (DynFpu.dyn_fpu_esc n (DynFpu.dyn_get_modrm byte)) in
       let k := DynFpu.count DynFpu.is_fill_ea code in
       if 0xc0 <=? byte then Nat.eqb k 0
       else Nat.eqb k 1 || Nat.eqb (length code) 0)
    ltac:(vm_compute; reflexivity) n byte Hn Hb) as Hall.
  cbv beta zeta in Hall. fold code in Hall.
  split; intros Hbyte.
  - destruct (Z.leb_spec 0xc0 byte); [| lia]. now apply Nat.eqb_eq.
  - destruct (Z.leb_spec 0xc0 byte); [lia |].
    apply orb_true_iff in Hall. destruct Hall as [H1 | H0].
    + left. now apply Nat.eqb_eq.
    + right. apply Nat.eqb_eq in H0. now destruct code.
Qed.

Lemma dyn_fpu_effective_address_use_witness :
  0 <= 0 < 8 /\ 0 <= 0xc1 < 256 /\ 0xc0 <= 0xc1 /\
  DynFpu.count DynFpu.is_fill_ea
    (DynFpu.emitted_code (DynFpu.dyn_fpu_esc 0 (DynFpu.dyn_get_modrm 0xc1))) = O.
Proof.
  split; [lia |]. split; [lia |]. split; [lia |].
  apply (proj1 (dyn_fpu_effective_address_use 0 0xc1 ltac:(lia) ltac:(lia))).
  lia.
Defined.

(** X11. Generated code leaves the stack of protected host registers as it
    found it, for every group and ModRM byte: only FLD ST(i) (D9 C0..C7)
    protects a register, and it restores it after the call it spans. *)
Theorem dyn_fpu_protect_balanced {V : Type}
    (call_fpu : DynFpu.FpuFn -> list Z -> DynFpu.FPU_rec V -> DynFpu.FPU_rec V)
    (clobber : DynFpu.FpuFn -> list Z -> (DynFpu.HostReg -> Z) ->
               DynFpu.HostReg -> Z)
    (n byte : Z) (h : DynFpu.Host V) :
  0 <= n < 8 -> 0 <= byte < 256 ->
  let code := DynFpu.emitted_code
                (DynFpu.dyn_fpu_esc n (DynFpu.dyn_get_modrm byte)) in
  DynFpu.saved (DynFpu.exec call_fpu clobber code h) = DynFpu.saved h /\
  (DynFpu.count DynFpu.uses_protect code <> O ->
   n = 1 /\ 0xc0 <= byte <= 0xc7).
Proof.
  intros Hn Hb code.
  pose proof (for_all_opcodes
    (fun n byte =>
       let code := DynFpu.emitted_code
                     (DynFpu.dyn_fpu_esc n (DynFpu.dyn_get_modrm byte)) in
       Nat.eqb (DynFpu.count DynFpu.uses_protect code) 0
       || ((n =? 1) && (0xc0 <=? byte) && (byte <=? 0xc7)))
    ltac:(vm_compute; reflexivity) n byte Hn Hb) as Hall.
  cbv beta zeta in Hall. fold code in Hall.
  apply orb_true_iff in Hall. destruct Hall as [H0 | Hfld].
  - apply Nat.eqb_eq in H0. split; [| congruence].
    now apply exec_saved_no_protect.
  - rewrite !andb_true_iff, Z.eqb_eq, !Z.leb_le in Hfld.
    destruct Hfld as [[-> Hlo] Hhi]. split; [| intros _; split; [reflexivity | lia]].
    assert (Hcase : byte = 0xc0 \/ byte = 0xc1 \/ byte = 0xc2 \/ byte = 0xc3 \/
                    byte = 0xc4 \/ byte = 0xc5 \/ byte = 0xc6 \/ byte = 0xc7)
      by lia.
    subst code.
    repeat (destruct Hcase as [Hcase | Hcase]); subst byte; reflexivity.
Qed.

Lemma dyn_fpu_protect_balanced_witness :
  0 <= 1 < 8 /\ 0 <= 0xc2 < 256 /\
  DynFpu.saved
    (DynFpu.exec Samples.sample_call Samples.sample_clobber
       (DynFpu.emitted_code (DynFpu.dyn_fpu_esc 1 (DynFpu.dyn_get_modrm 0xc2)))
       Samples.sample_host)
  = DynFpu.saved Samples.sample_host.
Proof.
  split; [lia |]. split; [lia |].
  exact (proj1 (dyn_fpu_protect_balanced Samples.sample_call
                  Samples.sample_clobber 1 0xc2 Samples.sample_host
                  ltac:(lia) ltac:(lia))).
Defined.

(** X12. How often the register-direct opcodes of escape group 6 pop: once
    after their operation, twice for FCOMPP (DE D9); the other bytes of
    FCOMPP's row (DE D8, DE DA..DF) return before anything is emitted.
    FUCOMPP (DA E9) pops twice as well. *)
Theorem dyn_fpu_pop_counts (byte : Z) :
  0xc0 <= byte < 256 ->
  let pops := fun n =>
    DynFpu.count (DynFpu.calls_fn DynFpu.FN_FPOP)
      (DynFpu.emitted_code (DynFpu.dyn_fpu_esc n (DynFpu.dyn_get_modrm byte))) in
  (byte = 0xd9 -> pops 6 = 2%nat) /\
  (0xd8 <= byte <= 0xdf -> byte <> 0xd9 ->
   DynFpu.dyn_fpu_esc 6 (DynFpu.dyn_get_modrm byte) = DynFpu.Code []) /\
  (byte < 0xd8 \/ 0xdf < byte -> pops 6 = 1%nat) /\
  (byte = 0xe9 -> pops 2 = 2%nat).
Proof.
  intros Hb pops.
  pose proof (for_all_opcodes
    (fun n byte =>
       let e := DynFpu.dyn_fpu_esc n (DynFpu.dyn_get_modrm byte) in
       let k := DynFpu.count (DynFpu.calls_fn DynFpu.FN_FPOP)
                  (DynFpu.emitted_code e) in
       if (n =? 6) && (0xc0 <=? byte) then
         if byte =? 0xd9 then Nat.eqb k 2
         else if (0xd8 <=? byte) && (byte <=? 0xdf)
              then match e with DynFpu.Code [] => true | _ => false end
              else Nat.eqb k 1
       else if (n =? 2) && (byte =? 0xe9) then Nat.eqb k 2 else true)
    ltac:(vm_compute; reflexivity)) as Hall.
  subst pops. cbv beta. split; [| split; [| split]].
  - intros ->. now apply Nat.eqb_eq, (Hall 6 0xd9).
  - intros Hrow Hne. specialize (Hall 6 byte ltac:(lia) ltac:(lia)).
    cbv beta zeta in Hall.
    replace (0xc0 <=? byte) with true in Hall by (symmetry; apply Z.leb_le; lia).
    replace (byte =? 0xd9) with false in Hall by (symmetry; apply Z.eqb_neq; lia).
    replace (0xd8 <=? byte) with true in Hall by (symmetry; apply Z.leb_le; lia).
    replace (byte <=? 0xdf) with true in Hall by (symmetry; apply Z.leb_le; lia).
    change (6 =? 6) with true in Hall. cbn [andb] in Hall.
    destruct (DynFpu.dyn_fpu_esc 6 (DynFpu.dyn_get_modrm byte)) as [[| ? ?] |];
      [reflexivity | discriminate Hall | discriminate Hall].
  - intros Hout. specialize (Hall 6 byte ltac:(lia) ltac:(lia)).
    cbv beta zeta in Hall.
    replace (0xc0 <=? byte) with true in Hall by (symmetry; apply Z.leb_le; lia).
    replace (byte =? 0xd9) with false in Hall by (symmetry; apply Z.eqb_neq; lia).
    replace ((0xd8 <=? byte) && (byte <=? 0xdf)) with false in Hall.
    + now apply Nat.eqb_eq.
    + symmetry. apply andb_false_iff. rewrite Z.leb_gt, Z.leb_gt. lia.
  - intros ->. now apply Nat.eqb_eq, (Hall 2 0xe9).
Qed.

Lemma dyn_fpu_pop_counts_witness :
  0xc0 <= 0xd9 < 256 /\
  DynFpu.count (DynFpu.calls_fn DynFpu.FN_FPOP)
    (DynFpu.emitted_code (DynFpu.dyn_fpu_esc 6 (DynFpu.dyn_get_modrm 0xd9)))
  = 2%nat.
Proof.
  split; [lia |].
  exact (proj1 (dyn_fpu_pop_counts 0xd9 ltac:(lia)) eq_refl).
Defined.

Section FpuGeneratedEffects.

Import DynFpu.

Context {V : Type}.
Variable call_fpu : FpuFn -> list Z -> FPU_rec V -> FPU_rec V.
Variable clobber : FpuFn -> list Z -> (HostReg -> Z) -> HostReg -> Z.

(** The ModRM byte of a register-direct opcode, by its fields. *)
Lemma modrm_register_direct rg r :
  0 <= rg < 8 -> 0 <= r < 8 ->
  mod_ (dyn_get_modrm (0xc0 + 8 * rg + r)) = 3 /\
  reg (dyn_get_modrm (0xc0 + 8 * rg + r)) = rg /\
  rm (dyn_get_modrm (0xc0 + 8 * rg + r)) = r.
Proof.
  intros Hrg Hr. unfold dyn_get_modrm. simpl.
  rewrite !Z.shiftr_div_pow2 by lia. rewrite !land_7_mod8.
  change 3 with (Z.ones 2) at 1. rewrite Z.land_ones by lia.
  change (2 ^ 6) with 64. change (2 ^ 3) with 8. change (2 ^ 2) with 4.
  repeat split; Z.div_mod_to_equations; lia.
Qed.

End FpuGeneratedEffects.

(** X13. Running the code generated for FFREE ST(i) (DD C0+i) empties the
    tag of physical slot (TOP + i) mod 8, leaves the tag of every other
    slot, and does not move TOP. *)
Theorem dyn_fpu_ffree_effect {V : Type}
    (call_fpu : DynFpu.FpuFn -> list Z -> DynFpu.FPU_rec V -> DynFpu.FPU_rec V)
    (clobber : DynFpu.FpuFn -> list Z -> (DynFpu.HostReg -> Z) ->
               DynFpu.HostReg -> Z)
    (i : Z) (h : DynFpu.Host V) :
  0 <= i < 8 ->
  let code := DynFpu.emitted_code
                (DynFpu.dyn_fpu_esc 5 (DynFpu.dyn_get_modrm (0xc0 + i))) in
  let f' := DynFpu.fpu (DynFpu.exec call_fpu clobber code h) in
  let slot := (DynFpu.top (DynFpu.fpu h) + i) mod 8 in
  DynFpu.tags f' slot = DynFpu.TAG_Empty /\
  (forall st, st <> slot ->
     DynFpu.tags f' st = DynFpu.tags (DynFpu.fpu h) st) /\
  DynFpu.top f' = DynFpu.top (DynFpu.fpu h).
Proof.
  intros Hi code f' slot.
  destruct (modrm_register_direct 0 i ltac:(lia) Hi) as (Hmod & Hreg & Hrm).
  replace (0xc0 + 8 * 0 + i) with (0xc0 + i) in * by lia.
  assert (Hf : f' = DynFpu.FPU_FFREE slot (DynFpu.fpu h)).
  { assert (Hcode : code = DynFpu.dyn_fpu_top (DynFpu.dyn_get_modrm (0xc0 + i))
                            ++ [DynFpu.gen_call_function_R DynFpu.FN_FFREE
                                  DynFpu.FC_OP2]).
    { subst code. unfold DynFpu.dyn_fpu_esc, DynFpu.dyn_fpu_esc5.
      rewrite Hmod, Hreg. reflexivity. }
    subst f'. rewrite Hcode, exec_app.
    destruct (dyn_fpu_top_regs call_fpu clobber
                (DynFpu.dyn_get_modrm (0xc0 + i)) h)
      as (_ & H2 & Hfpu & _).
    cbv zeta in H2, Hfpu.
    set (h1 := DynFpu.exec call_fpu clobber
                 (DynFpu.dyn_fpu_top (DynFpu.dyn_get_modrm (0xc0 + i))) h) in *.
    change (DynFpu.fpu (DynFpu.exec call_fpu clobber
              [DynFpu.gen_call_function_R DynFpu.FN_FFREE DynFpu.FC_OP2] h1))
      with (DynFpu.FPU_FFREE (DynFpu.hreg h1 DynFpu.FC_OP2) (DynFpu.fpu h1)).
    rewrite H2, Hfpu, Hrm. reflexivity. }
  rewrite Hf. unfold DynFpu.FPU_FFREE. simpl.
  split; [apply fn_lookup_insert |].
  split; [| reflexivity].
  intros st Hne. apply fn_lookup_insert_ne. congruence.
Qed.

Lemma dyn_fpu_ffree_effect_witness :
  0 <= 3 < 8 /\
  DynFpu.tags
    (DynFpu.fpu
       (DynFpu.exec Samples.sample_call Samples.sample_clobber
          (DynFpu.emitted_code
             (DynFpu.dyn_fpu_esc 5 (DynFpu.dyn_get_modrm (0xc0 + 3))))
          Samples.sample_host)) ((6 + 3) mod 8)
  = DynFpu.TAG_Empty.
Proof.
  split; [lia |].
  exact (proj1 (dyn_fpu_ffree_effect Samples.sample_call Samples.sample_clobber
                  3 Samples.sample_host ltac:(lia))).
Defined.

(** X14. FDECSTP (D9 F6) and FINCSTP (D9 F7) are generated as one call
    each, and running it rotates TOP by one: to (TOP - 1) mod 8 and to
    (TOP + 1) mod 8. *)
Theorem dyn_fpu_stp_effect {V : Type}
    (call_fpu : DynFpu.FpuFn -> list Z -> DynFpu.FPU_rec V -> DynFpu.FPU_rec V)
    (clobber : DynFpu.FpuFn -> list Z -> (DynFpu.HostReg -> Z) ->
               DynFpu.HostReg -> Z)
    (h : DynFpu.Host V) :
  let run := fun byte =>
    DynFpu.exec call_fpu clobber
      (DynFpu.emitted_code (DynFpu.dyn_fpu_esc 1 (DynFpu.dyn_get_modrm byte))) h in
  DynFpu.fpu (run 0xf6) = DynFpu.FPU_FDECSTP (DynFpu.fpu h) /\
  DynFpu.top (DynFpu.fpu (run 0xf6)) = (DynFpu.top (DynFpu.fpu h) - 1) mod 8 /\
  DynFpu.calls (run 0xf6) = (DynFpu.FN_FDECSTP, []) :: DynFpu.calls h /\
  DynFpu.fpu (run 0xf7) = DynFpu.FPU_FINCSTP (DynFpu.fpu h) /\
  DynFpu.top (DynFpu.fpu (run 0xf7)) = (DynFpu.top (DynFpu.fpu h) + 1) mod 8 /\
  DynFpu.calls (run 0xf7) = (DynFpu.FN_FINCSTP, []) :: DynFpu.calls h.
Proof.
  intros run. subst run. cbv beta.
  change (DynFpu.emitted_code (DynFpu.dyn_fpu_esc 1 (DynFpu.dyn_get_modrm 0xf6)))
    with [DynFpu.gen_call_function_raw DynFpu.FN_FDECSTP].
  change (DynFpu.emitted_code (DynFpu.dyn_fpu_esc 1 (DynFpu.dyn_get_modrm 0xf7)))
    with [DynFpu.gen_call_function_raw DynFpu.FN_FINCSTP].
  simpl DynFpu.exec. unfold DynFpu.do_call. simpl DynFpu.fpu. simpl DynFpu.calls.
  rewrite FDECSTP_top, FINCSTP_top. repeat split.
Qed.

(** X15. FNSTSW AX (DF E0) stores in AX the low 16 bits of the status word
    as FPU_SET_TOP left it, and FPU_SET_TOP is called with the current TOP:
    the status word is read after TOP was written into it. *)
Theorem dyn_fpu_fnstsw_ax {V : Type}
    (call_fpu : DynFpu.FpuFn -> list Z -> DynFpu.FPU_rec V -> DynFpu.FPU_rec V)
    (clobber : DynFpu.FpuFn -> list Z -> (DynFpu.HostReg -> Z) ->
               DynFpu.HostReg -> Z)
    (h : DynFpu.Host V) :
  let h' := DynFpu.exec call_fpu clobber
              (DynFpu.emitted_code
                 (DynFpu.dyn_fpu_esc 7 (DynFpu.dyn_get_modrm 0xe0))) h in
  let synced := call_fpu DynFpu.FN_SET_TOP [u32 (DynFpu.top (DynFpu.fpu h))]
                  (DynFpu.fpu h) in
  DynFpu.guest_ax h' = u16 (DynFpu.sw synced) /\
  DynFpu.fpu h' = synced /\
  DynFpu.calls h'
  = (DynFpu.FN_SET_TOP, [u32 (DynFpu.top (DynFpu.fpu h))]) :: DynFpu.calls h.
Proof.
  intros h' synced. subst h' synced.
  change (DynFpu.emitted_code (DynFpu.dyn_fpu_esc 7 (DynFpu.dyn_get_modrm 0xe0)))
    with [ DynFpu.gen_mov_word_to_reg DynFpu.FC_OP1 DynFpu.VAR_TOP true;
           DynFpu.gen_call_function_R DynFpu.FN_SET_TOP DynFpu.FC_OP1;
           DynFpu.gen_mov_word_to_reg DynFpu.FC_OP1 DynFpu.VAR_fpu_sw false;
           DynFpu.MOV_REG_WORD16_FROM_HOST_REG DynFpu.FC_OP1 DynFpu.DRC_REG_EAX ].
  simpl. rewrite !fn_lookup_insert.
  split; [| split; reflexivity].
  unfold u16. apply Z.mod_mod. lia.
Qed.
(** X16. The memory forms of the arithmetic groups (escapes 0, 2, 4 and 6
    with a ModRM byte below C0) generate two helper calls in this order.
    The first is the load of the memory operand at the effective address:
    FPU_FLD_F32_EA for escape 0, FPU_FLD_I32_EA for 2, FPU_FLD_F64_EA for 4
    and FPU_FLD_I16_EA for 6.  The second is the arithmetic helper chosen by
    the reg field (FADD, FMUL, FCOM, FCOM, FSUB, FSUBR, FDIV, FDIVR, each
    in its _EA form), called with TOP as the load left it.  FCOMP (reg
    field 3), and only it, pops afterwards. *)
Theorem dyn_fpu_memory_arithmetic {V : Type}
    (call_fpu : DynFpu.FpuFn -> list Z -> DynFpu.FPU_rec V -> DynFpu.FPU_rec V)
    (clobber : DynFpu.FpuFn -> list Z -> (DynFpu.HostReg -> Z) ->
               DynFpu.HostReg -> Z)
    (n byte : Z) (h : DynFpu.Host V) :
  n = 0 \/ n = 2 \/ n = 4 \/ n = 6 ->
  0 <= byte < 0xc0 ->
  DynFpu.calls h = [] ->
  let m := DynFpu.dyn_get_modrm byte in
  let h' := DynFpu.exec call_fpu clobber
              (DynFpu.emitted_code (DynFpu.dyn_fpu_esc n m)) h in
  let load :=
    match n with
    | 0 => DynFpu.FN_FLD_F32_EA
    | 2 => DynFpu.FN_FLD_I32_EA
    | 4 => DynFpu.FN_FLD_F64_EA
    | _ => DynFpu.FN_FLD_I16_EA
    end in
  let op :=
    match DynFpu.reg m with
    | 0 => DynFpu.FN_FADD_EA
    | 1 => DynFpu.FN_FMUL_EA
    | 2 | 3 => DynFpu.FN_FCOM_EA
    | 4 => DynFpu.FN_FSUB_EA
    | 5 => DynFpu.FN_FSUBR_EA
    | 6 => DynFpu.FN_FDIV_EA
    | _ => DynFpu.FN_FDIVR_EA
    end in
  0 <= DynFpu.reg m < 8 /\
  rev (DynFpu.calls h')
  = (load, [DynFpu.ea h])
    :: (op, [u32 (DynFpu.top (call_fpu load [DynFpu.ea h] (DynFpu.fpu h)))])
    :: (if DynFpu.reg m =? 3 then [(DynFpu.FN_FPOP, [])] else []).
Proof.
  intros Hn Hb Hc m h' load op.
  assert (Hmod : (DynFpu.mod_ m =? 3) = false).
  { apply Z.eqb_neq. subst m. unfold DynFpu.dyn_get_modrm. simpl.
    rewrite Z.shiftr_div_pow2 by lia. change 3 with (Z.ones 2) at 1.
    rewrite Z.land_ones by lia. change (2 ^ 6) with 64. change (2 ^ 2) with 4.
    Z.div_mod_to_equations. lia. }
  assert (Hrg : 0 <= DynFpu.reg m < 8).
  { subst m. simpl. rewrite land_7_mod8. apply Z.mod_pos_bound. lia. }
  assert (Hrg7 : Z.land (DynFpu.reg m) 7 = DynFpu.reg m).
  { rewrite land_7_mod8. apply Z.mod_small. assumption. }
  assert (Hcase : DynFpu.reg m = 0 \/ DynFpu.reg m = 1 \/ DynFpu.reg m = 2 \/
                  DynFpu.reg m = 3 \/ DynFpu.reg m = 4 \/ DynFpu.reg m = 5 \/
                  DynFpu.reg m = 6 \/ DynFpu.reg m = 7) by lia.
  split; [exact Hrg |].
  subst h' load op.
  destruct Hn as [-> | [-> | [-> | ->]]];
    unfold DynFpu.dyn_fpu_esc, DynFpu.dyn_fpu_esc0, DynFpu.dyn_fpu_esc2,
      DynFpu.dyn_fpu_esc4, DynFpu.dyn_fpu_esc6, DynFpu.dyn_eatree;
    rewrite Hmod, Hrg7;
    repeat (destruct Hcase as [Hcase | Hcase]);
    rewrite Hcase; simpl; rewrite Hc; simpl;
    repeat (rewrite fn_lookup_insert
            || rewrite fn_lookup_insert_ne by discriminate);
    reflexivity.
Qed.

(** D8 /3 with a memory operand (FCOMP m32real, ModRM byte 1E) on the
    sample host: the 32-bit real load at the effective address 0x2000, the
    compare, and the pop. *)
Lemma dyn_fpu_memory_arithmetic_witness :
  exists arg,
    rev (DynFpu.calls
           (DynFpu.exec Samples.sample_call Samples.sample_clobber
              (DynFpu.emitted_code
                 (DynFpu.dyn_fpu_esc 0 (DynFpu.dyn_get_modrm 0x1e)))
              Samples.sample_host))
    = [(DynFpu.FN_FLD_F32_EA, [0x2000]); (DynFpu.FN_FCOM_EA, [arg]);
       (DynFpu.FN_FPOP, [])].
Proof.
  eexists.
  exact (proj2 (dyn_fpu_memory_arithmetic Samples.sample_call
                  Samples.sample_clobber 0 0x1e Samples.sample_host
                  (or_introl eq_refl) ltac:(lia) eq_refl)).
Defined.

(** ** src/cpu/core_normal/prefix_0f.h *)

Section Prefix0FMore.

Import Prefix0F.

Context {M L : Type} (C : Core M L).

Lemma land_pow2_test a n :
  0 <= n -> (Z.land a (2 ^ n) =? 0) = negb (Z.testbit a n).
Proof.
  intros Hn. destruct (Z.testbit a n) eqn:Hb; simpl.
  - apply Z.eqb_neq. intros H0.
    assert (Hbit := f_equal (fun z => Z.testbit z n) H0). cbv beta in Hbit.
    rewrite Z.land_spec, Hb, Z.pow2_bits_true, Z.bits_0 in Hbit by lia.
    discriminate.
  - apply Z.eqb_eq. apply Z.bits_inj'. intros j Hj.
    rewrite Z.land_spec, Z.bits_0, Z.pow2_bits_eqb by lia.
    destruct (Z.eqb_spec n j) as [<- | ?]; [now rewrite Hb |].
    apply andb_false_r.
Qed.

Lemma bits_range16 z :
  (forall n, 16 <= n -> Z.testbit z n = false) -> 0 <= z < 2 ^ 16.
Proof.
  intros Hhigh.
  assert (Hz : z = z mod 2 ^ 16).
  { apply Z.bits_inj'. intros n Hn. rewrite Z.testbit_mod_pow2 by lia.
    destruct (Z.ltb_spec n 16); simpl; [reflexivity | now apply Hhigh]. }
  rewrite Hz. apply Z.mod_pos_bound. lia.
Qed.

(** The mask of a bit instruction is the power of two of the bit number. *)
Lemma bit_mask k : 0 <= k < 16 -> u16 (Z.shiftl 1 k) = 2 ^ k.
Proof.
  intros Hk. rewrite Z.shiftl_1_l. apply u16_small.
  split; [apply Z.pow_nonneg; lia | apply Z.pow_lt_mono_r; lia].
Qed.

Lemma land_15_range g : 0 <= Z.land g 15 < 16.
Proof.
  change 15 with (Z.ones 4). rewrite Z.land_ones by lia.
  apply Z.mod_pos_bound. lia.
Qed.

(** Bit [j] of the operand after a bit instruction on bit [k]. *)
Lemma bit_result_spec op old k j :
  0 <= k -> 0 <= j ->
  Z.testbit (bit_result op old (2 ^ k)) j
  = match op with
    | BT => Z.testbit old j
    | BTS => Z.testbit old j || (j =? k)
    | BTR => Z.testbit old j && negb (j =? k)
    | BTC => xorb (Z.testbit old j) (j =? k)
    end.
Proof.
  intros Hk Hj. rewrite (Z.eqb_sym j k).
  destruct op; simpl;
    rewrite ?Z.lor_spec, ?Z.land_spec, ?Z.lxor_spec, ?Z.lnot_spec,
      ?Z.pow2_bits_eqb by lia; reflexivity.
Qed.

Lemma bit_result_range op old k :
  0 <= old < 2 ^ 16 -> 0 <= k < 16 ->
  0 <= bit_result op old (2 ^ k) < 2 ^ 16.
Proof.
  intros Hold Hk. apply bits_range16. intros n Hn.
  rewrite bit_result_spec by lia.
  rewrite (testbit_high 16 old n) by lia.
  destruct (Z.eqb_spec n k); [lia |]. now destruct op.
Qed.

(** The scan from the top finds the highest set bit. *)
Lemma bsr_loop_spec (fuel : nat) :
  forall value result,
    0 < value < 2 ^ 16 ->
    15 - Z.log2 value < Z.of_nat fuel ->
    15 - Z.log2 value <= result <= 15 ->
    bsr_loop fuel value result = Some (result - (15 - Z.log2 value)).
Proof.
  induction fuel as [| fuel IH]; intros value result Hv Hf Hr.
  - assert (Z.log2 value < 16) by (apply Z.log2_lt_pow2; lia). lia.
  - cbn [bsr_loop]. change 0x8000 with (2 ^ 15).
    rewrite land_pow2_test by lia.
    assert (Hlog : Z.log2 value < 16) by (apply Z.log2_lt_pow2; lia).
    destruct (Z.testbit value 15) eqn:Hb; simpl.
    + assert (Z.log2 value = 15).
      { destruct (Z.eq_dec (Z.log2 value) 15); [assumption |].
        rewrite Z.bits_above_log2 in Hb by lia. discriminate. }
      f_equal. lia.
    + assert (Hlt : Z.log2 value < 15).
      { destruct (Z.eq_dec (Z.log2 value) 15) as [He | ?]; [| lia].
        rewrite <- He, Z.bit_log2 in Hb by lia. discriminate. }
      assert (Hsmall : value < 2 ^ 15) by (apply Z.log2_lt_pow2; lia).
      assert (Hdouble : u16 (Z.shiftl value 1) = 2 * value).
      { rewrite Z.shiftl_mul_pow2 by lia. change (2 ^ 1) with 2.
        rewrite u16_small; [lia |]. change (2 ^ 15) with 32768 in Hsmall.
        change (2 ^ 16) with 65536. lia. }
      assert (Hl2 : Z.log2 (2 * value) = Z.log2 value + 1).
      { rewrite Z.log2_double by lia. lia. }
      rewrite Hdouble, (u16_small (result - 1)) by lia.
      rewrite IH.
      * f_equal. lia.
      * change (2 ^ 15) with 32768 in Hsmall. change (2 ^ 16) with 65536. lia.
      * lia.
      * lia.
Qed.

Lemma s8_signed x : 0 <= x < 256 -> -128 <= s8 x < 128 /\ s8 x mod 256 = x.
Proof.
  intros Hx. unfold s8. destruct (Z.ltb_spec x 0x80); split; try lia.
  - apply Z.mod_small. lia.
  - Z.div_mod_to_equations. lia.
Qed.

End Prefix0FMore.

(** X17. BSR Gw,Ew.  On a zero source ZF is set and no register changes;
    otherwise the loop ends, ZF is cleared and the destination receives the
    index of the highest set bit of the source, which is its binary
    logarithm. *)
Theorem bsr_semantics {M L : Type} (C : Prefix0F.Core M L) (fuel : nat)
    (s0 : Prefix0F.Cpu M L) :
  (16 <= fuel)%nat ->
  let rm := u8 (Prefix0F.LoadMb C (Prefix0F.cseip s0) (Prefix0F.mem s0)) in
  let s1 := Prefix0F.with_cseip s0 (Prefix0F.cseip s0 + 1) in
  let value := fst (Prefix0F.load_Ew C rm s1) in
  (value = 0 ->
   exists s', Prefix0F.op_0f_bd C fuel s0 = Prefix0F.Next s' /\
     Prefix0F.get_flag Prefix0F.FLAG_ZF s' = true /\
     Prefix0F.regs s' = Prefix0F.regs s0) /\
  (value <> 0 ->
   exists s', Prefix0F.op_0f_bd C fuel s0 = Prefix0F.Next s' /\
     Prefix0F.get_flag Prefix0F.FLAG_ZF s' = false /\
     Prefix0F.get16 s' (Prefix0F.reg_field rm) = Z.log2 value /\
     Z.testbit value (Z.log2 value) = true /\
     (forall j, Z.log2 value < j -> Z.testbit value j = false)).
Proof.
  intros Hfuel rm s1 value.
  destruct (load_Ew_keeps C rm s1) as (Hr & Hm & Hrange). fold value in Hrange.
  assert (Hrun : Prefix0F.op_0f_bd C fuel s0
    = let s := snd (Prefix0F.load_Ew C rm s1) in
      if value =? 0 then
        let s := Prefix0F.SETFLAGBIT Prefix0F.FLAG_ZF true s in
        Prefix0F.Next (Prefix0F.with_lflags s
                         (Prefix0F.set_type_UNKNOWN C (Prefix0F.lflags s)))
      else
        match Prefix0F.bsr_loop fuel value 15 with
        | None => Prefix0F.Hang s
        | Some result =>
            let s := Prefix0F.SETFLAGBIT Prefix0F.FLAG_ZF false s in
            let s := Prefix0F.set16 s (Prefix0F.reg_field rm) result in
            Prefix0F.Next (Prefix0F.with_lflags s
                             (Prefix0F.set_type_UNKNOWN C (Prefix0F.lflags s)))
        end).
  { unfold Prefix0F.op_0f_bd, Prefix0F.Fetchb. fold rm s1.
    subst value. now destruct (Prefix0F.load_Ew C rm s1). }
  rewrite Hrun. clear Hrun. cbv zeta. split.
  - intros Hz. rewrite Hz. simpl. eexists. split; [reflexivity |]. split.
    + apply (get_flag_SETFLAGBIT_ZF true).
    + simpl. exact Hr.
  - intros Hnz. destruct (Z.eqb_spec value 0); [contradiction |].
    assert (Hlog : 0 <= Z.log2 value < 16).
    { split; [apply Z.log2_nonneg | apply Z.log2_lt_pow2; lia]. }
    rewrite (bsr_loop_spec fuel value 15) by lia.
    replace (15 - (15 - Z.log2 value)) with (Z.log2 value) by lia.
    eexists. split; [reflexivity |].
    split; [| split; [| split]].
    + apply (get_flag_SETFLAGBIT_ZF false).
    + match goal with
      | |- Prefix0F.get16 (Prefix0F.with_lflags ?s ?l) ?i = _ =>
          change (Prefix0F.get16 (Prefix0F.with_lflags s l) i)
            with (Prefix0F.get16 s i)
      end.
      apply get16_set16_same. lia.
    + apply Z.bit_log2. lia.
    + intros j Hj. apply Z.bits_above_log2; lia.
Qed.

Lemma bsr_semantics_witness :
  (16 <= 16)%nat /\
  exists s', Prefix0F.op_0f_bd Samples.sample_core 16 (Samples.sample_cpu 0)
             = Prefix0F.Next s' /\
    Prefix0F.get16 s' 1 = Z.log2 0x28.
Proof.
  split; [lia |].
  destruct (proj2 (bsr_semantics Samples.sample_core 16
                     (Samples.sample_cpu 0) ltac:(lia)))
    as (s' & Hrun & _ & Hdest & _); [vm_compute; discriminate |].
  exists s'. split; [exact Hrun | exact Hdest].
Defined.

Section Prefix0FBits.

Import Prefix0F.

Context {M L : Type} (C : Core M L).

(** SETFLAGBIT on a single-bit flag sets that flag to the test. *)
Lemma get_flag_SETFLAGBIT n (b : bool) (s : Cpu M L) :
  0 <= n < 32 -> get_flag (2 ^ n) (SETFLAGBIT (2 ^ n) b s) = b.
Proof.
  intros Hn. unfold get_flag, SETFLAGBIT. destruct b; simpl.
  - rewrite land_pow2_test, Z.lor_spec, Z.pow2_bits_true by lia.
    now rewrite orb_true_r.
  - rewrite land_pow2_test, Z.land_spec by lia. unfold u32.
    rewrite Z.testbit_mod_pow2, Z.lnot_spec, Z.pow2_bits_true by lia.
    simpl. now rewrite !andb_false_r.
Qed.

Lemma Fetchb_FillFlags (s0 : Cpu M L) :
  Fetchb C (FillFlags C s0)
  = (u8 (LoadMb C (cseip s0) (mem s0)),
     with_cseip (FillFlags C s0) (cseip s0 + 1)).
Proof.
  destruct (FillFlags_keeps C s0) as (_ & Hm & Hip & _).
  unfold Fetchb. now rewrite Hip, Hm.
Qed.

Lemma get16_regs (s s' : Cpu M L) i :
  regs s = regs s' -> get16 s i = get16 s' i.
Proof. intros H. unfold get16. now rewrite H. Qed.

Lemma get8_regs (s s' : Cpu M L) i :
  regs s = regs s' -> get8 s i = get8 s' i.
Proof. intros H. unfold get8. now rewrite H. Qed.

End Prefix0FBits.

(** X18. BT, BTS, BTR and BTC Ew,Gw with a register operand.  The bit
    number is the source register modulo 16; CF receives that bit of the
    operand as it was; BT leaves the operand, BTS sets the bit, BTR clears
    it and BTC inverts it, every other bit of the operand stays; memory is
    not written. *)
Theorem bit_instruction_register {M L : Type} (C : Prefix0F.Core M L)
    (op : Prefix0F.BitOp) (s0 : Prefix0F.Cpu M L) :
  let rm := u8 (Prefix0F.LoadMb C (Prefix0F.cseip s0) (Prefix0F.mem s0)) in
  let E := Prefix0F.rm_field rm in
  let k := Z.land (Prefix0F.get16 s0 (Prefix0F.reg_field rm)) 15 in
  let old := Prefix0F.get16 s0 E in
  0xc0 <= rm ->
  exists s', Prefix0F.bit_Ew_Gw C op s0 = Prefix0F.Next s' /\
    Prefix0F.get_flag Prefix0F.FLAG_CF s' = Z.testbit old k /\
    (forall j, 0 <= j ->
       Z.testbit (Prefix0F.get16 s' E) j
       = match op with
         | Prefix0F.BT => Z.testbit old j
         | Prefix0F.BTS => Z.testbit old j || (j =? k)
         | Prefix0F.BTR => Z.testbit old j && negb (j =? k)
         | Prefix0F.BTC => xorb (Z.testbit old j) (j =? k)
         end) /\
    Prefix0F.mem s' = Prefix0F.mem s0.
Proof.
  intros rm E k old Hrm.
  destruct (FillFlags_keeps C s0) as (Hfr & Hfm & _).
  pose proof (land_15_range (Prefix0F.get16 s0 (Prefix0F.reg_field rm))) as Hk.
  fold k in Hk.
  set (s2 := Prefix0F.with_cseip (Prefix0F.FillFlags C s0) (Prefix0F.cseip s0 + 1)).
  assert (Hs2 : Prefix0F.regs s2 = Prefix0F.regs s0) by exact Hfr.
  unfold Prefix0F.bit_Ew_Gw. rewrite Fetchb_FillFlags. fold rm s2.
  replace (0xc0 <=? rm) with true by (symmetry; apply Z.leb_le; lia).
  fold E. rewrite !(fun i => get16_regs s2 s0 i Hs2).
  fold k old. rewrite (bit_mask k Hk).
  rewrite land_pow2_test, negb_involutive by lia.
  set (s3 := Prefix0F.SETFLAGBIT Prefix0F.FLAG_CF (Z.testbit old k) s2).
  assert (Hcf : Prefix0F.get_flag Prefix0F.FLAG_CF s3 = Z.testbit old k)
    by (apply (get_flag_SETFLAGBIT 0); lia).
  assert (Hs3 : Prefix0F.regs s3 = Prefix0F.regs s0)
    by (subst s3; now rewrite (proj1 (SETFLAGBIT_regs _ _ _))).
  assert (Hm3 : Prefix0F.mem s3 = Prefix0F.mem s0)
    by (subst s3; now rewrite (proj2 (SETFLAGBIT_regs _ _ _))).
  assert (Hold : 0 <= old < 2 ^ 16) by apply get16_range.
  assert (Hwritten : forall op', exists s',
    Prefix0F.Next (Prefix0F.set16 s3 E (Prefix0F.bit_result op' old (2 ^ k)))
    = Prefix0F.Next s' /\
    Prefix0F.get_flag Prefix0F.FLAG_CF s' = Z.testbit old k /\
    Prefix0F.get16 s' E = Prefix0F.bit_result op' old (2 ^ k) /\
    Prefix0F.mem s' = Prefix0F.mem s0).
  { intros op'. eexists. split; [reflexivity |]. split; [exact Hcf |].
    split; [| exact Hm3].
    apply get16_set16_same. apply bit_result_range; assumption. }
  destruct op.
  - exists s3. split; [reflexivity |]. split; [exact Hcf |].
    split; [| exact Hm3]. intros j Hj. now rewrite (get16_regs s3 s0 E Hs3).
  - destruct (Hwritten Prefix0F.BTS) as (s' & Hn & Hc & Hv & Hm).
    exists s'. split; [exact Hn |]. split; [exact Hc |]. split; [| exact Hm].
    intros j Hj. rewrite Hv. apply (bit_result_spec Prefix0F.BTS); lia.
  - destruct (Hwritten Prefix0F.BTR) as (s' & Hn & Hc & Hv & Hm).
    exists s'. split; [exact Hn |]. split; [exact Hc |]. split; [| exact Hm].
    intros j Hj. rewrite Hv. apply (bit_result_spec Prefix0F.BTR); lia.
  - destruct (Hwritten Prefix0F.BTC) as (s' & Hn & Hc & Hv & Hm).
    exists s'. split; [exact Hn |]. split; [exact Hc |]. split; [| exact Hm].
    intros j Hj. rewrite Hv. apply (bit_result_spec Prefix0F.BTC); lia.
Qed.

(** X19. BT, BTS, BTR and BTC Ew,Gw with a memory operand.  The source
    register is a signed bit offset: the word accessed lies 2 * floor(G /
    16) bytes from the operand's address (below it for a negative G), bit
    G mod 16 of it goes to CF, and BTS, BTR and BTC write the changed word
    back to that same address while BT writes nothing. *)
Theorem bit_instruction_memory {M L : Type} (C : Prefix0F.Core M L)
    (op : Prefix0F.BitOp) (s0 : Prefix0F.Cpu M L) :
  let rm := u8 (Prefix0F.LoadMb C (Prefix0F.cseip s0) (Prefix0F.mem s0)) in
  let s2 := Prefix0F.with_cseip (Prefix0F.FillFlags C s0) (Prefix0F.cseip s0 + 1) in
  let s3 := snd (Prefix0F.GetEAa C rm s2) in
  let G := Prefix0F.get16 s0 (Prefix0F.reg_field rm) in
  let k := Z.land G 15 in
  let moved := u32 (fst (Prefix0F.EALookup C rm s2) + 2 * (Prefix0F.s16 G / 16)) in
  let addr := if Prefix0F.TEST_PREFIX_ADDR C s3 then moved
              else Prefix0F.FixEA16 C moved s3 in
  let old := u16 (Prefix0F.LoadMw C addr (Prefix0F.mem s0)) in
  rm < 0xc0 ->
  exists s', Prefix0F.bit_Ew_Gw C op s0 = Prefix0F.Next s' /\
    Prefix0F.get_flag Prefix0F.FLAG_CF s' = Z.testbit old k /\
    Prefix0F.regs s' = Prefix0F.regs s0 /\
    Prefix0F.mem s'
    = match op with
      | Prefix0F.BT => Prefix0F.mem s0
      | _ => Prefix0F.SaveMw C addr (Prefix0F.bit_result op old (2 ^ k))
               (Prefix0F.mem s0)
      end.
Proof.
  intros rm s2 s3 G k moved addr old Hrm.
  destruct (FillFlags_keeps C s0) as (Hfr & Hfm & _).
  pose proof (land_15_range G) as Hk. fold k in Hk.
  assert (Hs2 : Prefix0F.regs s2 = Prefix0F.regs s0) by exact Hfr.
  assert (Hm2 : Prefix0F.mem s2 = Prefix0F.mem s0) by exact Hfm.
  destruct (GetEAa_keeps C rm s2) as (Hea & Hear & Heam & _).
  fold s3 in Hear, Heam. rewrite Hs2 in Hear. rewrite Hm2 in Heam.
  unfold Prefix0F.bit_Ew_Gw. rewrite Fetchb_FillFlags. fold rm s2.
  replace (0xc0 <=? rm) with false by (symmetry; apply Z.leb_gt; lia).
  rewrite (get16_regs s2 s0 _ Hs2). fold G k. rewrite (bit_mask k Hk).
  rewrite (surjective_pairing (Prefix0F.GetEAa C rm s2)), Hea. fold s3.
  cbv iota. rewrite (get16_regs s3 s0 _ Hear). fold G.
  replace (Z.shiftr (Prefix0F.s16 G) 4 * 2) with (2 * (Prefix0F.s16 G / 16))
    by (rewrite Z.shiftr_div_pow2 by lia; change (2 ^ 4) with 16; lia).
  fold moved.
  replace (if negb (Prefix0F.TEST_PREFIX_ADDR C s3)
           then Prefix0F.FixEA16 C moved s3 else moved) with addr
    by (subst addr; now destruct (Prefix0F.TEST_PREFIX_ADDR C s3)).
  rewrite Heam. fold old.
  rewrite land_pow2_test, negb_involutive by lia.
  set (s4 := Prefix0F.SETFLAGBIT Prefix0F.FLAG_CF (Z.testbit old k) s3).
  assert (Hcf : Prefix0F.get_flag Prefix0F.FLAG_CF s4 = Z.testbit old k)
    by (apply (get_flag_SETFLAGBIT 0); lia).
  assert (Hs4 : Prefix0F.regs s4 = Prefix0F.regs s0)
    by (subst s4; now rewrite (proj1 (SETFLAGBIT_regs _ _ _))).
  assert (Hm4 : Prefix0F.mem s4 = Prefix0F.mem s0)
    by (subst s4; now rewrite (proj2 (SETFLAGBIT_regs _ _ _))).
  destruct op; eexists; (split; [reflexivity |]);
    (split; [exact Hcf |]); (split; [exact Hs4 |]);
    simpl; rewrite ?Hm4; reflexivity.
Qed.

Lemma bit_instruction_memory_witness :
  u8 (Samples.sample_mem 0x100) < 0xc0 /\
  exists s', Prefix0F.bit_Ew_Gw Samples.sample_core Prefix0F.BTS
               (Samples.sample_cpu 0) = Prefix0F.Next s' /\
    Prefix0F.regs s' = Prefix0F.regs (Samples.sample_cpu 0).
Proof.
  split; [vm_compute; reflexivity |].
  destruct (bit_instruction_memory Samples.sample_core Prefix0F.BTS
              (Samples.sample_cpu 0)) as (s' & Hrun & _ & Hregs & _);
    [vm_compute; reflexivity |].
  exists s'. split; [exact Hrun | exact Hregs].
Defined.

Lemma bit_instruction_register_witness :
  0xc0 <= u8 0xd1 /\
  exists s', Prefix0F.bit_Ew_Gw Samples.sample_core Prefix0F.BTC
               (Samples.sample_cpu_modrm 0xd1 0) = Prefix0F.Next s' /\
    Prefix0F.get_flag Prefix0F.FLAG_CF s' = true.
Proof.
  split; [vm_compute; discriminate |].
  destruct (bit_instruction_register Samples.sample_core Prefix0F.BTC
              (Samples.sample_cpu_modrm 0xd1 0)) as (s' & Hrun & Hcf & _);
    [vm_compute; discriminate |].
  exists s'. split; [exact Hrun | exact Hcf].
Defined.

Section Prefix0FGroups.

Import Prefix0F.

Context {M L : Type} (C : Core M L).

Lemma for_all_bytes (P : Z -> bool) :
  forallb (fun b => P (Z.of_nat b)) (seq 0 256) = true ->
  forall byte, 0 <= byte < 256 -> P byte = true.
Proof.
  intros Hall byte Hb. rewrite forallb_forall in Hall.
  specialize (Hall (Z.to_nat byte) ltac:(apply in_seq; lia)).
  now rewrite Z2Nat.id in Hall by lia.
Qed.

(** The sub-function of GRP8 by the reg field of the ModRM byte. *)
Lemma grp8_op_reg rm :
  0 <= rm < 256 ->
  grp8_op rm = match reg_field rm with
               | 4 => Some BT | 5 => Some BTS | 6 => Some BTR | 7 => Some BTC
               | _ => None
               end /\
  0 <= reg_field rm < 8.
Proof.
  intros Hrm.
  pose proof (for_all_bytes
    (fun rm =>
       match grp8_op rm, match reg_field rm with
                         | 4 => Some BT | 5 => Some BTS | 6 => Some BTR
                         | 7 => Some BTC | _ => None end with
       | Some BT, Some BT | Some BTS, Some BTS | Some BTR, Some BTR
       | Some BTC, Some BTC | None, None => true
       | _, _ => false
       end && (0 <=? reg_field rm) && (reg_field rm <? 8))
    ltac:(vm_compute; reflexivity) rm Hrm) as Hall.
  cbv beta in Hall. rewrite !andb_true_iff, Z.leb_le, Z.ltb_lt in Hall.
  destruct Hall as [[Hop H0] H8]. split; [| lia].
  destruct (grp8_op rm) as [[] |],
    (match reg_field rm with
     | 4 => Some BT | 5 => Some BTS | 6 => Some BTR | 7 => Some BTC
     | _ => None end) as [[] |]; try discriminate; reflexivity.
Qed.

End Prefix0FGroups.

(** X20. GRP8 Ew,Ib (0F BA) with a register operand: the reg field of the
    ModRM byte selects BT, BTS, BTR or BTC (4..7) on the bit numbered by the
    immediate modulo 16; for the reg fields 0..3 the emulator stops with
    E_Exit instead of raising an illegal-opcode condition. *)
Theorem grp8_register {M L : Type} (C : Prefix0F.Core M L)
    (s0 : Prefix0F.Cpu M L) :
  let rm := u8 (Prefix0F.LoadMb C (Prefix0F.cseip s0) (Prefix0F.mem s0)) in
  let ib := u8 (Prefix0F.LoadMb C (Prefix0F.cseip s0 + 1) (Prefix0F.mem s0)) in
  let E := Prefix0F.rm_field rm in
  let k := Z.land ib 15 in
  let old := Prefix0F.get16 s0 E in
  0xc0 <= rm ->
  (Prefix0F.reg_field rm < 4 ->
   exists s', Prefix0F.op_0f_ba C s0 = Prefix0F.Exit s') /\
  (4 <= Prefix0F.reg_field rm ->
   exists s', Prefix0F.op_0f_ba C s0 = Prefix0F.Next s' /\
     Prefix0F.get_flag Prefix0F.FLAG_CF s' = Z.testbit old k /\
     Prefix0F.mem s' = Prefix0F.mem s0 /\
     forall j, 0 <= j ->
       Z.testbit (Prefix0F.get16 s' E) j
       = match Prefix0F.reg_field rm with
         | 4 => Z.testbit old j
         | 5 => Z.testbit old j || (j =? k)
         | 6 => Z.testbit old j && negb (j =? k)
         | _ => xorb (Z.testbit old j) (j =? k)
         end).
Proof.
  intros rm ib E k old Hrm.
  assert (Hrm8 : 0 <= rm < 256) by apply u8_range.
  destruct (grp8_op_reg rm Hrm8) as [Hgrp Hfield].
  destruct (FillFlags_keeps C s0) as (Hfr & Hfm & _).
  pose proof (land_15_range ib) as Hk. fold k in Hk.
  set (s2 := Prefix0F.with_cseip (Prefix0F.FillFlags C s0) (Prefix0F.cseip s0 + 1)).
  set (s2' := Prefix0F.with_cseip s2 (Prefix0F.cseip s0 + 1 + 1)).
  assert (Hs2 : Prefix0F.regs s2' = Prefix0F.regs s0) by exact Hfr.
  assert (Hrun : Prefix0F.op_0f_ba C s0
    = let s := Prefix0F.SETFLAGBIT Prefix0F.FLAG_CF (Z.testbit old k) s2' in
      match Prefix0F.grp8_op rm with
      | Some Prefix0F.BT => Prefix0F.Next s
      | Some op => Prefix0F.Next
                     (Prefix0F.set16 s E (Prefix0F.bit_result op old (2 ^ k)))
      | None => Prefix0F.Exit s
      end).
  { unfold Prefix0F.op_0f_ba. rewrite Fetchb_FillFlags. fold rm s2.
    replace (0xc0 <=? rm) with true by (symmetry; apply Z.leb_le; lia).
    unfold Prefix0F.Fetchb at 1.
    change (Prefix0F.cseip s2) with (Prefix0F.cseip s0 + 1).
    change (Prefix0F.mem s2) with (Prefix0F.mem (Prefix0F.FillFlags C s0)).
    rewrite Hfm. fold ib s2' E k.
    rewrite (get16_regs s2' s0 E Hs2). fold old.
    rewrite (bit_mask k Hk), land_pow2_test, negb_involutive by lia.
    reflexivity. }
  rewrite Hrun, Hgrp. cbv zeta.
  set (s3 := Prefix0F.SETFLAGBIT Prefix0F.FLAG_CF (Z.testbit old k) s2').
  assert (Hcf : Prefix0F.get_flag Prefix0F.FLAG_CF s3 = Z.testbit old k)
    by (apply (get_flag_SETFLAGBIT 0); lia).
  assert (Hs3 : Prefix0F.regs s3 = Prefix0F.regs s0)
    by (subst s3; now rewrite (proj1 (SETFLAGBIT_regs _ _ _))).
  assert (Hm3 : Prefix0F.mem s3 = Prefix0F.mem s0)
    by (subst s3; rewrite (proj2 (SETFLAGBIT_regs _ _ _)); exact Hfm).
  assert (Hold : 0 <= old < 2 ^ 16) by apply get16_range.
  assert (Hcase : Prefix0F.reg_field rm = 0 \/ Prefix0F.reg_field rm = 1 \/
                  Prefix0F.reg_field rm = 2 \/ Prefix0F.reg_field rm = 3 \/
                  Prefix0F.reg_field rm = 4 \/ Prefix0F.reg_field rm = 5 \/
                  Prefix0F.reg_field rm = 6 \/ Prefix0F.reg_field rm = 7) by lia.
  split.
  - intros Hlt.
    repeat (destruct Hcase as [Hcase | Hcase]); rewrite Hcase in *;
      try lia; eexists; reflexivity.
  - intros Hge.
    repeat (destruct Hcase as [Hcase | Hcase]); rewrite Hcase in *;
      try lia; eexists; (split; [reflexivity |]);
      (split; [exact Hcf |]); (split; [exact Hm3 |]); intros j Hj.
    + now rewrite (get16_regs s3 s0 E Hs3).
    + rewrite get16_set16_same by (apply bit_result_range; assumption).
      apply (bit_result_spec Prefix0F.BTS); lia.
    + rewrite get16_set16_same by (apply bit_result_range; assumption).
      apply (bit_result_spec Prefix0F.BTR); lia.
    + rewrite get16_set16_same by (apply bit_result_range; assumption).
      apply (bit_result_spec Prefix0F.BTC); lia.
Qed.

Lemma grp8_register_witness :
  0xc0 <= u8 0xc8 /\
  exists s', Prefix0F.op_0f_ba Samples.sample_core
               (Samples.sample_cpu_modrm 0xc8 3) = Prefix0F.Exit s'.
Proof.
  split; [vm_compute; discriminate |].
  exact (proj1 (grp8_register Samples.sample_core
                  (Samples.sample_cpu_modrm 0xc8 3)
                  ltac:(vm_compute; discriminate))
               ltac:(vm_compute; reflexivity)).
Defined.

Section Prefix0FMoves.

Import Prefix0F.

Context {M L : Type} (C : Core M L).

Lemma s16_u16_s8 b : 0 <= b < 256 -> s16 (u16 (s8 b)) = s8 b.
Proof.
  intros Hb. unfold s16, u16, s8. change (2 ^ 16) with 65536.
  destruct (Z.ltb_spec b 0x80).
  - rewrite Z.mod_small by lia. destruct (Z.ltb_spec b 0x8000); lia.
  - replace ((b - 0x100) mod 65536) with (b - 0x100 + 65536)
      by (Z.div_mod_to_equations; lia).
    destruct (Z.ltb_spec (b - 0x100 + 65536) 0x8000); lia.
Qed.

End Prefix0FMoves.

(** X21. The 16-bit extending moves.  MOVZX Gw,Eb puts the source byte,
    zero-extended, in the destination word; MOVSX Gw,Eb puts it
    sign-extended: read as signed numbers source and destination agree;
    MOVSX Gw,Ew (0F BF) is the same plain word move as MOVZX Gw,Ew (0F B7).
    No other register and no memory changes. *)
Theorem extending_moves {M L : Type} (C : Prefix0F.Core M L)
    (s0 : Prefix0F.Cpu M L) :
  let rm := u8 (Prefix0F.LoadMb C (Prefix0F.cseip s0) (Prefix0F.mem s0)) in
  let s1 := Prefix0F.with_cseip s0 (Prefix0F.cseip s0 + 1) in
  let G := Prefix0F.reg_field rm in
  let byte := Prefix0F.source_Eb C rm s1 in
  let word := fst (Prefix0F.load_Ew C rm s1) in
  let kept := fun s' : Prefix0F.Cpu M L =>
    (forall i, i <> G -> Prefix0F.regs s' i = Prefix0F.regs s0 i) /\
    Prefix0F.mem s' = Prefix0F.mem s0 /\
    Prefix0F.reg_flags s' = Prefix0F.reg_flags s0 in
  (exists s', Prefix0F.op_0f_b6 C s0 = Prefix0F.Next s' /\
     Prefix0F.get16 s' G = byte /\ 0 <= byte < 256 /\ kept s') /\
  (exists s', Prefix0F.op_0f_be C s0 = Prefix0F.Next s' /\
     Prefix0F.s16 (Prefix0F.get16 s' G) = Prefix0F.s8 byte /\ kept s') /\
  (exists s', Prefix0F.op_0f_b7 C s0 = Prefix0F.Next s' /\
     Prefix0F.get16 s' G = word /\ kept s') /\
  Prefix0F.op_0f_bf C s0 = Prefix0F.op_0f_b7 C s0.
Proof.
  intros rm s1 G byte word kept.
  assert (Hbyte : 0 <= byte < 256).
  { subst byte. unfold Prefix0F.source_Eb.
    destruct (0xc0 <=? rm); [apply get8_range | apply u8_range]. }
  assert (Hkept : forall (s : Prefix0F.Cpu M L) v,
    Prefix0F.regs s = Prefix0F.regs s0 -> Prefix0F.mem s = Prefix0F.mem s0 ->
    Prefix0F.reg_flags s = Prefix0F.reg_flags s0 ->
    kept (Prefix0F.set16 s G v)).
  { intros s v Hr Hm Hf. subst kept. cbv beta. split; [| split; assumption].
    intros i Hi. unfold Prefix0F.set16. simpl.
    rewrite fn_lookup_insert_ne by congruence. now rewrite Hr. }
  destruct (GetEAa_keeps C rm s1) as (Hea & Hear & Heam & Heaf).
  assert (Hsplit : Prefix0F.GetEAa C rm s1
                   = (fst (Prefix0F.EALookup C rm s1),
                      snd (Prefix0F.GetEAa C rm s1))).
  { rewrite <- Hea. apply surjective_pairing. }
  split; [| split; [| split; [| reflexivity]]].
  - unfold Prefix0F.op_0f_b6, Prefix0F.Fetchb. fold rm s1 G.
    subst byte. unfold Prefix0F.source_Eb in *.
    destruct (0xc0 <=? rm).
    + eexists. split; [reflexivity |].
      split; [apply get16_set16_same; lia |].
      split; [assumption | now apply Hkept].
    + rewrite Hsplit. cbv iota. rewrite Heam.
      eexists. split; [reflexivity |].
      split; [apply get16_set16_same; lia |].
      split; [assumption | now apply Hkept].
  - unfold Prefix0F.op_0f_be, Prefix0F.Fetchb. fold rm s1 G.
    subst byte. unfold Prefix0F.source_Eb in *.
    destruct (0xc0 <=? rm).
    + eexists. split; [reflexivity |].
      split; [| now apply Hkept].
      rewrite get16_set16_same by apply u16_range. now apply s16_u16_s8.
    + rewrite Hsplit. cbv iota. rewrite Heam.
      eexists. split; [reflexivity |].
      split; [| now apply Hkept].
      rewrite get16_set16_same by apply u16_range. now apply s16_u16_s8.
  - unfold Prefix0F.op_0f_b7, Prefix0F.Fetchb. fold rm s1 G.
    subst word. unfold Prefix0F.load_Ew.
    destruct (0xc0 <=? rm).
    + eexists. split; [reflexivity |].
      split; [apply get16_set16_same, get16_range | now apply Hkept].
    + rewrite Hsplit. cbv iota. rewrite Heam.
      eexists. split; [reflexivity |].
      split; [apply get16_set16_same, u16_range | now apply Hkept].
Qed.

(** X22. XADD Gw,Ew and XADD Gb,Eb on a 486 or later, register operand.
    With two different registers the destination receives the sum of both
    (modulo the operand size) and the source the destination's old value;
    when both fields name the same register it is doubled. *)
Theorem xadd_register {M L : Type} (C : Prefix0F.Core M L)
    (s0 : Prefix0F.Cpu M L) :
  Prefix0F.Intel486OldSlow C <= Prefix0F.CPU_ArchitectureType s0 ->
  let rm := u8 (Prefix0F.LoadMb C (Prefix0F.cseip s0) (Prefix0F.mem s0)) in
  let G := Prefix0F.reg_field rm in
  let E := Prefix0F.rm_field rm in
  0xc0 <= rm ->
  (exists s', Prefix0F.op_0f_c1 C s0 = Prefix0F.Next s' /\
     Prefix0F.mem s' = Prefix0F.mem s0 /\
     (E <> G ->
      Prefix0F.get16 s' E
      = (Prefix0F.get16 s0 E + Prefix0F.get16 s0 G) mod 2 ^ 16 /\
      Prefix0F.get16 s' G = Prefix0F.get16 s0 E) /\
     (E = G ->
      Prefix0F.get16 s' E = (2 * Prefix0F.get16 s0 E) mod 2 ^ 16)) /\
  (exists s', Prefix0F.op_0f_c0 C s0 = Prefix0F.Next s' /\
     Prefix0F.mem s' = Prefix0F.mem s0 /\
     (E <> G ->
      Prefix0F.get8 s' E
      = (Prefix0F.get8 s0 E + Prefix0F.get8 s0 G) mod 2 ^ 8 /\
      Prefix0F.get8 s' G = Prefix0F.get8 s0 E) /\
     (E = G ->
      Prefix0F.get8 s' E = (2 * Prefix0F.get8 s0 E) mod 2 ^ 8)).
Proof.
  intros Harch rm G E Hrm.
  assert (Harchb : (Prefix0F.CPU_ArchitectureType s0
                    <? Prefix0F.Intel486OldSlow C) = false)
    by (apply Z.ltb_ge; lia).
  set (s1 := Prefix0F.with_cseip s0 (Prefix0F.cseip s0 + 1)).
  assert (Hs1 : Prefix0F.regs s1 = Prefix0F.regs s0) by reflexivity.
  split.
  - unfold Prefix0F.op_0f_c1, Prefix0F.Fetchb. rewrite Harchb. fold rm s1 G E.
    replace (0xc0 <=? rm) with true by (symmetry; apply Z.leb_le; lia).
    eexists. split; [reflexivity |]. split; [reflexivity |].
    rewrite ?(fun i => get16_regs s1 s0 i Hs1). split.
    + intros Hne. split.
      * rewrite get16_set16_same by apply u16_range.
        rewrite get16_set16_other by congruence.
        rewrite ?(fun i => get16_regs s1 s0 i Hs1). reflexivity.
      * rewrite get16_set16_other by assumption.
        rewrite get16_set16_same by apply get16_range.
        rewrite ?(fun i => get16_regs s1 s0 i Hs1). reflexivity.
    + intros Heq. rewrite <- Heq.
      rewrite get16_set16_same by apply u16_range.
      rewrite get16_set16_same by apply get16_range.
      rewrite ?(fun i => get16_regs s1 s0 i Hs1).
      unfold u16. f_equal. lia.
  - unfold Prefix0F.op_0f_c0, Prefix0F.Fetchb. rewrite Harchb. fold rm s1 G E.
    replace (0xc0 <=? rm) with true by (symmetry; apply Z.leb_le; lia).
    eexists. split; [reflexivity |]. split.
    { unfold Prefix0F.set8. now destruct (E <? 4), (G <? 4). }
    rewrite ?(fun i => get8_regs s1 s0 i Hs1). split.
    + intros Hne. split.
      * rewrite get8_set8_same by apply u8_range.
        rewrite get8_set8_other by (apply get8_range || congruence).
        rewrite ?(fun i => get8_regs s1 s0 i Hs1). reflexivity.
      * rewrite get8_set8_other by (apply u8_range || assumption).
        rewrite get8_set8_same by apply get8_range.
        rewrite ?(fun i => get8_regs s1 s0 i Hs1). reflexivity.
    + intros Heq. rewrite <- Heq.
      rewrite get8_set8_same by apply u8_range.
      rewrite get8_set8_same by apply get8_range.
      rewrite ?(fun i => get8_regs s1 s0 i Hs1).
      unfold u8. f_equal. lia.
Qed.

Lemma xadd_register_witness :
  Prefix0F.Intel486OldSlow Samples.sample_core
    <= Prefix0F.CPU_ArchitectureType (Samples.sample_cpu_modrm 0xc9 0) /\
  0xc0 <= u8 0xc9 /\
  exists s', Prefix0F.op_0f_c1 Samples.sample_core
               (Samples.sample_cpu_modrm 0xc9 0) = Prefix0F.Next s' /\
    Prefix0F.get16 s' 1 = (2 * 0x01B6) mod 2 ^ 16.
Proof.
  assert (Harch : Prefix0F.Intel486OldSlow Samples.sample_core
            <= Prefix0F.CPU_ArchitectureType (Samples.sample_cpu_modrm 0xc9 0))
    by (simpl; lia).
  split; [exact Harch |]. split; [vm_compute; discriminate |].
  destruct (proj1 (xadd_register Samples.sample_core
                     (Samples.sample_cpu_modrm 0xc9 0) Harch
                     ltac:(vm_compute; discriminate)))
    as (s' & Hrun & _ & _ & Hsame).
  exists s'. split; [exact Hrun | exact (Hsame eq_refl)].
Defined.

(** X23. XADD with a memory operand: the source register receives the
    value read from memory and the sum of that value and the old source,
    truncated to the operand size, is written to the same address. *)
Theorem xadd_memory {M L : Type} (C : Prefix0F.Core M L)
    (s0 : Prefix0F.Cpu M L) :
  Prefix0F.Intel486OldSlow C <= Prefix0F.CPU_ArchitectureType s0 ->
  let rm := u8 (Prefix0F.LoadMb C (Prefix0F.cseip s0) (Prefix0F.mem s0)) in
  let s1 := Prefix0F.with_cseip s0 (Prefix0F.cseip s0 + 1) in
  let eaa := fst (Prefix0F.EALookup C rm s1) in
  let G := Prefix0F.reg_field rm in
  rm < 0xc0 ->
  (let val := u16 (Prefix0F.LoadMw C eaa (Prefix0F.mem s0)) in
   exists s', Prefix0F.op_0f_c1 C s0 = Prefix0F.Next s' /\
     Prefix0F.get16 s' G = val /\
     Prefix0F.mem s'
     = Prefix0F.SaveMw C eaa ((val + Prefix0F.get16 s0 G) mod 2 ^ 16)
         (Prefix0F.mem s0)) /\
  (let val := u8 (Prefix0F.LoadMb C eaa (Prefix0F.mem s0)) in
   exists s', Prefix0F.op_0f_c0 C s0 = Prefix0F.Next s' /\
     Prefix0F.get8 s' G = val /\
     Prefix0F.mem s'
     = Prefix0F.SaveMb C eaa ((val + Prefix0F.get8 s0 G) mod 2 ^ 8)
         (Prefix0F.mem s0)).
Proof.
  intros Harch rm s1 eaa G Hrm.
  assert (Harchb : (Prefix0F.CPU_ArchitectureType s0
                    <? Prefix0F.Intel486OldSlow C) = false)
    by (apply Z.ltb_ge; lia).
  assert (Hs1 : Prefix0F.regs s1 = Prefix0F.regs s0) by reflexivity.
  destruct (GetEAa_keeps C rm s1) as (Hea & Hear & Heam & _).
  fold eaa in Hea. change (Prefix0F.regs s1) with (Prefix0F.regs s0) in Hear.
  change (Prefix0F.mem s1) with (Prefix0F.mem s0) in Heam.
  assert (Hsplit : Prefix0F.GetEAa C rm s1
                   = (eaa, snd (Prefix0F.GetEAa C rm s1))).
  { rewrite <- Hea. apply surjective_pairing. }
  set (s2 := snd (Prefix0F.GetEAa C rm s1)) in *.
  split.
  - intros val. unfold Prefix0F.op_0f_c1, Prefix0F.Fetchb. rewrite Harchb.
    fold rm s1 G.
    replace (0xc0 <=? rm) with false by (symmetry; apply Z.leb_gt; lia).
    rewrite Hsplit. cbv iota. rewrite Heam. fold val.
    rewrite (get16_regs s1 s0 G Hs1).
    eexists. split; [reflexivity |]. split.
    + change (Prefix0F.get16 (Prefix0F.set16 s2 G val) G = val).
      apply get16_set16_same, u16_range.
    + cbn [Prefix0F.mem Prefix0F.with_mem Prefix0F.set16 Prefix0F.with_regs].
      rewrite Heam. reflexivity.
  - intros val. unfold Prefix0F.op_0f_c0, Prefix0F.Fetchb. rewrite Harchb.
    fold rm s1 G.
    replace (0xc0 <=? rm) with false by (symmetry; apply Z.leb_gt; lia).
    rewrite Hsplit. cbv iota. rewrite Heam. fold val.
    rewrite (get8_regs s1 s0 G Hs1).
    eexists. split; [reflexivity |]. split.
    + change (Prefix0F.get8 (Prefix0F.set8 s2 G val) G = val).
      apply get8_set8_same, u8_range.
    + unfold Prefix0F.set8.
      destruct (G <? 4);
        cbn [Prefix0F.mem Prefix0F.with_mem Prefix0F.with_regs];
        rewrite Heam; reflexivity.
Qed.

Lemma xadd_memory_witness :
  Prefix0F.Intel486OldSlow Samples.sample_core
    <= Prefix0F.CPU_ArchitectureType (Samples.sample_cpu_modrm 0x0e 0) /\
  u8 0x0e < 0xc0 /\
  exists s', Prefix0F.op_0f_c0 Samples.sample_core
               (Samples.sample_cpu_modrm 0x0e 0) = Prefix0F.Next s' /\
    Prefix0F.get8 s' 1 = 0x28.
Proof.
  assert (Harch : Prefix0F.Intel486OldSlow Samples.sample_core
            <= Prefix0F.CPU_ArchitectureType (Samples.sample_cpu_modrm 0x0e 0))
    by (simpl; lia).
  split; [exact Harch |]. split; [vm_compute; reflexivity |].
  destruct (proj2 (xadd_memory Samples.sample_core
                     (Samples.sample_cpu_modrm 0x0e 0) Harch
                     ltac:(vm_compute; reflexivity)))
    as (s' & Hrun & Hg & _).
  exists s'. split; [exact Hrun | exact Hg].
Defined.

(** X24. The instructions of the 486 are illegal opcodes on an older
    processor: CMPXCHG (0F B0, 0F B1), XADD (0F C0, 0F C1), INVD and WBINVD
    (0F 08, 0F 09) go to illegal_opcode before anything is fetched or
    changed.  On a 486 or later INVD and WBINVD change nothing either: they
    only raise the protection fault in protected mode above privilege
    level 0. *)
Theorem i486_opcode_gating {M L : Type} (C : Prefix0F.Core M L)
    (s : Prefix0F.Cpu M L) :
  (Prefix0F.CPU_ArchitectureType s < Prefix0F.Intel486OldSlow C ->
   Prefix0F.op_0f_b0 C s = Prefix0F.IllegalOpcode s /\
   Prefix0F.op_0f_b1 C s = Prefix0F.IllegalOpcode s /\
   Prefix0F.op_0f_c0 C s = Prefix0F.IllegalOpcode s /\
   Prefix0F.op_0f_c1 C s = Prefix0F.IllegalOpcode s /\
   Prefix0F.op_0f_08 C s = Prefix0F.IllegalOpcode s) /\
  (Prefix0F.Intel486OldSlow C <= Prefix0F.CPU_ArchitectureType s ->
   Prefix0F.op_0f_08 C s
   = if Prefix0F.pmode s && negb (Prefix0F.cpl s =? 0)
     then Prefix0F.RunException Prefix0F.EXCEPTION_GP s
     else Prefix0F.Next s).
Proof.
  split; intros Harch.
  - apply Z.ltb_lt in Harch.
    unfold Prefix0F.op_0f_b0, Prefix0F.op_0f_b1, Prefix0F.op_0f_c0,
      Prefix0F.op_0f_c1, Prefix0F.op_0f_08.
    rewrite Harch. repeat split.
  - unfold Prefix0F.op_0f_08.
    replace (Prefix0F.CPU_ArchitectureType s <? Prefix0F.Intel486OldSlow C)
      with false by (symmetry; apply Z.ltb_ge; lia).
    reflexivity.
Qed.

Lemma i486_opcode_gating_witness :
  Prefix0F.Intel486OldSlow Samples.sample_core
    <= Prefix0F.CPU_ArchitectureType (Samples.sample_cpu 3) /\
  Prefix0F.op_0f_08 Samples.sample_core (Samples.sample_cpu 3)
  = Prefix0F.RunException Prefix0F.EXCEPTION_GP (Samples.sample_cpu 3).
Proof.
  split; [simpl; lia |].
  exact (proj2 (i486_opcode_gating Samples.sample_core (Samples.sample_cpu 3))
               ltac:(simpl; lia)).
Defined.

(** X25. CLTS clears the task-switched bit (bit 3) of CR0 and keeps every
    other bit of it and every other control register; in protected mode at
    a privilege level other than 0 it raises the protection fault and
    changes nothing. *)
Theorem clts_semantics {M L : Type} (C : Prefix0F.Core M L)
    (s : Prefix0F.Cpu M L) :
  (Prefix0F.pmode s = true /\ Prefix0F.cpl s <> 0 ->
   Prefix0F.op_0f_06 s = Prefix0F.RunException Prefix0F.EXCEPTION_GP s) /\
  (Prefix0F.pmode s = false \/ Prefix0F.cpl s = 0 ->
   exists s', Prefix0F.op_0f_06 s = Prefix0F.Next s' /\
     (forall j, 0 <= j ->
        Z.testbit (Prefix0F.cr s' 0) j
        = Z.testbit (Prefix0F.cr s 0) j && negb (j =? 3)) /\
     (forall i, i <> 0 -> Prefix0F.cr s' i = Prefix0F.cr s i) /\
     Prefix0F.regs s' = Prefix0F.regs s /\
     Prefix0F.reg_flags s' = Prefix0F.reg_flags s /\
     Prefix0F.mem s' = Prefix0F.mem s).
Proof.
  unfold Prefix0F.op_0f_06. split.
  - intros [Hp Hc]. rewrite Hp.
    destruct (Z.eqb_spec (Prefix0F.cpl s) 0); [contradiction | reflexivity].
  - intros Hok.
    replace (Prefix0F.pmode s && negb (Prefix0F.cpl s =? 0)) with false.
    + eexists. split; [reflexivity |]. simpl.
      split; [| split; [| repeat split]].
      * intros j Hj. rewrite fn_lookup_insert, Z.land_spec, Z.lnot_spec by lia.
        change Prefix0F.CR0_TASKSWITCH with (2 ^ 3).
        rewrite Z.pow2_bits_eqb by lia. now rewrite (Z.eqb_sym 3 j).
      * intros i Hi. now apply fn_lookup_insert_ne.
    + symmetry. destruct Hok as [-> | ->]; [reflexivity |].
      simpl. apply andb_false_r.
Qed.

Lemma clts_semantics_witness :
  (Prefix0F.pmode (Samples.sample_cpu_modrm 0 0) = false \/
   Prefix0F.cpl (Samples.sample_cpu_modrm 0 0) = 0) /\
  exists s', Prefix0F.op_0f_06 (Samples.sample_cpu_modrm 0 0) = Prefix0F.Next s' /\
    Z.testbit (Prefix0F.cr s' 0) 3 = false.
Proof.
  assert (Hok : Prefix0F.pmode (Samples.sample_cpu_modrm 0 0) = false \/
                Prefix0F.cpl (Samples.sample_cpu_modrm 0 0) = 0)
    by (right; reflexivity).
  split; [exact Hok |].
  destruct (proj2 (clts_semantics Samples.sample_core
                     (Samples.sample_cpu_modrm 0 0)) Hok)
    as (s' & Hrun & Hbits & _).
  exists s'. split; [exact Hrun |].
  rewrite (Hbits 3 ltac:(lia)). apply andb_false_r.
Defined.
